(** * CacheFlow: the in-memory store, its append-only log and the wire commands

    A shallow embedding of
      - package [persistence] (the append-only file, AOF),
      - [internal/store/store.go] (the key-value store with TTL),
      - [internal/server/server.go] ([handleCommand]),
    together with the properties of the specification that concern them.
    The repository also holds an earlier draft of the store, with a loader
    of its own that skips malformed lines and a [Delete] that records only
    the removal of an existing key; the embedding follows [store.go] and
    package [persistence], which are what the server runs.  The draft store,
    the draft of [handleCommand], [handleConnection] and the client are
    embedded after them (modules [draft], [draftserver], [connection] and
    [client]) and related to the code above.

    Conventions of the embedding.
      - A Go [string] is a [string] of bytes.  The helpers of Go's [strings]
        package are embedded as they work on ASCII text: white space is TAB,
        LF, VT, FF, CR and SPACE, and [ToUpper] maps [a-z] only.  On a string
        with a byte above 127 Go decodes UTF-8, splits at the white space of
        Unicode as well and maps the letters of Unicode; a statement that
        depends on how a text is split or upper-cased is therefore stated for
        ASCII text ([strings.isASCII]), and a statement that holds whatever
        the helpers return is stated for every text.
      - [time.Time] and [time.Duration] are integers (nanoseconds, [Z]).
        [time.Now()] is an explicit argument [now] of every operation that
        reads the clock.  [Time.After] is the strict order [>].
      - The log file is its byte content.  [AOF.Write] flushes and syncs on
        every call, so the content of the file is always what has been
        written; disk operations are assumed to succeed.
      - The scanner ([bufio.Scanner]) stops with [ErrTooLong] at a line of
        64 KiB or more ([strings.Scan]); [strings.fitsScanner] says that a
        text has no such line.  The draft store is embedded for logs that
        fit.
      - The sweep of expired entries that the server runs on a ticker is the
        call [DeleteExpired]; it takes part in a sequence of calls where the
        statement lists it among them, and not otherwise.
      - The locks ([sync.RWMutex], [sync.Mutex]) do not appear: every
        operation is modelled as one atomic state transformer. *)

From Stdlib Require Import String Ascii ZArith List Lia Bool.
From stdpp Require Import gmap strings pretty.

Local Open Scope Z_scope.

(** ** Go's [strings] package and [bufio.Scanner] *)

Module strings.

Definition isSpace (c : ascii) : bool :=
  let n := N_of_ascii c in
  (((9 <=? n) && (n <=? 13)) || (n =? 32))%N.

Definition LF : ascii := ascii_of_N 10.
Definition newline : string := String LF EmptyString.

Definition isLF (c : ascii) : bool := (N_of_ascii c =? 10)%N.

Definition upperChar (c : ascii) : ascii :=
  let n := N_of_ascii c in
  if ((97 <=? n) && (n <=? 122))%N then ascii_of_N (n - 32) else c.

(** [strings.ToUpper], on ASCII text. *)
Fixpoint ToUpper (s : string) : string :=
  match s with
  | EmptyString => EmptyString
  | String c s' => String (upperChar c) (ToUpper s')
  end.

Fixpoint trimLeft (s : string) : string :=
  match s with
  | EmptyString => EmptyString
  | String c s' => if isSpace c then trimLeft s' else s
  end.

Fixpoint trimRight (s : string) : string :=
  match s with
  | EmptyString => EmptyString
  | String c s' =>
      match trimRight s' with
      | EmptyString => if isSpace c then EmptyString else String c EmptyString
      | t => String c t
      end
  end.

(** [strings.TrimSpace], on ASCII text. *)
Definition TrimSpace (s : string) : string := trimRight (trimLeft s).

Definition startsField (s : string) : bool :=
  match s with
  | EmptyString => false
  | String c _ => negb (isSpace c)
  end.

(** [strings.Fields], on ASCII text: the maximal runs of non-space bytes, in
    order. *)
Fixpoint Fields (s : string) : list string :=
  match s with
  | EmptyString => []
  | String c s' =>
      if isSpace c then Fields s'
      else if startsField s' then
        match Fields s' with
        | t :: ts => String c t :: ts
        | [] => [String c EmptyString]
        end
      else String c EmptyString :: Fields s'
  end.

(** [strings.Join] *)
Fixpoint Join (elems : list string) (sep : string) : string :=
  match elems with
  | [] => EmptyString
  | [x] => x
  | x :: rest => x +:+ sep +:+ Join rest sep
  end.

(** The lines of a text, as the default split function of [bufio.Scanner]
    cuts them, before the trailing carriage return is dropped: the text is
    cut at every LF and a last line without LF is a line when it is not
    empty. *)
Fixpoint rawLines (s : string) : list string :=
  match s with
  | EmptyString => []
  | String c s' =>
      if isLF c then EmptyString :: rawLines s'
      else match rawLines s' with
           | l :: ls => String c l :: ls
           | [] => [String c EmptyString]
           end
  end.

Fixpoint dropCR (s : string) : string :=
  match s with
  | EmptyString => EmptyString
  | String c EmptyString => if (N_of_ascii c =? 13)%N then EmptyString else s
  | String c s' => String c (dropCR s')
  end.

(** The lines of a text, each as [scanner.Text()] returns it. *)
Definition ScanLines (s : string) : list string := map dropCR (rawLines s).

(** [bufio.MaxScanTokenSize], the size to which the buffer of a scanner
    grows. *)
Definition MaxScanTokenSize : N := 65536.

(** A line that the scanner cannot hold: the buffer is full before the line
    feed that ends the line (or the end of the input) is seen. *)
Definition tooLong (l : string) : bool :=
  (MaxScanTokenSize <=? N.of_nat (String.length l))%N.

(** [scanner.Scan()] / [scanner.Text()] until [Scan] returns false: the
    tokens yielded, and whether [scanner.Err()] is then [bufio.ErrTooLong]
    (the scanner stops at the first line that is too long; the input itself
    is read without error). *)
Fixpoint scanTokens (raw : list string) : list string * bool :=
  match raw with
  | [] => ([], false)
  | l :: rest =>
      if tooLong l then ([], true)
      else let '(tokens, err) := scanTokens rest in (dropCR l :: tokens, err)
  end.

Definition Scan (s : string) : list string * bool := scanTokens (rawLines s).

(** A field: not empty and free of white space. *)
Fixpoint noSpace (s : string) : bool :=
  match s with
  | EmptyString => true
  | String c s' => negb (isSpace c) && noSpace s'
  end.

Definition isField (s : string) : bool :=
  match s with
  | EmptyString => false
  | _ => noSpace s
  end.

Fixpoint noLF (s : string) : bool :=
  match s with
  | EmptyString => true
  | String c s' => negb (isLF c) && noLF s'
  end.

(** The content of a file to which whole lines were appended: empty, or
    ending in LF. *)
Fixpoint endsLF (s : string) : bool :=
  match s with
  | EmptyString => true
  | String c EmptyString => isLF c
  | String _ s' => endsLF s'
  end.

(** Every byte is below 128.  On such strings [Fields], [TrimSpace] and
    [ToUpper] above are Go's (which on other strings also split at the
    white space of Unicode and map the letters of Unicode). *)
Fixpoint isASCII (s : string) : bool :=
  match s with
  | EmptyString => true
  | String c s' => (N_of_ascii c <? 128)%N && isASCII s'
  end.

(** Every line is shorter than the 64 KiB of the scanner's buffer: the
    scanner yields all the lines of the text and reports no error. *)
Definition fitsScanner (s : string) : bool :=
  forallb (fun l => negb (tooLong l)) (rawLines s).

(** Free of the control white space (TAB, LF, VT, FF, CR): every byte is a
    space or not white space at all. *)
Fixpoint plain (s : string) : bool :=
  match s with
  | EmptyString => true
  | String c s' => (negb (isSpace c) || (N_of_ascii c =? 32)%N) && plain s'
  end.

End strings.

(** ** Go's [time] package

    [time.ParseDuration] and [Duration.String] belong to Go's standard
    library.  The embedding is stated over any pair of such functions;
    [gotime] below is the instance used to run the code on concrete inputs. *)

Module time.

Abbreviation Time := Z (only parsing).
Abbreviation Duration := Z (only parsing).

Class Pkg := {
  ParseDuration : string -> option Duration;  (* [None]: err != nil *)
  Duration_String : Duration -> string  (* [d.String()] *)
}.

(** *** A model of [time.ParseDuration] and [Duration.String]

    Both follow the algorithms of Go's standard library on integers.  The
    one departure: the library evaluates a fractional part in [float64],
    the model in exact arithmetic (the two agree whenever the floating point
    product is exact, as for [1.5s]). *)

Definition isDigit (c : ascii) : bool :=
  let n := N_of_ascii c in ((48 <=? n) && (n <=? 57))%N.

Definition digitOf (c : ascii) : Z := Z.of_N (N_of_ascii c) - 48.

Definition isDot (c : ascii) : bool := (N_of_ascii c =? 46)%N.

Fixpoint leadingInt (x : Z) (s : string) : option (Z * string) :=
  match s with
  | EmptyString => Some (x, s)
  | String c s' =>
      if isDigit c then
        if 2 ^ 63 / 10 <? x then None
        else
          let x := x * 10 + digitOf c in
          if 2 ^ 63 <? x then None else leadingInt x s'
      else Some (x, s)
  end.

Fixpoint leadingFraction (x scale : Z) (overflow : bool) (s : string)
    : Z * Z * string :=
  match s with
  | EmptyString => (x, scale, s)
  | String c s' =>
      if isDigit c then
        if overflow then leadingFraction x scale true s'
        else if (2 ^ 63 - 1) / 10 <? x then leadingFraction x scale true s'
        else
          let y := x * 10 + digitOf c in
          if 2 ^ 63 <? y then leadingFraction x scale true s'
          else leadingFraction y (scale * 10) false s'
      else (x, scale, s)
  end.

(** The unit: the bytes up to the next digit or dot. *)
Fixpoint unitSpan (s : string) : string * string :=
  match s with
  | EmptyString => (EmptyString, s)
  | String c s' =>
      if isDot c || isDigit c then (EmptyString, s)
      else let '(u, rest) := unitSpan s' in (String c u, rest)
  end.

Definition micro : string := String (ascii_of_N 194) (String (ascii_of_N 181) "s").
Definition mu : string := String (ascii_of_N 206) (String (ascii_of_N 188) "s").

Definition unitMap (u : string) : option Z :=
  if String.eqb u "ns" then Some 1
  else if String.eqb u "us" then Some 1000
  else if String.eqb u micro then Some 1000
  else if String.eqb u mu then Some 1000
  else if String.eqb u "ms" then Some 1000000
  else if String.eqb u "s" then Some 1000000000
  else if String.eqb u "m" then Some 60000000000
  else if String.eqb u "h" then Some 3600000000000
  else None.

(** The loop [for s != ""] of [ParseDuration].  Every round consumes at
    least one byte, so [fuel] above the length of [s] is never used up
    ([parseLoop_fuel] below). *)
Fixpoint parseLoop (fuel : nat) (d : Z) (s : string) : option Z :=
  match fuel with
  | O => None
  | S fuel =>
      match s with
      | EmptyString => Some d
      | String c0 _ =>
          if negb (isDot c0 || isDigit c0) then None
          else
            match leadingInt 0 s with
            | None => None
            | Some (v, s1) =>
                let pre := negb (String.length s =? String.length s1)%nat in
                let '(f, scale, s2, post) :=
                  match s1 with
                  | String c1 s1' =>
                      if isDot c1 then
                        let '(f, scale, s2) := leadingFraction 0 1 false s1' in
                        (f, scale, s2,
                         negb (String.length s1' =? String.length s2)%nat)
                      else (0, 1, s1, false)
                  | EmptyString => (0, 1, s1, false)
                  end in
                if negb pre && negb post then None
                else
                  let '(u, s3) := unitSpan s2 in
                  if String.eqb u "" then None
                  else
                    match unitMap u with
                    | None => None
                    | Some unit =>
                        if 2 ^ 63 / unit <? v then None
                        else
                          let v := v * unit in
                          let v := if 0 <? f then v + f * unit / scale else v in
                          if 2 ^ 63 <? v then None
                          else
                            let d := (d + v) mod 2 ^ 64 in
                            if 2 ^ 63 <? d then None
                            else parseLoop fuel d s3
                    end
            end
      end
  end.

Definition goParseDuration (s : string) : option Z :=
  let '(neg, s) :=
    match s with
    | String c s' =>
        if (N_of_ascii c =? 45)%N then (true, s')
        else if (N_of_ascii c =? 43)%N then (false, s')
        else (false, s)
    | EmptyString => (false, s)
    end in
  if String.eqb s "0" then Some 0
  else if String.eqb s "" then None
  else
    match parseLoop (S (String.length s)) 0 s with
    | None => None
    | Some d =>
        if neg then Some (- d)
        else if 2 ^ 63 - 1 <? d then None
        else Some d
    end.

Definition digitChar (d : Z) : ascii := ascii_of_N (Z.to_N d + 48).

(** [fmtFrac]: the fraction of [v / 10^prec] without trailing zeros, and
    [v / 10^prec]. *)
Fixpoint fmtFrac (prec : nat) (v : Z) (print : bool) (acc : string)
    : string * Z :=
  match prec with
  | O => (if print then String (ascii_of_N 46) acc else acc, v)
  | S prec =>
      let digit := v mod 10 in
      let print := print || negb (digit =? 0) in
      fmtFrac prec (v / 10) print
        (if print then String (digitChar digit) acc else acc)
  end.

Definition fmtInt (v : Z) : string := pretty (Z.to_N v).

Definition goDurationString (d : Z) : string :=
  let u := Z.abs d in
  let neg := d <? 0 in
  let body :=
    if u <? 1000000000 then
      if u =? 0 then "0s"
      else
        let '(prec, unit) :=
          if u <? 1000 then (0%nat, "ns")
          else if u <? 1000000 then (3%nat, micro)
          else (6%nat, "ms") in
        let '(frac, u) := fmtFrac prec u false "" in
        fmtInt u +:+ frac +:+ unit
    else
      let '(frac, u) := fmtFrac 9 u false "" in
      let out := fmtInt (u mod 60) +:+ frac +:+ "s" in
      let u := u / 60 in
      if 0 <? u then
        let out := fmtInt (u mod 60) +:+ "m" +:+ out in
        let u := u / 60 in
        if 0 <? u then fmtInt u +:+ "h" +:+ out else out
      else out in
  if neg then "-" +:+ body else body.

Definition gotime : Pkg :=
  {| ParseDuration := goParseDuration; Duration_String := goDurationString |}.

(** [t.After(u)] *)
Definition After (t u : Time) : bool := u <? t.

(** [t.Add(d)] *)
Definition Add (t : Time) (d : Duration) : Time := t + d.

End time.

(** ** Errors and results *)

Inductive error : Type :=
  | ErrInvalidFormatAt (lineNumber : nat) (line : string)
      (* "invalid command format at line %d: %s" *)
  | ErrInvalidSetAt (lineNumber : nat) (line : string)
      (* "invalid SET command at line %d: %s" *)
  | ErrInvalidDeleteAt (lineNumber : nat) (line : string)
      (* "invalid DELETE command at line %d: %s" *)
  | ErrUnknownAt (lineNumber : nat) (cmd : string)
      (* "unknown command at line %d: %s" *)
  | ErrTooLong
      (* [bufio.ErrTooLong], "bufio.Scanner: token too long" *)
  | ErrScanning (err : error)
      (* "error scanning AOF file: %w" *)
  | ErrReading (err : error)
      (* "error reading AOF file %s: %w" *)
  | ErrIntegrity (err : error)
      (* "AOF file integrity check failed: %w" *)
  | ErrIntegrityBeforeLoad (err : error)
      (* "AOF file integrity check failed before loading: %w" *)
  | ErrProcessing (lineNumber : nat) (err : error)
      (* "error processing command at line %d: %w" *)
  | ErrInvalidSet (command : string)
      (* "invalid SET command: %s" *)
  | ErrInvalidDelete (command : string)
      (* "invalid DELETE command: %s" *)
  | ErrUnknown (cmd : string)
      (* "unknown command: %s" *)
  | ErrInitAOF (err : error)
      (* "failed to initialize AOF: %w" *)
  | ErrLoadAOF (err : error).
      (* "failed to load data from AOF: %w" *)

(** A Go result [(x, err)]: either [x] with a nil error, or the error. *)
Inductive result (A : Type) : Type :=
  | Ok (x : A)
  | Err (err : error).
Arguments Ok {A} x.
Arguments Err {A} err.

(** ** Package [persistence] *)

Module persistence.

Import strings.

(** [type AOF struct]: [file] is [None] for a nil file and otherwise holds
    the content of the open log file; the buffered writer is flushed by every
    [Write], so it is always empty between calls. *)
Record AOF : Type := mkAOF {
  file : option string;
  isLoading : bool
}.

(** The loop of [checkAOFIntegrity] over the scanned lines. *)
Fixpoint checkLines (lines : list string) (lineNumber : nat) : option error :=
  match lines with
  | [] => None
  | text :: rest =>
      let lineNumber := S lineNumber in
      let line := TrimSpace text in
      if String.eqb line "" then checkLines rest lineNumber
      else
        let parts := Fields line in
        if (length parts <? 2)%nat then Some (ErrInvalidFormatAt lineNumber line)
        else
          let cmd := ToUpper (hd "" parts) in
          if String.eqb cmd "SET" then
            if (length parts <? 3)%nat then Some (ErrInvalidSetAt lineNumber line)
            else checkLines rest lineNumber
          else if String.eqb cmd "DELETE" then
            if negb (length parts =? 2)%nat then Some (ErrInvalidDeleteAt lineNumber line)
            else checkLines rest lineNumber
          else Some (ErrUnknownAt lineNumber cmd)
  end.

(** [checkAOFIntegrity], on the content of the file; [None] is a nil error. *)
Definition checkAOFIntegrity (content : string) : option error :=
  let '(lines, err) := Scan content in
  match checkLines lines 0 with
  | Some e => Some e
  | None => if err then Some (ErrScanning ErrTooLong) else None
  end.

(** [persistence.New]: [content] is what the file [filename] holds once it
    has been opened with [O_APPEND|O_CREATE] (empty when it did not exist). *)
Definition New (filename content : string) : result AOF :=
  if String.eqb filename "" then Ok (mkAOF None false)
  else
    match checkAOFIntegrity content with
    | Some err => Err (ErrIntegrity err)
    | None => Ok (mkAOF (Some content) false)
    end.

(** The scanning loop of [Load]; [st] is the state the handler closes over. *)
Fixpoint loadLines {S : Type} (handler : string -> S -> result S)
    (lines : list string) (lineNumber : nat) (st : S) : result S :=
  match lines with
  | [] => Ok st
  | text :: rest =>
      let lineNumber := Datatypes.S lineNumber in
      let line := TrimSpace text in
      if String.eqb line "" then loadLines handler rest lineNumber st
      else
        match handler line st with
        | Err err => Err (ErrProcessing lineNumber err)
        | Ok st' => loadLines handler rest lineNumber st'
        end
  end.

(** [(a *AOF).Load].  The receiver is shared with the state [st] the handler
    works on ([store.aof] points to it): [setLoading b] is the assignment
    [a.isLoading = b] as seen from that state. *)
Definition Load {S : Type} (setLoading : bool -> S -> S)
    (filename content : string) (handler : string -> S -> result S)
    (st : S) : result S :=
  if String.eqb filename "" then Ok st
  else
    match checkAOFIntegrity content with
    | Some err => Err (ErrIntegrityBeforeLoad err)
    | None =>
        let '(lines, err) := Scan content in
        match loadLines handler lines 0 (setLoading true st) with
        | Err e => Err e
        | Ok st' =>
            if err then Err (ErrReading ErrTooLong) else Ok (setLoading false st')
        end
    end.

(** [(a *AOF).Write]: appends [command] and a line feed. *)
Definition Write (a : AOF) (command : string) : AOF :=
  match file a with
  | None => a
  | Some content =>
      if isLoading a then a
      else mkAOF (Some (content +:+ command +:+ String LF "")) (isLoading a)
  end.

End persistence.

(** ** Package [store] *)

Module store.

Import strings.

(** The dynamic values the store is used with ([Value interface{}]); [VNil]
    is the nil interface value, which [Set] accepts like any other. *)
Inductive any : Type :=
  | VNil
  | VString (s : string)
  | VInt (n : Z)
  | VBytes (b : list N).

(** [fmt.Sprintf("%v", value)] *)
Definition Sprintf_v (value : any) : string :=
  match value with
  | VNil => "<nil>"
  | VString s => s
  | VInt n => pretty n
  | VBytes b => "[" +:+ Join (map pretty b) " " +:+ "]"
  end.

Record Item : Type := mkItem {
  Value : any;
  Expiration : option Z
}.

Record Store : Type := mkStore {
  items : gmap string Item;
  aof : option persistence.AOF
}.

(** [recordCommand] *)
Definition recordCommand (parts : list string) (s : Store) : Store :=
  match aof s with
  | None => s
  | Some a => mkStore (items s) (Some (persistence.Write a (Join parts " ")))
  end.

(** [Set] (a reserved word here, hence [Set_]); [now] is the reading of
    [time.Now()]. *)
Definition Set_ `{time.Pkg} (key : string) (value : any) (ttl : Z) (now : Z)
    (s : Store) : Store :=
  let expiration := if 0 <? ttl then Some (time.Add now ttl) else None in
  let s := mkStore (<[key := mkItem value expiration]> (items s)) (aof s) in
  let parts := ["SET"; key; Sprintf_v value] in
  let parts := if 0 <? ttl then parts ++ [time.Duration_String ttl] else parts in
  recordCommand parts s.

(** [Delete] *)
Definition Delete (key : string) (s : Store) : Store :=
  let s := mkStore (delete key (items s)) (aof s) in
  recordCommand ["DELETE"; key] s.

(** [item.Expiration != nil && now.After( *item.Expiration )] *)
Definition expired (now : Z) (item : Item) : bool :=
  match Expiration item with
  | Some exp => time.After now exp
  | None => false
  end.

(** [Get]: [(nil, false)] is [(None, false)]; a stored value [v] is found as
    [(Some v, true)], the stored nil as [(Some VNil, true)]. *)
Definition Get (key : string) (now : Z) (s : Store) : option any * bool :=
  match items s !! key with
  | None => (None, false)
  | Some item =>
      if expired now item then (None, false) else (Some (Value item), true)
  end.

(** [Exists] *)
Definition Exists (key : string) (now : Z) (s : Store) : bool :=
  match items s !! key with
  | None => false
  | Some item => if expired now item then false else true
  end.

(** [DeleteExpired]: the loop deletes every entry that is expired at [now]
    and keeps the others. *)
Definition DeleteExpired (now : Z) (s : Store) : Store :=
  mkStore (filter (fun kv => expired now (snd kv) = false) (items s)) (aof s).

(** The state the replay handler of [New] closes over: the store under
    construction and the number of readings of the clock made so far. *)
Definition replay : Type := Store * nat.

(** The handler [New] passes to [Load]; the [n]-th reading of [time.Now()]
    during replay is [clock n]. *)
Definition handler `{time.Pkg} (clock : nat -> Z) (command : string)
    (st : replay) : result replay :=
  let '(store, n) := st in
  let parts := Fields command in
  if (length parts =? 0)%nat then Ok st
  else
    let cmd := ToUpper (hd "" parts) in
    if String.eqb cmd "SET" then
      if (length parts <? 3)%nat then Err (ErrInvalidSet command)
      else
        let key := nth 1 parts "" in
        let '(value, ttl) :=
          if (3 <? length parts)%nat then
            match time.ParseDuration (nth (length parts - 1) parts "") with
            | Some parsedTTL =>
                (Join (drop 2 (take (length parts - 1) parts)) " ", parsedTTL)
            | None => (Join (drop 2 parts) " ", 0)
            end
          else (Join (drop 2 parts) " ", 0) in
        Ok (Set_ key (VString value) ttl (clock n) store, S n)
    else if String.eqb cmd "DELETE" then
      if negb (length parts =? 2)%nat then Err (ErrInvalidDelete command)
      else Ok (Delete (nth 1 parts "") store, n)
    else Err (ErrUnknown cmd).

(** [a.isLoading = b] on the [AOF] the store points to. *)
Definition setLoading (b : bool) (st : replay) : replay :=
  let '(store, n) := st in
  match aof store with
  | None => st
  | Some a => (mkStore (items store) (Some (persistence.mkAOF (persistence.file a) b)), n)
  end.

(** [store.New]: [content] is the content of the file [aofFilename] when the
    store is constructed (empty when the file does not exist yet). *)
Definition New `{time.Pkg} (aofFilename content : string) (clock : nat -> Z)
    : result Store :=
  let store := mkStore ∅ None in
  if negb (String.eqb aofFilename "") then
    match persistence.New aofFilename content with
    | Err err => Err (ErrInitAOF err)
    | Ok a =>
        let store := mkStore (items store) (Some a) in
        match persistence.Load setLoading aofFilename content (handler clock)
                (store, 0%nat) with
        | Err err => Err (ErrLoadAOF err)
        | Ok (store, _) => Ok store
        end
    end
  else Ok store.

(** The content of the log file of a store (empty without persistence);
    closing the store leaves exactly this on disk. *)
Definition logOf (s : Store) : string :=
  match aof s with
  | Some a => default "" (persistence.file a)
  | None => ""
  end.

End store.

(** ** Package [server] *)

Module server.

Import strings.

(** [handleCommand]: the reply and the store after the command. *)
Definition handleCommand `{time.Pkg} (cmd : string) (now : Z)
    (s : store.Store) : string * store.Store :=
  let parts := Fields cmd in
  if (length parts =? 0)%nat then ("ERROR: Empty command", s)
  else
    let c := ToUpper (hd "" parts) in
    if String.eqb c "SET" then
      if (length parts <? 3)%nat then ("ERROR: SET requires key and value", s)
      else
        let key := nth 1 parts "" in
        let '(value, ttl) :=
          if (3 <? length parts)%nat then
            match time.ParseDuration (nth (length parts - 1) parts "") with
            | Some parsedTTL =>
                (Join (drop 2 (take (length parts - 1) parts)) " ", parsedTTL)
            | None => (Join (drop 2 parts) " ", 0)
            end
          else (Join (drop 2 parts) " ", 0) in
        ("OK", store.Set_ key (store.VString value) ttl now s)
    else if String.eqb c "GET" then
      if negb (length parts =? 2)%nat then ("ERROR: GET requires key", s)
      else
        let '(value, exists_) := store.Get (nth 1 parts "") now s in
        if negb exists_ then ("NIL", s)
        else (match value with
              | Some v => store.Sprintf_v v
              | None => "<nil>"
              end, s)
    else if String.eqb c "DELETE" then
      if negb (length parts =? 2)%nat then ("ERROR: DELETE requires key", s)
      else ("OK", store.Delete (nth 1 parts "") s)
    else if String.eqb c "EXISTS" then
      if negb (length parts =? 2)%nat then ("ERROR: EXISTS requires key", s)
      else if store.Exists (nth 1 parts "") now s then ("1", s) else ("0", s)
    else ("ERROR: Unknown command", s).

End server.

(** ** Sessions: sequences of calls on a store *)

Module session.

Import store.

(** A mutating call of the store's interface; reads ([Get], [Exists]) do not
    change the store and need no entry. *)
Inductive call : Type :=
  | CallSet (key : string) (value : any) (ttl : Z)
  | CallDelete (key : string)
  | CallDeleteExpired.

(** The call [c] made when the clock reads [now]. *)
Definition step `{time.Pkg} (c : call) (now : Z) (s : Store) : Store :=
  match c with
  | CallSet key value ttl => Set_ key value ttl now s
  | CallDelete key => Delete key s
  | CallDeleteExpired => DeleteExpired now s
  end.

Fixpoint run `{time.Pkg} (cs : list (call * Z)) (s : Store) : Store :=
  match cs with
  | [] => s
  | (c, now) :: rest => run rest (step c now s)
  end.

(** [c] is a [Set] or a [Delete] of [key]. *)
Definition writes (key : string) (c : call) : bool :=
  match c with
  | CallSet k _ _ => String.eqb k key
  | CallDelete k => String.eqb k key
  | CallDeleteExpired => false
  end.

(** Flat text: a value that is its own fields joined by single spaces
    (not empty, no repeated, leading or trailing white space). *)
Definition flatText (v : string) : bool :=
  match strings.Fields v with
  | [] => false
  | fs => String.eqb (strings.Join fs " ") v
  end.

(** The calls whose log line reads back as the call: a [Set] of flat text
    under a key that is one field, whose TTL (when positive) prints as one
    field that parses back to it, and whose value (when there is no TTL and
    it has several fields) does not end in a field that parses as a
    duration; a [Delete] of a key that is one field. *)
Definition replayable `{time.Pkg} (c : call) : bool :=
  match c with
  | CallSet key (VString v) ttl =>
      strings.isField key && flatText v &&
      (if 0 <? ttl then
         strings.isField (time.Duration_String ttl) &&
         match time.ParseDuration (time.Duration_String ttl) with
         | Some d => d =? ttl
         | None => false
         end
       else
         let fs := strings.Fields v in
         (length fs <? 2)%nat ||
         match time.ParseDuration (nth (length fs - 1) fs "") with
         | Some _ => false
         | None => true
         end)
  | CallSet _ _ _ => false
  | CallDelete key => strings.isField key
  | CallDeleteExpired => false
  end.

(** The fields of the line a replayable call appends to the log. *)
Definition fieldsOf `{time.Pkg} (c : call) : list string :=
  match c with
  | CallSet key value ttl =>
      "SET" :: key :: strings.Fields (Sprintf_v value)
        ++ (if 0 <? ttl then [time.Duration_String ttl] else [])
  | CallDelete key => ["DELETE"; key]
  | CallDeleteExpired => []
  end.

(** What the replay handler reads in a command line. *)
Inductive parsed : Type :=
  | PSet (key value : string) (ttl : Z)
  | PDelete (key : string)
  | PNothing
  | PError (err : error).

Definition parseParts `{time.Pkg} (command : string) (parts : list string) : parsed :=
  match parts with
  | [] => PNothing
  | word :: _ =>
      if String.eqb (strings.ToUpper word) "SET" then
        if (length parts <? 3)%nat then PError (ErrInvalidSet command)
        else if (3 <? length parts)%nat then
          match time.ParseDuration (nth (length parts - 1) parts "") with
          | Some parsedTTL =>
              PSet (nth 1 parts "")
                (strings.Join (drop 2 (take (length parts - 1) parts)) " ") parsedTTL
          | None => PSet (nth 1 parts "") (strings.Join (drop 2 parts) " ") 0
          end
        else PSet (nth 1 parts "") (strings.Join (drop 2 parts) " ") 0
      else if String.eqb (strings.ToUpper word) "DELETE" then
        if negb (length parts =? 2)%nat then PError (ErrInvalidDelete command)
        else PDelete (nth 1 parts "")
      else PError (ErrUnknown (strings.ToUpper word))
  end.

(** What a replayable call is read back as. *)
Definition parsedOf (c : call) : parsed :=
  match c with
  | CallSet key value ttl => PSet key (Sprintf_v value) (if 0 <? ttl then ttl else 0)
  | CallDelete key => PDelete key
  | CallDeleteExpired => PNothing
  end.

(** Two entries agree when both are absent, or both are present with the
    same value and both with or both without an expiration (the instants
    may differ). *)
Definition sameEntry (a b : option Item) : Prop :=
  match a, b with
  | None, None => True
  | Some x, Some y =>
      Value x = Value y /\ (Expiration x = None <-> Expiration y = None)
  | _, _ => False
  end.

Definition sameItems (m1 m2 : gmap string Item) : Prop :=
  forall key, sameEntry (m1 !! key) (m2 !! key).

(** The store is in replay: its log, if any, is loading. *)
Definition loading (s : Store) : Prop :=
  match aof s with
  | Some a => persistence.isLoading a = true
  | None => True
  end.

(** Two replay states are related when both are loading and their maps agree. *)
Definition related (st1 st2 : replay) : Prop :=
  loading (fst st1) /\ loading (fst st2) /\ sameItems (items (fst st1)) (items (fst st2)).

(** The store and its log agree: the log is open and not loading, holds
    whole lines none of which fails the integrity check, and replaying them
    from an empty map gives a map that agrees with the one of the store. *)
Definition consistent `{time.Pkg} (s : Store) : Prop :=
  exists content,
    aof s = Some (persistence.mkAOF (Some content) false)
    /\ strings.endsLF content = true
    /\ persistence.checkLines (strings.ScanLines content) 0 = None
    /\ exists clock st0 st,
         loading (fst st0) /\ items (fst st0) = ∅
         /\ persistence.loadLines (handler clock) (strings.ScanLines content) 0 st0 = Ok st
         /\ sameItems (items (fst st)) (items s).

End session.

(** ** The log as the specification describes it *)

Module logfile.

Import strings.

(** A line violates the minimum-argument grammar when it has tokens and is a
    SET with fewer than 3 tokens, a DELETE with other than 2 tokens, or
    starts with an unknown command word. *)
Definition violatesGrammar (line : string) : bool :=
  let tokens := Fields line in
  match tokens with
  | [] => false
  | word :: _ =>
      if String.eqb (ToUpper word) "SET" then (length tokens <? 3)%nat
      else if String.eqb (ToUpper word) "DELETE" then negb (length tokens =? 2)%nat
      else true
  end.

(** The commands of a log: its lines, trimmed, without the blank ones. *)
Definition commands (lines : list string) : list string :=
  List.filter (fun line => negb (String.eqb line "")) (map TrimSpace lines).

(** The commands [cmds] applied in order, each by the handler. *)
Fixpoint applyAll {S : Type} (handler : string -> S -> result S)
    (cmds : list string) (st : S) : result S :=
  match cmds with
  | [] => Ok st
  | cmd :: rest =>
      match handler cmd st with
      | Err err => Err err
      | Ok st' => applyAll handler rest st'
      end
  end.

End logfile.

(** ** The earlier draft of package [store]

    The draft keeps the log file in the store itself ([aofPersister]) and
    loads it with its own loop, [loadFromAOF]; items are as in [store.go]. *)

Module draft.

Import strings.

(** [type aofPersister struct]: [file] holds the content of the open file. *)
Record aofPersister : Type := mkPersister {
  file : option string
}.

Record Store : Type := mkStore {
  items : gmap string store.Item;
  persister : option aofPersister;
  isLoading : bool
}.

(** [(ap *aofPersister).write] *)
Definition write (ap : option aofPersister) (command : string) : option aofPersister :=
  match ap with
  | None => ap
  | Some p =>
      match file p with
      | None => ap
      | Some content => Some (mkPersister (Some (content +:+ command +:+ String LF "")))
      end
  end.

(** [recordCommand] *)
Definition recordCommand (parts : list string) (s : Store) : Store :=
  if isLoading s then s
  else
    match persister s with
    | None => s
    | Some _ => mkStore (items s) (write (persister s) (Join parts " ")) (isLoading s)
    end.

(** [Set] *)
Definition Set_ `{time.Pkg} (key : string) (value : store.any) (ttl : Z) (now : Z)
    (s : Store) : Store :=
  let expiration := if 0 <? ttl then Some (time.Add now ttl) else None in
  let s := mkStore (<[key := store.mkItem value expiration]> (items s))
             (persister s) (isLoading s) in
  let parts := ["SET"; key; store.Sprintf_v value] in
  let parts := if 0 <? ttl then parts ++ [time.Duration_String ttl] else parts in
  recordCommand parts s.

(** [Delete]: the command is recorded only if the key had an entry. *)
Definition Delete (key : string) (s : Store) : Store :=
  match items s !! key with
  | Some _ =>
      let s := mkStore (delete key (items s)) (persister s) (isLoading s) in
      recordCommand ["DELETE"; key] s
  | None => s
  end.

(** [Get] *)
Definition Get (key : string) (now : Z) (s : Store) : option store.any * bool :=
  match items s !! key with
  | None => (None, false)
  | Some item =>
      if store.expired now item then (None, false)
      else (Some (store.Value item), true)
  end.

(** [Exists] *)
Definition Exists (key : string) (now : Z) (s : Store) : bool :=
  match items s !! key with
  | None => false
  | Some item => if store.expired now item then false else true
  end.

(** [DeleteExpired] *)
Definition DeleteExpired (now : Z) (s : Store) : Store :=
  mkStore (filter (fun kv => store.expired now (snd kv) = false) (items s))
    (persister s) (isLoading s).

(** The scanning loop of [loadFromAOF]; the state is the store and the
    number of readings of the clock made so far.  Lines that are empty, that
    have no field or that are not a well-formed SET or DELETE are skipped. *)
Fixpoint loadLines `{time.Pkg} (clock : nat -> Z) (lines : list string)
    (st : Store * nat) : Store * nat :=
  match lines with
  | [] => st
  | line :: rest =>
      let '(s, n) := st in
      if String.eqb line "" then loadLines clock rest st
      else
        let parts := Fields line in
        if (length parts =? 0)%nat then loadLines clock rest st
        else
          let command := ToUpper (hd "" parts) in
          if String.eqb command "SET" then
            if (length parts <? 3)%nat then loadLines clock rest st
            else
              let key := nth 1 parts "" in
              let '(value, ttl) :=
                if (3 <? length parts)%nat then
                  match time.ParseDuration (nth (length parts - 1) parts "") with
                  | Some parsedTTL =>
                      (Join (drop 2 (take (length parts - 1) parts)) " ", parsedTTL)
                  | None => (Join (drop 2 parts) " ", 0)
                  end
                else (Join (drop 2 parts) " ", 0) in
              loadLines clock rest
                (Set_ key (store.VString value) ttl (clock n) s, S n)
          else if String.eqb command "DELETE" then
            if negb (length parts =? 2)%nat then loadLines clock rest st
            else loadLines clock rest (Delete (nth 1 parts "") s, n)
          else loadLines clock rest st
  end.

(** [loadFromAOF], on the content of a file whose lines fit the scanner's
    buffer; reading succeeds, so the error returned is nil. *)
Definition loadFromAOF `{time.Pkg} (clock : nat -> Z) (content : string)
    (s : Store) : Store :=
  fst (loadLines clock (ScanLines content) (s, 0%nat)).

(** [New]: [content] is the content of the file [aofFilename] once it has
    been opened with [O_APPEND|O_CREATE]. *)
Definition New `{time.Pkg} (aofFilename content : string) (clock : nat -> Z) : Store :=
  let persister :=
    if negb (String.eqb aofFilename "") then Some (mkPersister (Some content))
    else None in
  let store := mkStore ∅ persister false in
  match persister with
  | Some _ =>
      let store := mkStore (items store) (draft.persister store) true in
      let store := loadFromAOF clock content store in
      mkStore (items store) (draft.persister store) false
  | None => store
  end.

(** The content of the log file of a draft store. *)
Definition logOf (s : Store) : string :=
  match persister s with
  | Some p => default "" (file p)
  | None => ""
  end.

End draft.

(** ** The earlier draft of [handleCommand] *)

Module draftserver.

Import strings.

(** [handleCommand] of the draft server: a SET stores the third token and
    reads a TTL from the fourth, ignoring a parse error and further tokens. *)
Definition handleCommand `{time.Pkg} (cmd : string) (now : Z)
    (s : store.Store) : string * store.Store :=
  let parts := Fields cmd in
  if (length parts =? 0)%nat then ("ERROR: Empty command", s)
  else
    let c := ToUpper (hd "" parts) in
    if String.eqb c "SET" then
      if (length parts <? 3)%nat then ("ERROR: SET requires key and value", s)
      else
        let key := nth 1 parts "" in
        let value := nth 2 parts "" in
        let ttl :=
          if (3 <? length parts)%nat then
            match time.ParseDuration (nth 3 parts "") with
            | Some d => d
            | None => 0
            end
          else 0 in
        ("OK", store.Set_ key (store.VString value) ttl now s)
    else if String.eqb c "GET" then
      if negb (length parts =? 2)%nat then ("ERROR: GET requires key", s)
      else
        let '(value, exists_) := store.Get (nth 1 parts "") now s in
        if negb exists_ then ("NIL", s)
        else (match value with
              | Some v => store.Sprintf_v v
              | None => "<nil>"
              end, s)
    else if String.eqb c "DELETE" then
      if negb (length parts =? 2)%nat then ("ERROR: DELETE requires key", s)
      else ("OK", store.Delete (nth 1 parts "") s)
    else if String.eqb c "EXISTS" then
      if negb (length parts =? 2)%nat then ("ERROR: EXISTS requires key", s)
      else if store.Exists (nth 1 parts "") now s then ("1", s) else ("0", s)
    else ("ERROR: Unknown command", s).

End draftserver.

(** ** [handleConnection] of package [server]

    One connection, served alone: the bytes the peer sends, the bytes the
    server writes back and the store after them.  Writing to the connection
    is assumed to succeed. *)

Module connection.

Import strings.

(** What the successive calls of [reader.ReadString('\n')] return before the
    end of the input: the lines that end in LF, each with its LF.  Bytes
    after the last LF are never returned without an error. *)
Fixpoint requests (input : string) : list string :=
  match input with
  | EmptyString => []
  | String c rest =>
      if isLF c then String c EmptyString :: requests rest
      else match requests rest with
           | l :: ls => String c l :: ls
           | [] => []
           end
  end.

(** The loop of [handleConnection] over the lines read; the [n]-th command
    of the connection is handled when the clock reads [clock n]. *)
Fixpoint serveLines `{time.Pkg} (clock : nat -> Z) (lines : list string) (n : nat)
    (s : store.Store) : string * store.Store :=
  match lines with
  | [] => (EmptyString, s)
  | cmd :: rest =>
      let '(response, s) := server.handleCommand (TrimSpace cmd) (clock n) s in
      let '(out, s) := serveLines clock rest (S n) s in
      (response +:+ String LF "" +:+ out, s)
  end.

(** [handleConnection]: the output written and the store left when the
    input ends. *)
Definition handleConnection `{time.Pkg} (clock : nat -> Z) (input : string)
    (s : store.Store) : string * store.Store :=
  serveLines clock (requests input) 0 s.

End connection.

(** ** Package [client]

    The client talks to a server over one connection.  The connection is
    modelled by its far end: the store of the server, the number of commands
    the server has handled, and the bytes the server has written that the
    client has not read yet. *)

Module client.

Import strings.

Record Client : Type := mkClient {
  peer : store.Store;
  handled : nat;
  reader : string
}.

(** [reader.ReadString('\n')] on the bytes received: the first line with its
    LF, and the bytes that remain.  (The server answers every line it is
    sent with at least one line, so a line is always there to be read.) *)
Fixpoint readString (buffer : string) : string * string :=
  match buffer with
  | EmptyString => (EmptyString, EmptyString)
  | String c rest =>
      if isLF c then (String c EmptyString, rest)
      else let '(line, remaining) := readString rest in (String c line, remaining)
  end.

(** [executeCommand]: the command and a line feed are sent, the server
    handles the lines it receives, and the client reads one line of what has
    been written to it. *)
Definition executeCommand `{time.Pkg} (clock : nat -> Z) (cmd : string)
    (c : Client) : string * Client :=
  let lines := connection.requests (cmd +:+ String LF "") in
  let '(out, s) := connection.serveLines clock lines (handled c) (peer c) in
  let '(response, remaining) := readString (reader c +:+ out) in
  (TrimSpace response, mkClient s (handled c + length lines) remaining).

(** [Set]: [None] is a nil error. *)
Definition Set_ `{time.Pkg} (clock : nat -> Z) (key value : string) (ttl : Z)
    (c : Client) : option string * Client :=
  let cmd := "SET " +:+ key +:+ " " +:+ value in
  let cmd := if 0 <? ttl then cmd +:+ " " +:+ time.Duration_String ttl else cmd in
  let '(response, c) := executeCommand clock cmd c in
  if negb (String.eqb response "OK")
  then (Some ("unexpected response: " +:+ response), c)
  else (None, c).

(** [Get] *)
Definition Get `{time.Pkg} (clock : nat -> Z) (key : string) (c : Client)
    : string * Client :=
  let '(response, c) := executeCommand clock ("GET " +:+ key) c in
  if String.eqb response "NIL" then (EmptyString, c) else (response, c).

(** [Delete] *)
Definition Delete `{time.Pkg} (clock : nat -> Z) (key : string) (c : Client)
    : option string * Client :=
  let '(response, c) := executeCommand clock ("DELETE " +:+ key) c in
  if negb (String.eqb response "OK")
  then (Some ("unexptected response " +:+ response), c)
  else (None, c).

(** [Exists] *)
Definition Exists `{time.Pkg} (clock : nat -> Z) (key : string) (c : Client)
    : bool * Client :=
  let '(response, c) := executeCommand clock ("EXISTS " +:+ key) c in
  (String.eqb response "1", c).

End client.

(** ** Helpers of the statements *)

Module statements.

(** The line number an error of the integrity check carries. *)
Definition lineOfError (err : error) : option nat :=
  match err with
  | ErrInvalidFormatAt n _ => Some n
  | ErrInvalidSetAt n _ => Some n
  | ErrInvalidDeleteAt n _ => Some n
  | ErrUnknownAt n _ => Some n
  | _ => None
  end.

(** The commands [cmds] received one after the other on the wire, each with
    the instant at which it is handled. *)
Fixpoint serve `{time.Pkg} (cmds : list (string * Z)) (s : store.Store) : store.Store :=
  match cmds with
  | [] => s
  | (cmd, now) :: rest => serve rest (snd (server.handleCommand cmd now s))
  end.

(** [v] is the tokens [tokens] separated by single spaces: its fields are
    the tokens, its only white space is the space, and it has the bytes of
    the tokens and one byte between two of them. *)
Definition singleSpaced (tokens : list string) (v : string) : Prop :=
  strings.Fields v = tokens
  /\ strings.plain v = true
  /\ String.length v
     = (list_sum (map String.length tokens) + (length tokens - 1))%nat.

(** A text of [n] bytes [c]. *)
Fixpoint bytes (c : ascii) (n : nat) : string :=
  match n with
  | O => EmptyString
  | S n' => String c (bytes c n')
  end.

(** A wire command in which [handleCommand] reads no duration: anything but
    a SET of more than three tokens whose last token parses as a duration
    (positive or not). *)
Definition noTrailingDuration `{time.Pkg} (cmd : string) : bool :=
  let parts := strings.Fields cmd in
  negb (String.eqb (strings.ToUpper (hd "" parts)) "SET")
  || (length parts <=? 3)%nat
  || match time.ParseDuration (nth (length parts - 1) parts "") with
     | Some _ => false
     | None => true
     end.

End statements.

(** ** Properties *)

Section TimeFacts.

Import time.

Lemma leadingInt_length s : forall x v s1,
  leadingInt x s = Some (v, s1) -> (String.length s1 <= String.length s)%nat.
Proof.
  induction s as [|c s IH]; intros x v s1; simpl.
  - intros E. inversion E. simpl. lia.
  - destruct (isDigit c).
    + destruct (2 ^ 63 / 10 <? x); [discriminate|].
      destruct (2 ^ 63 <? x * 10 + digitOf c); [discriminate|].
      intros E. apply IH in E. lia.
    + intros E. inversion E. simpl. lia.
Qed.

Lemma leadingFraction_length s : forall x scale overflow,
  (String.length (snd (leadingFraction x scale overflow s)) <= String.length s)%nat.
Proof.
  induction s as [|c s IH]; intros x scale overflow; simpl; [lia|].
  destruct (isDigit c); [|simpl; lia].
  destruct overflow; [specialize (IH x scale true); lia|].
  destruct ((2 ^ 63 - 1) / 10 <? x); [specialize (IH x scale true); lia|].
  destruct (2 ^ 63 <? x * 10 + digitOf c).
  - specialize (IH x scale true). lia.
  - specialize (IH (x * 10 + digitOf c) (scale * 10) false). lia.
Qed.

Lemma unitSpan_length s : forall u rest,
  unitSpan s = (u, rest) ->
  String.length s = (String.length u + String.length rest)%nat.
Proof.
  induction s as [|c s IH]; intros u rest; simpl.
  - intros E. inversion E. reflexivity.
  - destruct (isDot c || isDigit c).
    + intros E. inversion E. reflexivity.
    + destruct (unitSpan s) as [u' rest'] eqn:U. intros E. inversion E; subst.
      simpl. rewrite (IH _ _ eq_refl). reflexivity.
Qed.

(** The result of the parsing loop does not depend on the fuel, once there is
    more of it than bytes to parse. *)
Lemma parseLoop_fuel fuel : forall fuel' d s,
  (String.length s < fuel)%nat -> (String.length s < fuel')%nat ->
  parseLoop fuel d s = parseLoop fuel' d s.
Proof.
  induction fuel as [|fuel IH]; intros fuel' d s Hf Hf'; [lia|].
  destruct fuel' as [|fuel']; [lia|]. destruct s as [|c0 s]; [reflexivity|].
  cbn [parseLoop].
  destruct (negb (isDot c0 || isDigit c0)); [reflexivity|].
  destruct (leadingInt 0 (String c0 s)) as [[v s1]|] eqn:LI; [|reflexivity].
  apply leadingInt_length in LI.
  assert (Hrest : forall f scale s2 post,
            (String.length s2 <= String.length s1)%nat ->
            (let '(f, scale, s2, post) := (f, scale, s2, post) in
             if negb (negb (String.length (String c0 s) =? String.length s1)%nat)
                && negb post then None
             else
               let '(u, s3) := unitSpan s2 in
               if String.eqb u "" then None
               else
                 match unitMap u with
                 | None => None
                 | Some unit =>
                     if 2 ^ 63 / unit <? v then None
                     else
                       let v := v * unit in
                       let v := if 0 <? f then v + f * unit / scale else v in
                       if 2 ^ 63 <? v then None
                       else
                         let d := (d + v) mod 2 ^ 64 in
                         if 2 ^ 63 <? d then None else parseLoop fuel d s3
                 end)
            = (let '(f, scale, s2, post) := (f, scale, s2, post) in
               if negb (negb (String.length (String c0 s) =? String.length s1)%nat)
                  && negb post then None
               else
                 let '(u, s3) := unitSpan s2 in
                 if String.eqb u "" then None
                 else
                   match unitMap u with
                   | None => None
                   | Some unit =>
                       if 2 ^ 63 / unit <? v then None
                       else
                         let v := v * unit in
                         let v := if 0 <? f then v + f * unit / scale else v in
                         if 2 ^ 63 <? v then None
                         else
                           let d := (d + v) mod 2 ^ 64 in
                           if 2 ^ 63 <? d then None else parseLoop fuel' d s3
                   end)).
  { intros f scale s2 post Hs2. cbv beta iota zeta.
    destruct (negb (negb (String.length (String c0 s) =? String.length s1)%nat)
              && negb post); [reflexivity|].
    destruct (unitSpan s2) as [u s3] eqn:U. apply unitSpan_length in U.
    destruct (String.eqb_spec u ""); [reflexivity|].
    destruct (unitMap u) as [unit|]; [|reflexivity].
    destruct (2 ^ 63 / unit <? v); [reflexivity|].
    destruct (2 ^ 63 <? _); [reflexivity|].
    destruct (2 ^ 63 <? _); [reflexivity|].
    assert (0 < String.length u)%nat by (destruct u; [congruence|simpl; lia]).
    simpl in Hf, Hf', LI. apply IH; lia. }
  destruct s1 as [|c1 s1']; [apply Hrest; lia|].
  destruct (isDot c1); [|apply Hrest; lia].
  pose proof (leadingFraction_length s1' 0 1 false) as LF.
  destruct (leadingFraction 0 1 false s1') as [[f scale] s2]. simpl in LF.
  apply Hrest. simpl. lia.
Qed.

End TimeFacts.

Section StringFacts.

Import strings.

Lemma sapp_cons c a b : String c a +:+ b = String c (a +:+ b).
Proof. reflexivity. Qed.

Lemma sapp_nil_l a : "" +:+ a = a.
Proof. reflexivity. Qed.

Lemma sapp_nil_r a : a +:+ "" = a.
Proof. induction a as [|c a IH]; [reflexivity|]. rewrite sapp_cons, IH. reflexivity. Qed.

Lemma sapp_assoc a b c : (a +:+ b) +:+ c = a +:+ (b +:+ c).
Proof.
  induction a as [|x a IH]; [reflexivity|]. rewrite !sapp_cons, IH. reflexivity.
Qed.

Lemma isLF_isSpace c : isLF c = true -> isSpace c = true.
Proof.
  unfold isLF, isSpace. intros E. apply N.eqb_eq in E. rewrite E. reflexivity.
Qed.

Lemma isSpace_space : isSpace " " = true.
Proof. reflexivity. Qed.

(** *** Fields *)

Lemma Fields_cons_space c s : isSpace c = true -> Fields (String c s) = Fields s.
Proof. intros E. simpl. rewrite E. reflexivity. Qed.

Lemma Fields_nonempty c s : isSpace c = false -> Fields (String c s) <> [].
Proof.
  intros E. simpl. rewrite E.
  destruct (startsField s); [destruct (Fields s)|]; discriminate.
Qed.

Lemma startsField_Fields s : startsField s = true -> Fields s <> [].
Proof.
  destruct s as [|c s]; simpl; [discriminate|]. intros E.
  apply Fields_nonempty. destruct (isSpace c); [discriminate|reflexivity].
Qed.

Lemma isField_cons c t :
  isField (String c t) = true -> isSpace c = false /\ noSpace t = true.
Proof.
  simpl. intros E. apply andb_true_iff in E as [E1 E2].
  split; [destruct (isSpace c); [discriminate|reflexivity]|exact E2].
Qed.

Lemma Fields_field_then_space t s :
  isField t = true -> Fields (t +:+ String " " s) = t :: Fields s.
Proof.
  induction t as [|c t IH]; [discriminate|]. intros Ht.
  apply isField_cons in Ht as [Hc Ht].
  rewrite sapp_cons. simpl Fields at 1. rewrite Hc.
  destruct t as [|d t].
  - rewrite sapp_nil_l. simpl. reflexivity.
  - assert (Hd : isField (String d t) = true) by exact Ht.
    rewrite (IH Hd). rewrite sapp_cons. simpl startsField.
    apply isField_cons in Hd as [Hd _]. rewrite Hd. reflexivity.
Qed.

Lemma Fields_field t : isField t = true -> Fields t = [t].
Proof.
  induction t as [|c t IH]; [discriminate|]. intros Ht.
  apply isField_cons in Ht as [Hc Ht].
  simpl Fields. rewrite Hc. destruct t as [|d t]; [reflexivity|].
  assert (Hd : isField (String d t) = true) by exact Ht.
  rewrite (IH Hd). simpl startsField.
  apply isField_cons in Hd as [Hd _]. rewrite Hd. reflexivity.
Qed.

Lemma Join_cons2 x y rest sep :
  Join (x :: y :: rest) sep = x +:+ sep +:+ Join (y :: rest) sep.
Proof. reflexivity. Qed.

Lemma Fields_Join fs :
  Forall (fun t => isField t = true) fs -> Fields (Join fs " ") = fs.
Proof.
  induction fs as [|t fs IH]; intros Hfs; [reflexivity|].
  inversion Hfs as [|? ? Ht Hfs']; subst.
  destruct fs as [|u fs]; [apply Fields_field; exact Ht|].
  rewrite Join_cons2. change (" " +:+ Join (u :: fs) " ") with (String " " (Join (u :: fs) " ")).
  rewrite (Fields_field_then_space _ _ Ht), (IH Hfs'). reflexivity.
Qed.

Lemma Fields_are_fields s : Forall (fun t => isField t = true) (Fields s).
Proof.
  induction s as [|c s IH]; simpl; [constructor|].
  destruct (isSpace c) eqn:Hc; [exact IH|].
  destruct (startsField s) eqn:Hs.
  - destruct (Fields s) as [|t ts]; [repeat constructor; simpl; rewrite Hc; reflexivity|].
    inversion IH as [|? ? Ht Hts]; subst. constructor; [|exact Hts].
    simpl. rewrite Hc. simpl. destruct t; [discriminate|exact Ht].
  - constructor; [simpl; rewrite Hc; reflexivity|exact IH].
Qed.

Lemma Fields_trimLeft s : Fields (trimLeft s) = Fields s.
Proof.
  induction s as [|c s IH]; [reflexivity|]. simpl trimLeft.
  destruct (isSpace c) eqn:Hc; [|reflexivity].
  rewrite IH, (Fields_cons_space _ _ Hc). reflexivity.
Qed.

Lemma trimRight_head s d r : trimRight s = String d r -> exists s', s = String d s'.
Proof.
  destruct s as [|c s]; simpl; [discriminate|].
  destruct (trimRight s); [destruct (isSpace c)|]; intros E; inversion E; eauto.
Qed.

Lemma Fields_cons_eq c a b :
  startsField a = startsField b -> Fields a = Fields b ->
  Fields (String c a) = Fields (String c b).
Proof. intros E1 E2. simpl. rewrite E1, E2. reflexivity. Qed.

Lemma Fields_trimRight s : Fields (trimRight s) = Fields s.
Proof.
  induction s as [|c s IH]; [reflexivity|]. simpl trimRight.
  destruct (trimRight s) as [|d r] eqn:Hr.
  - simpl in IH. assert (Hs : startsField s = false).
    { destruct (startsField s) eqn:E; [|reflexivity].
      apply startsField_Fields in E. congruence. }
    destruct (isSpace c) eqn:Hc.
    + rewrite (Fields_cons_space _ _ Hc), <- IH. reflexivity.
    + simpl. rewrite Hc, Hs, <- IH. reflexivity.
  - destruct (trimRight_head _ _ _ Hr) as [s' ->].
    apply Fields_cons_eq; [reflexivity|exact IH].
Qed.

Lemma Fields_TrimSpace s : Fields (TrimSpace s) = Fields s.
Proof. unfold TrimSpace. rewrite Fields_trimRight. apply Fields_trimLeft. Qed.

Lemma Fields_nil_trimLeft s : Fields s = [] -> trimLeft s = "".
Proof.
  induction s as [|c s IH]; [reflexivity|]. intros E. simpl.
  destruct (isSpace c) eqn:Hc.
  - apply IH. rewrite <- E. symmetry. apply Fields_cons_space. exact Hc.
  - exfalso. exact (Fields_nonempty _ _ Hc E).
Qed.

Lemma TrimSpace_empty_iff s : TrimSpace s = "" <-> Fields s = [].
Proof.
  split; intros E.
  - rewrite <- Fields_TrimSpace, E. reflexivity.
  - unfold TrimSpace. rewrite (Fields_nil_trimLeft _ E). reflexivity.
Qed.

Lemma trimRight_field t : isField t = true -> trimRight t = t.
Proof.
  induction t as [|c t IH]; [discriminate|]. intros Ht.
  apply isField_cons in Ht as [Hc Ht]. simpl. destruct t as [|d t].
  - simpl. rewrite Hc. reflexivity.
  - rewrite (IH Ht). reflexivity.
Qed.

Lemma trimRight_app_field a t : isField t = true -> trimRight (a +:+ t) = a +:+ t.
Proof.
  intros Ht. induction a as [|c a IH].
  - rewrite sapp_nil_l. apply trimRight_field. exact Ht.
  - rewrite sapp_cons. simpl. rewrite IH.
    destruct (a +:+ t) eqn:E; [|reflexivity].
    destruct a; [|discriminate]. rewrite sapp_nil_l in E. subst. discriminate.
Qed.

Lemma Join_last fs sep :
  fs <> [] -> exists a, Join fs sep = a +:+ List.last fs "".
Proof.
  induction fs as [|t fs IH]; [congruence|]. intros _.
  destruct fs as [|u fs]; [exists ""; reflexivity|].
  destruct IH as [a Ha]; [discriminate|].
  exists (t +:+ sep +:+ a). rewrite Join_cons2, Ha, !sapp_assoc. reflexivity.
Qed.

Lemma trimLeft_Join fs :
  Forall (fun t => isField t = true) fs -> trimLeft (Join fs " ") = Join fs " ".
Proof.
  intros Hfs. destruct fs as [|t fs]; [reflexivity|].
  inversion Hfs as [|? ? Ht _]; subst.
  destruct t as [|c t]; [discriminate|]. apply isField_cons in Ht as [Hc _].
  destruct fs; simpl; rewrite ?sapp_cons; simpl; rewrite Hc; reflexivity.
Qed.

Lemma TrimSpace_Join fs :
  Forall (fun t => isField t = true) fs -> TrimSpace (Join fs " ") = Join fs " ".
Proof.
  intros Hfs. unfold TrimSpace. rewrite (trimLeft_Join _ Hfs).
  destruct fs as [|t fs]; [reflexivity|].
  destruct (Join_last (t :: fs) " ") as [a Ha]; [discriminate|].
  rewrite Ha. apply trimRight_app_field.
  assert (Hl : forall l : list string, l <> [] ->
            Forall (fun t => isField t = true) l -> isField (List.last l "") = true).
  { clear. induction l as [|x l IH]; [congruence|]. intros _ Hl.
    inversion Hl; subst. destruct l; [assumption|]. apply IH; [discriminate|assumption]. }
  apply Hl; [discriminate|exact Hfs].
Qed.

(** *** Lines *)

Lemma plain_app a b : plain (a +:+ b) = plain a && plain b.
Proof.
  induction a as [|c a IH]; [reflexivity|]. rewrite sapp_cons. simpl.
  rewrite IH, andb_assoc. reflexivity.
Qed.

Lemma noSpace_plain s : noSpace s = true -> plain s = true.
Proof.
  induction s as [|c s IH]; [reflexivity|]. simpl. intros E.
  apply andb_true_iff in E as [E1 E2]. rewrite E1, (IH E2). reflexivity.
Qed.

Lemma isField_plain t : isField t = true -> plain t = true.
Proof. destruct t; [discriminate|]. apply noSpace_plain. Qed.

Lemma plain_Join fs :
  Forall (fun t => isField t = true) fs -> plain (Join fs " ") = true.
Proof.
  induction fs as [|t fs IH]; intros Hfs; [reflexivity|].
  inversion Hfs as [|? ? Ht Hfs']; subst.
  destruct fs as [|u fs]; [apply isField_plain; exact Ht|].
  rewrite Join_cons2, !plain_app, (isField_plain _ Ht), (IH Hfs'). reflexivity.
Qed.

Lemma length_sapp a b :
  String.length (a +:+ b) = (String.length a + String.length b)%nat.
Proof.
  induction a as [|c a IH]; [reflexivity|]. rewrite sapp_cons. simpl. rewrite IH.
  reflexivity.
Qed.

Lemma length_Join fs :
  String.length (Join fs " ")
  = (list_sum (map String.length fs) + (length fs - 1))%nat.
Proof.
  induction fs as [|t fs IH]; [reflexivity|].
  destruct fs as [|u fs]; [simpl; lia|].
  rewrite Join_cons2, !length_sapp, IH. simpl. lia.
Qed.

Lemma singleSpaced_Join fs :
  Forall (fun t => isField t = true) fs ->
  statements.singleSpaced fs (Join fs " ").
Proof.
  intros Hf. split; [exact (Fields_Join _ Hf)|].
  split; [exact (plain_Join _ Hf)|apply length_Join].
Qed.

Lemma plain_not_ctl c :
  (negb (isSpace c) || (N_of_ascii c =? 32)%N) = true ->
  isLF c = false /\ (N_of_ascii c =? 13)%N = false.
Proof.
  unfold isSpace, isLF. generalize (N_of_ascii c). intros n E.
  destruct (N.eqb_spec n 10) as [->|]; [vm_compute in E; discriminate|].
  destruct (N.eqb_spec n 13) as [->|]; [vm_compute in E; discriminate|].
  split; reflexivity.
Qed.

Lemma plain_noLF s : plain s = true -> noLF s = true.
Proof.
  induction s as [|c s IH]; [reflexivity|]. simpl. intros E.
  apply andb_true_iff in E as [E1 E2].
  destruct (plain_not_ctl _ E1) as [-> _]. simpl. auto.
Qed.

Lemma plain_dropCR s : plain s = true -> dropCR s = s.
Proof.
  induction s as [|c s IH]; [reflexivity|]. simpl. intros E.
  apply andb_true_iff in E as [E1 E2].
  destruct (plain_not_ctl _ E1) as [_ Hc]. rewrite Hc.
  destruct s; [reflexivity|]. rewrite (IH E2). reflexivity.
Qed.

Lemma rawLines_line l : noLF l = true -> rawLines (l +:+ String LF "") = [l].
Proof.
  induction l as [|c l IH]; [reflexivity|]. simpl noLF. intros E.
  apply andb_true_iff in E as [E1 E2]. rewrite sapp_cons. simpl.
  destruct (isLF c); [discriminate|]. rewrite (IH E2). reflexivity.
Qed.

Lemma rawLines_cons c s :
  rawLines (String c s)
  = if isLF c then "" :: rawLines s
    else match rawLines s with
         | l :: ls => String c l :: ls
         | [] => [String c ""]
         end.
Proof. reflexivity. Qed.

Lemma rawLines_nonempty c s : rawLines (String c s) <> [].
Proof.
  simpl. destruct (isLF c); [discriminate|]. destruct (rawLines s); discriminate.
Qed.

Lemma rawLines_app a b :
  endsLF a = true -> rawLines (a +:+ b) = rawLines a ++ rawLines b.
Proof.
  induction a as [|c a IH]; [reflexivity|]. intros E. rewrite sapp_cons.
  destruct a as [|d a].
  - simpl in E. rewrite sapp_nil_l. simpl. rewrite E. reflexivity.
  - assert (E' : endsLF (String d a) = true) by exact E.
    specialize (IH E').
    rewrite (rawLines_cons c (String d a +:+ b)), (rawLines_cons c (String d a)).
    destruct (isLF c).
    + rewrite IH. reflexivity.
    + rewrite IH. destruct (rawLines (String d a)) eqn:R; [|reflexivity].
      exfalso. exact (rawLines_nonempty _ _ R).
Qed.

Lemma endsLF_app_line a l : endsLF (a +:+ l +:+ String LF "") = true.
Proof.
  rewrite <- sapp_assoc. generalize (a +:+ l). clear. intros s.
  induction s as [|c s IH]; [reflexivity|]. rewrite sapp_cons.
  simpl. destruct (s +:+ String LF "") eqn:E; [|exact IH].
  destruct s; discriminate.
Qed.

Lemma ScanLines_app_line a l :
  endsLF a = true -> plain l = true ->
  ScanLines (a +:+ l +:+ String LF "") = ScanLines a ++ [l].
Proof.
  intros Ha Hl. unfold ScanLines.
  rewrite (rawLines_app _ _ Ha), (rawLines_line _ (plain_noLF _ Hl)), map_app.
  simpl. rewrite (plain_dropCR _ Hl). reflexivity.
Qed.

Lemma scanTokens_fits raw :
  forallb (fun l => negb (tooLong l)) raw = true ->
  scanTokens raw = (map dropCR raw, false).
Proof.
  induction raw as [|l rest IH]; [reflexivity|]. simpl. intros E.
  apply andb_true_iff in E as [E1 E2]. apply negb_true_iff in E1.
  rewrite E1, (IH E2). reflexivity.
Qed.

Lemma scanTokens_not_fits raw :
  forallb (fun l => negb (tooLong l)) raw = false -> snd (scanTokens raw) = true.
Proof.
  induction raw as [|l rest IH]; [discriminate|]. simpl. intros E.
  destruct (tooLong l); [reflexivity|]. simpl in E. specialize (IH E).
  destruct (scanTokens rest). exact IH.
Qed.

Lemma scanTokens_long l rest : tooLong l = true -> scanTokens (l :: rest) = ([], true).
Proof. intros E. simpl. rewrite E. reflexivity. Qed.

(** On a text whose lines fit, the scanner yields all of them, without error. *)
Lemma Scan_fits s : fitsScanner s = true -> Scan s = (ScanLines s, false).
Proof. apply scanTokens_fits. Qed.

(** On any other text it stops with [ErrTooLong]. *)
Lemma Scan_not_fits s : fitsScanner s = false -> snd (Scan s) = true.
Proof. apply scanTokens_not_fits. Qed.

Lemma Scan_no_error s : snd (Scan s) = false -> fitsScanner s = true.
Proof.
  intros E. destruct (fitsScanner s) eqn:F; [reflexivity|].
  rewrite (Scan_not_fits _ F) in E. discriminate.
Qed.

Lemma tooLong_app a b : tooLong b = true -> tooLong (a +:+ b) = true.
Proof.
  unfold tooLong. rewrite length_sapp. intros E.
  apply N.leb_le in E. apply N.leb_le. lia.
Qed.

Lemma length_bytes c n : String.length (statements.bytes c n) = n.
Proof. induction n as [|n IH]; [reflexivity|]. simpl. rewrite IH. reflexivity. Qed.

Lemma noSpace_bytes c n : isSpace c = false -> noSpace (statements.bytes c n) = true.
Proof.
  intros Hc. induction n as [|n IH]; [reflexivity|]. simpl. rewrite Hc, IH. reflexivity.
Qed.

Lemma isField_bytes c n :
  isSpace c = false -> n <> 0%nat -> isField (statements.bytes c n) = true.
Proof.
  intros Hc Hn. destruct n as [|n]; [congruence|].
  exact (noSpace_bytes c (S n) Hc).
Qed.

Lemma isASCII_app a b : isASCII (a +:+ b) = isASCII a && isASCII b.
Proof.
  induction a as [|c a IH]; [reflexivity|]. rewrite sapp_cons. simpl. rewrite IH.
  apply andb_assoc.
Qed.

Lemma fitsScanner_app_line a l :
  endsLF a = true -> noLF l = true ->
  fitsScanner (a +:+ l +:+ String LF "") = fitsScanner a && negb (tooLong l).
Proof.
  intros Ha Hl. unfold fitsScanner.
  rewrite (rawLines_app _ _ Ha), (rawLines_line _ Hl), forallb_app. simpl.
  rewrite andb_true_r. reflexivity.
Qed.

End StringFacts.

Section LogFacts.

Context `{time.Pkg}.

Import strings persistence logfile.

Lemma checkLines_cons_ok text rest n :
  violatesGrammar text = false ->
  checkLines (text :: rest) n = checkLines rest (S n).
Proof.
  intros Hv. simpl checkLines. destruct (String.eqb_spec (TrimSpace text) "") as [E|E];
    [reflexivity|].
  rewrite Fields_TrimSpace. unfold violatesGrammar in Hv.
  destruct (Fields text) as [|w ws] eqn:F.
  { exfalso. apply E. apply TrimSpace_empty_iff. exact F. }
  simpl hd. destruct ws as [|x ws]; simpl in *;
    destruct (String.eqb (ToUpper w) "SET"); try discriminate;
    destruct (String.eqb (ToUpper w) "DELETE"); try discriminate;
    try rewrite Hv; reflexivity.
Qed.

Lemma checkLines_cons_bad text rest n :
  violatesGrammar text = true ->
  exists err, checkLines (text :: rest) n = Some err.
Proof.
  intros Hv. simpl checkLines. unfold violatesGrammar in Hv.
  destruct (String.eqb_spec (TrimSpace text) "") as [E|E].
  { apply TrimSpace_empty_iff in E. rewrite E in Hv. discriminate. }
  rewrite Fields_TrimSpace.
  destruct (Fields text) as [|w ws] eqn:F; [discriminate|].
  simpl hd. destruct ws as [|x ws]; simpl in *; [eauto|].
  destruct (String.eqb (ToUpper w) "SET"); [rewrite Hv; eauto|].
  destruct (String.eqb (ToUpper w) "DELETE"); [rewrite Hv; eauto|eauto].
Qed.

Lemma checkLines_ok lines : forall n,
  Forall (fun l => violatesGrammar l = false) lines -> checkLines lines n = None.
Proof.
  induction lines as [|text rest IH]; intros n Hl; [reflexivity|].
  inversion Hl; subst. rewrite checkLines_cons_ok by assumption. apply IH. assumption.
Qed.

Lemma checkLines_bad lines : forall n,
  Exists (fun l => violatesGrammar l = true) lines ->
  exists err, checkLines lines n = Some err.
Proof.
  induction lines as [|text rest IH]; intros n Hl; [inversion Hl|].
  destruct (violatesGrammar text) eqn:Hv.
  - apply checkLines_cons_bad. exact Hv.
  - rewrite checkLines_cons_ok by exact Hv. apply IH.
    inversion Hl; subst; [congruence|assumption].
Qed.

Lemma checkLines_None_inv lines : forall n,
  checkLines lines n = None -> Forall (fun l => violatesGrammar l = false) lines.
Proof.
  induction lines as [|text rest IH]; intros n E; [constructor|].
  destruct (violatesGrammar text) eqn:Hv.
  - destruct (checkLines_cons_bad text rest n Hv) as [err E']. congruence.
  - constructor; [exact Hv|]. rewrite checkLines_cons_ok in E by exact Hv.
    exact (IH _ E).
Qed.

Lemma checkLines_app l1 l2 : forall n,
  checkLines l1 n = None -> checkLines (l1 ++ l2) n = checkLines l2 (n + length l1).
Proof.
  induction l1 as [|text rest IH]; intros n E.
  - simpl. rewrite Nat.add_0_r. reflexivity.
  - pose proof (checkLines_None_inv _ _ E) as Hl. inversion Hl; subst.
    rewrite <- app_comm_cons. rewrite checkLines_cons_ok by assumption.
    rewrite checkLines_cons_ok in E by assumption.
    rewrite (IH _ E). f_equal. simpl. lia.
Qed.

Lemma violatesGrammar_TrimSpace text :
  violatesGrammar (TrimSpace text) = violatesGrammar text.
Proof. unfold violatesGrammar. rewrite Fields_TrimSpace. reflexivity. Qed.

Lemma handler_ok clock command st :
  violatesGrammar command = false ->
  exists st', store.handler clock command st = Ok st'.
Proof.
  unfold violatesGrammar, store.handler. intros Hv. destruct st as [s n].
  destruct (Fields command) as [|w ws]; [simpl; eauto|].
  simpl hd. simpl (length (w :: ws) =? 0)%nat.
  destruct (String.eqb (ToUpper w) "SET").
  - rewrite Hv. destruct (3 <? length (w :: ws))%nat; [|eauto].
    destruct (time.ParseDuration _); eauto.
  - destruct (String.eqb (ToUpper w) "DELETE"); [|discriminate].
    rewrite Hv. eauto.
Qed.

Lemma loadLines_applyAll clock lines : forall n st,
  Forall (fun l => violatesGrammar l = false) lines ->
  exists st',
    applyAll (store.handler clock) (commands lines) st = Ok st'
    /\ loadLines (store.handler clock) lines n st = Ok st'.
Proof.
  induction lines as [|text rest IH]; intros n st Hl; [simpl; eauto|].
  inversion Hl as [|? ? Hv Hrest]; subst.
  unfold commands. simpl map. simpl List.filter. simpl loadLines.
  destruct (String.eqb_spec (TrimSpace text) "") as [E|E]; simpl negb; cbv iota.
  - apply IH. exact Hrest.
  - rewrite <- violatesGrammar_TrimSpace in Hv.
    destruct (handler_ok clock _ st Hv) as [st1 E1].
    simpl applyAll. rewrite E1. apply IH. exact Hrest.
Qed.

Lemma checkAOFIntegrity_fits content :
  fitsScanner content = true ->
  checkAOFIntegrity content = checkLines (ScanLines content) 0.
Proof.
  intros F. unfold checkAOFIntegrity. rewrite (Scan_fits _ F).
  destruct (checkLines _ _); reflexivity.
Qed.

Lemma checkAOFIntegrity_too_long content :
  fitsScanner content = false -> exists err, checkAOFIntegrity content = Some err.
Proof.
  intros F. unfold checkAOFIntegrity. pose proof (Scan_not_fits _ F) as E.
  destruct (Scan content) as [lines e]. simpl in E. subst e.
  destruct (checkLines lines 0); eauto.
Qed.

Lemma checkAOFIntegrity_None content :
  checkAOFIntegrity content = None ->
  fitsScanner content = true /\ checkLines (ScanLines content) 0 = None.
Proof.
  intros E. destruct (fitsScanner content) eqn:F.
  - split; [reflexivity|]. rewrite <- checkAOFIntegrity_fits; assumption.
  - destruct (checkAOFIntegrity_too_long _ F) as [err E']. congruence.
Qed.

Lemma checkAOFIntegrity_bad content :
  Exists (fun l => violatesGrammar l = true) (ScanLines content) ->
  exists err, checkAOFIntegrity content = Some err.
Proof.
  intros Hl. destruct (fitsScanner content) eqn:F.
  - rewrite checkAOFIntegrity_fits by exact F. apply checkLines_bad. exact Hl.
  - apply checkAOFIntegrity_too_long. exact F.
Qed.

Lemma Load_fits {St : Type} setL filename content (h : string -> St -> result St) st :
  fitsScanner content = true ->
  Load setL filename content h st
  = if String.eqb filename "" then Ok st
    else match checkLines (ScanLines content) 0 with
         | Some err => Err (ErrIntegrityBeforeLoad err)
         | None =>
             match loadLines h (ScanLines content) 0 (setL true st) with
             | Err e => Err e
             | Ok st' => Ok (setL false st')
             end
         end.
Proof.
  intros F. unfold Load. rewrite (checkAOFIntegrity_fits _ F), (Scan_fits _ F).
  reflexivity.
Qed.

(** C3 (amended). On a log of ASCII bytes, [Load] skips blank lines only.
    When no line of the log violates the grammar and every line is shorter
    than 64 KiB, every command is applied, in the order of the log, and
    [Load] returns success; when some line violates the grammar, [Load]
    returns the error of the integrity check and applies nothing. *)
Theorem Load_applies_all_or_rejects filename content clock st :
  filename <> "" ->
  isASCII content = true ->
  (fitsScanner content = true ->
   Forall (fun l => violatesGrammar l = false) (ScanLines content) ->
   exists st',
     applyAll (store.handler clock) (commands (ScanLines content))
       (store.setLoading true st) = Ok st'
     /\ Load store.setLoading filename content (store.handler clock) st
        = Ok (store.setLoading false st'))
  /\ (Exists (fun l => violatesGrammar l = true) (ScanLines content) ->
      exists err,
        Load store.setLoading filename content (store.handler clock) st
        = Err (ErrIntegrityBeforeLoad err)).
Proof.
  intros Hname _. apply String.eqb_neq in Hname. split; [intros F Hl|intros Hl].
  - rewrite (Load_fits _ _ _ _ _ F), Hname, (checkLines_ok _ _ Hl).
    destruct (loadLines_applyAll clock _ 0%nat (store.setLoading true st) Hl)
      as [st' [E1 E2]].
    exists st'. rewrite E2. split; [exact E1|reflexivity].
  - unfold Load. rewrite Hname.
    destruct (checkAOFIntegrity_bad _ Hl) as [err E]. exists err. rewrite E. reflexivity.
Qed.

(** C4. When some line of the log file violates the minimum-argument grammar,
    [store.New] (with a file name) returns an error and no store.  The error
    is the one [persistence.New] returns from its integrity check, which
    [store.New] wraps and returns before it calls [Load]: no command of the
    log has been replayed.  The log is one of ASCII bytes, where
    [violatesGrammar] reads a line as the code does. *)
Theorem New_rejects_grammar_violation aofFilename content clock :
  aofFilename <> "" ->
  isASCII content = true ->
  Exists (fun l => violatesGrammar l = true) (ScanLines content) ->
  exists err,
    persistence.New aofFilename content = Err (ErrIntegrity err)
    /\ store.New aofFilename content clock = Err (ErrInitAOF (ErrIntegrity err)).
Proof.
  intros Hname _ Hl. apply String.eqb_neq in Hname.
  destruct (checkAOFIntegrity_bad _ Hl) as [err E]. exists err.
  assert (E' : persistence.New aofFilename content = Err (ErrIntegrity err)).
  { unfold persistence.New. rewrite Hname, E. reflexivity. }
  split; [exact E'|]. unfold store.New. rewrite Hname, E'. reflexivity.
Qed.

End LogFacts.

Section StoreFacts.

Context `{time.Pkg}.

Import store.

Lemma items_recordCommand parts s :
  items (recordCommand parts s) = items s.
Proof. unfold recordCommand. destruct (aof s); reflexivity. Qed.

Lemma items_Set key value ttl now s :
  items (Set_ key value ttl now s)
  = <[key := mkItem value (if 0 <? ttl then Some (now + ttl) else None)]> (items s).
Proof. unfold Set_. rewrite items_recordCommand. reflexivity. Qed.

Lemma items_Delete key s : items (Delete key s) = delete key (items s).
Proof. unfold Delete. rewrite items_recordCommand. reflexivity. Qed.

Lemma items_DeleteExpired now s key :
  items (DeleteExpired now s) !! key
  = match items s !! key with
    | Some item => if expired now item then None else Some item
    | None => None
    end.
Proof.
  unfold DeleteExpired. simpl. rewrite map_lookup_filter.
  destruct (items s !! key) as [item|]; simpl; [|reflexivity].
  destruct (expired now item) eqn:E.
  - rewrite option_guard_False; [reflexivity|]. simpl. congruence.
  - rewrite option_guard_True; [reflexivity|]. simpl. congruence.
Qed.

Lemma Get_lookup key now s item :
  items s !! key = Some item ->
  Get key now s = if expired now item then (None, false) else (Some (Value item), true).
Proof. intros E. unfold Get. rewrite E. reflexivity. Qed.

(** C5 (amended). After [Set(k, v, ttl)] with [ttl > 0] made at [now], [Get(k)]
    returns [(v, true)] at every instant up to and including [now + ttl], and
    [(nil, false)] at every instant strictly after it; no sweep is involved,
    the state read is the one [Set] left. *)
Theorem Get_after_Set_with_ttl key value ttl now s t :
  0 < ttl ->
  (t <= now + ttl -> Get key t (Set_ key value ttl now s) = (Some value, true))
  /\ (now + ttl < t -> Get key t (Set_ key value ttl now s) = (None, false)).
Proof.
  intros Httl.
  assert (E : items (Set_ key value ttl now s) !! key
              = Some (mkItem value (Some (now + ttl)))).
  { rewrite items_Set. destruct (Z.ltb_spec 0 ttl); [|lia].
    apply lookup_insert_eq. }
  split; intros Ht; rewrite (Get_lookup _ _ _ _ E); unfold expired, time.After; simpl.
  - destruct (Z.ltb_spec (now + ttl) t); [lia|reflexivity].
  - destruct (Z.ltb_spec (now + ttl) t); [reflexivity|lia].
Qed.

(** C6 (amended). [DeleteExpired] run at [t] removes exactly the entries that
    have an expiration strictly before [t]; every other entry (no expiration,
    or expiration at or after [t]) is left as it was, and the log is not
    touched. *)
Theorem DeleteExpired_removes_strictly_older t s key :
  items (DeleteExpired t s) !! key
  = match items s !! key with
    | Some item =>
        match Expiration item with
        | Some exp => if exp <? t then None else Some item
        | None => Some item
        end
    | None => None
    end
  /\ aof (DeleteExpired t s) = aof s.
Proof.
  split; [|reflexivity].
  rewrite items_DeleteExpired. destruct (items s !! key) as [item|]; [|reflexivity].
  unfold expired, time.After. destruct (Expiration item); reflexivity.
Qed.

Lemma run_keeps_permanent key value cs : forall s,
  Forall (fun c => session.writes key (fst c) = false) cs ->
  items s !! key = Some (mkItem value None) ->
  items (session.run cs s) !! key = Some (mkItem value None).
Proof.
  induction cs as [|[c now] cs IH]; intros s Hcs Hk; simpl; [exact Hk|].
  inversion Hcs as [|? ? Hc Hcs']; subst. simpl in Hc.
  apply IH; [exact Hcs'|].
  destruct c as [k v ttl|k|]; unfold session.step; simpl in Hc.
  - apply String.eqb_neq in Hc. rewrite items_Set.
    rewrite lookup_insert_ne; [exact Hk|exact Hc].
  - apply String.eqb_neq in Hc. rewrite items_Delete.
    rewrite lookup_delete_ne; [exact Hk|exact Hc].
  - rewrite items_DeleteExpired, Hk. reflexivity.
Qed.

(** C7. After [Set(k, v, ttl)] with [ttl <= 0] the entry of [k] has no
    expiration.  Whatever calls follow ([Set] and [Delete] of other keys,
    [DeleteExpired], at any instants) and whenever [k] is read, [Get(k)]
    returns [(v, true)] and the entry is still in the map: it never expires
    and no sweep removes it.  An explicit [Delete(k)] ends this. *)
Theorem Set_without_ttl_is_permanent key value ttl now s cs t :
  ttl <= 0 ->
  Forall (fun c => session.writes key (fst c) = false) cs ->
  let s' := session.run cs (Set_ key value ttl now s) in
  items s' !! key = Some (mkItem value None)
  /\ Get key t s' = (Some value, true)
  /\ items (DeleteExpired t s') !! key = Some (mkItem value None)
  /\ Get key t (Delete key s') = (None, false).
Proof.
  intros Httl Hcs s'.
  assert (E : items s' !! key = Some (mkItem value None)).
  { apply run_keeps_permanent; [exact Hcs|].
    rewrite items_Set. destruct (Z.ltb_spec 0 ttl); [lia|].
    apply lookup_insert_eq. }
  split; [exact E|]. split; [|split].
  - rewrite (Get_lookup _ _ _ _ E). reflexivity.
  - rewrite items_DeleteExpired, E. reflexivity.
  - unfold Get. rewrite items_Delete, lookup_delete_eq. reflexivity.
Qed.

Lemma Delete_absent_items key s :
  items s !! key = None -> items (Delete key s) = items s.
Proof. intros E. rewrite items_Delete. apply delete_id. exact E. Qed.

(** [Delete] in [store.go] records its command whether or not the key had an
    entry. *)
Lemma Delete_appends key s content :
  aof s = Some (persistence.mkAOF (Some content) false) ->
  logOf (Delete key s)
  = content +:+ strings.Join ["DELETE"; key] " " +:+ String strings.LF "".
Proof.
  intros E. unfold Delete, recordCommand, logOf. simpl. rewrite E. reflexivity.
Qed.

Lemma Set_appends key value ttl now s content :
  aof s = Some (persistence.mkAOF (Some content) false) ->
  logOf (Set_ key value ttl now s)
  = content
    +:+ strings.Join (["SET"; key; Sprintf_v value]
                      ++ (if 0 <? ttl then [time.Duration_String ttl] else [])) " "
    +:+ String strings.LF "".
Proof.
  intros E. unfold Set_, recordCommand, logOf. simpl. rewrite E. simpl.
  destruct (0 <? ttl); reflexivity.
Qed.

(** C1 (amended). For every store and every key that has no entry in the map,
    [Delete] leaves the map unchanged.  [Set], with persistence enabled and
    outside replay, appends its command line to the log, also when the key
    had no entry before. *)
Theorem Delete_absent_keeps_map_and_Set_is_logged key value ttl now s content :
  items s !! key = None ->
  aof s = Some (persistence.mkAOF (Some content) false) ->
  items (Delete key s) = items s
  /\ logOf (Set_ key value ttl now s)
     = content
       +:+ strings.Join (["SET"; key; Sprintf_v value]
                         ++ (if 0 <? ttl then [time.Duration_String ttl] else [])) " "
       +:+ String strings.LF "".
Proof.
  intros Hk Ha. split.
  - apply Delete_absent_items. exact Hk.
  - apply Set_appends. exact Ha.
Qed.

End StoreFacts.

Section ServerFacts.

Context `{time.Pkg}.

Import strings store server.

(** C8. A wire SET command (of ASCII bytes) with at least 3 tokens whose
    last token does not parse as a duration is accepted: the reply is "OK",
    the value stored is the join of all the tokens after the key, that is
    these tokens separated by single spaces, and the TTL is absent (the entry
    has no expiration). *)
Theorem SET_unparsable_trailing_token_is_value cmd parts now s :
  isASCII cmd = true ->
  Fields cmd = parts ->
  ToUpper (hd "" parts) = "SET" ->
  (3 <= length parts)%nat ->
  time.ParseDuration (nth (length parts - 1) parts "") = None ->
  handleCommand cmd now s
  = ("OK", Set_ (nth 1 parts "") (VString (Join (drop 2 parts) " ")) 0 now s)
  /\ items (snd (handleCommand cmd now s)) !! nth 1 parts ""
     = Some (mkItem (VString (Join (drop 2 parts) " ")) None)
  /\ statements.singleSpaced (drop 2 parts) (Join (drop 2 parts) " ").
Proof.
  intros _ Hparts Hcmd Hlen Hparse.
  assert (J : statements.singleSpaced (drop 2 parts) (Join (drop 2 parts) " ")).
  { apply singleSpaced_Join, Forall_drop. rewrite <- Hparts. apply Fields_are_fields. }
  assert (E : handleCommand cmd now s
              = ("OK", Set_ (nth 1 parts "") (VString (Join (drop 2 parts) " ")) 0 now s)).
  { unfold handleCommand. rewrite Hparts, Hcmd, Hparse.
    destruct (Nat.eqb_spec (length parts) 0); [lia|].
    destruct (Nat.ltb_spec (length parts) 3); [lia|].
    simpl. destruct (3 <? length parts)%nat; reflexivity. }
  split; [exact E|]. split; [|exact J]. rewrite E. simpl. rewrite items_Set. simpl.
  apply lookup_insert_eq.
Qed.

Lemma GET_reply_NIL cmd word key now s :
  Fields cmd = [word; key] -> ToUpper word = "GET" ->
  Get key now s = (Some (VString "NIL"), true) \/ snd (Get key now s) = false ->
  fst (handleCommand cmd now s) = "NIL".
Proof.
  intros F Hw Hg. unfold handleCommand. rewrite F. simpl. rewrite Hw. simpl.
  destruct Hg as [-> | Hg]; [reflexivity|].
  destruct (Get key now s) as [[v|] [|]]; simpl in *; try discriminate; reflexivity.
Qed.

(** C10. There is a state, reached from the empty store by the wire command
    [SET a NIL], in which the key [a] is present with the value "NIL" and the
    key [b] is absent, and in which [GET a] and [GET b] are both answered
    "NIL": the reply does not tell a present key from an absent one. *)
Theorem GET_reply_NIL_is_ambiguous :
  exists s0 s now,
    New "" "" (fun _ => 0) = Ok s0
    /\ s = snd (handleCommand "SET a NIL" 0 s0)
    /\ Get "a" now s = (Some (VString "NIL"), true)
    /\ Get "b" now s = (None, false)
    /\ fst (handleCommand "GET a" now s) = "NIL"
    /\ fst (handleCommand "GET b" now s) = "NIL".
Proof.
  exists (mkStore ∅ None), (snd (handleCommand "SET a NIL" 0 (mkStore ∅ None))), 1.
  split; [reflexivity|]. split; [reflexivity|].
  assert (E : snd (handleCommand "SET a NIL" 0 (mkStore ∅ None))
              = mkStore (<["a" := mkItem (VString "NIL") None]> ∅) None) by reflexivity.
  rewrite E.
  assert (Ga : Get "a" 1 (mkStore (<["a" := mkItem (VString "NIL") None]> ∅) None)
               = (Some (VString "NIL"), true)).
  { unfold Get. simpl. rewrite lookup_insert_eq. reflexivity. }
  assert (Gb : Get "b" 1 (mkStore (<["a" := mkItem (VString "NIL") None]> ∅) None)
               = (None, false)).
  { unfold Get. simpl. rewrite lookup_insert_ne by discriminate.
    rewrite lookup_empty. reflexivity. }
  split; [exact Ga|]. split; [exact Gb|]. split.
  - apply (GET_reply_NIL _ "GET" "a"); [reflexivity|reflexivity|left; exact Ga].
  - apply (GET_reply_NIL _ "GET" "b"); [reflexivity|reflexivity|right; rewrite Gb; reflexivity].
Qed.

End ServerFacts.

Section ReplayFacts.

Context `{time.Pkg}.

Import strings persistence store session.

Lemma handler_parseParts clock command s n :
  handler clock command (s, n)
  = match parseParts command (Fields command) with
    | PSet key value ttl => Ok (Set_ key (VString value) ttl (clock n) s, S n)
    | PDelete key => Ok (Delete key s, n)
    | PNothing => Ok (s, n)
    | PError err => Err err
    end.
Proof.
  unfold handler, parseParts. destruct (Fields command) as [|w ws]; [reflexivity|].
  simpl hd. simpl (length (w :: ws) =? 0)%nat. cbv iota.
  destruct (String.eqb (ToUpper w) "SET").
  - destruct (length (w :: ws) <? 3)%nat; [reflexivity|].
    destruct (3 <? length (w :: ws))%nat; [|reflexivity].
    destruct (time.ParseDuration _); reflexivity.
  - destruct (String.eqb (ToUpper w) "DELETE"); [|reflexivity].
    destruct (negb _); reflexivity.
Qed.

Lemma flatText_inv v :
  flatText v = true -> Fields v <> [] /\ Join (Fields v) " " = v.
Proof.
  unfold flatText. destruct (Fields v) as [|f fs]; [discriminate|].
  intros E. apply String.eqb_eq in E. split; [discriminate|exact E].
Qed.

Lemma Join_snoc fs d sep :
  fs <> [] -> Join (fs ++ [d]) sep = Join fs sep +:+ sep +:+ d.
Proof.
  induction fs as [|f fs IH]; [congruence|]. intros _.
  destruct fs as [|g fs]; [reflexivity|].
  change ((f :: g :: fs) ++ [d]) with (f :: (g :: fs) ++ [d]).
  change ((g :: fs) ++ [d]) with (g :: fs ++ [d]) at 1.
  rewrite Join_cons2. change (g :: fs ++ [d]) with ((g :: fs) ++ [d]).
  rewrite IH by discriminate. rewrite Join_cons2, !sapp_assoc. reflexivity.
Qed.

Lemma Join_parts_fields k v durs :
  flatText v = true -> (durs = [] \/ exists d, durs = [d]) ->
  Join (["SET"; k; v] ++ durs) " " = Join ("SET" :: k :: Fields v ++ durs) " ".
Proof.
  intros Hv Hd. destruct (flatText_inv _ Hv) as [Hne E].
  destruct (Fields v) as [|f fs] eqn:F; [congruence|].
  destruct Hd as [-> | [d ->]].
  - rewrite !app_nil_r. rewrite (Join_cons2 "SET" k (f :: fs)), (Join_cons2 k f fs), E.
    reflexivity.
  - change ((f :: fs) ++ [d]) with (f :: fs ++ [d]).
    rewrite (Join_cons2 "SET" k (f :: fs ++ [d])), (Join_cons2 k f (fs ++ [d])).
    change (f :: fs ++ [d]) with ((f :: fs) ++ [d]).
    rewrite (Join_snoc (f :: fs) d " ") by discriminate. rewrite E. reflexivity.
Qed.

Lemma fieldsOf_fields c :
  replayable c = true -> Forall (fun t => isField t = true) (fieldsOf c).
Proof.
  destruct c as [k v ttl|k|]; simpl; [|intros E; repeat constructor; exact E|discriminate].
  destruct v as [|v| |]; try discriminate. intros E.
  apply andb_true_iff in E as [E E3]. apply andb_true_iff in E as [E1 E2].
  constructor; [reflexivity|]. constructor; [exact E1|].
  apply Forall_app. split; [apply Fields_are_fields|].
  destruct (0 <? ttl); [|constructor].
  apply andb_true_iff in E3 as [E3 _]. repeat constructor. exact E3.
Qed.

Lemma step_appends c now s content :
  replayable c = true ->
  aof s = Some (mkAOF (Some content) false) ->
  aof (step c now s)
  = Some (mkAOF (Some (content +:+ Join (fieldsOf c) " " +:+ String LF "")) false).
Proof.
  intros Hc Ha. destruct c as [k v ttl|k|]; simpl in Hc; [| |discriminate].
  - destruct v as [|v| |]; try discriminate.
    apply andb_true_iff in Hc as [Hc _]. apply andb_true_iff in Hc as [_ Hv].
    unfold step, Set_, recordCommand. simpl aof. rewrite Ha.
    unfold Write. simpl file. simpl isLoading. cbv iota. unfold fieldsOf. simpl Sprintf_v.
    destruct (0 <? ttl).
    + rewrite <- (Join_parts_fields k v [time.Duration_String ttl] Hv) by eauto.
      reflexivity.
    + rewrite <- (Join_parts_fields k v [] Hv) by eauto. reflexivity.
  - unfold step, Delete, recordCommand. simpl aof. rewrite Ha. reflexivity.
Qed.

Lemma parseParts_SET command k rest :
  rest <> [] ->
  parseParts command ("SET" :: k :: rest)
  = if (1 <? length rest)%nat then
      match time.ParseDuration (nth (length rest - 1) rest "") with
      | Some d => PSet k (Join (take (length rest - 1) rest) " ") d
      | None => PSet k (Join rest " ") 0
      end
    else PSet k (Join rest " ") 0.
Proof.
  intros Hne. destruct rest as [|r rest]; [congruence|].
  unfold parseParts. change (String.eqb (ToUpper "SET") "SET") with true. cbv iota.
  change (length ("SET" :: k :: r :: rest) <? 3)%nat with false. cbv iota.
  change (3 <? length ("SET" :: k :: r :: rest))%nat with (1 <? length (r :: rest))%nat.
  destruct (1 <? length (r :: rest))%nat; [|reflexivity].
  replace (length ("SET" :: k :: r :: rest) - 1)%nat with (S (S (length (r :: rest) - 1)))
    by (simpl; lia).
  reflexivity.
Qed.

Lemma parseParts_fieldsOf command c :
  replayable c = true -> parseParts command (fieldsOf c) = parsedOf c.
Proof.
  destruct c as [k v ttl|k|]; simpl replayable; [| |discriminate].
  - destruct v as [|v| |]; try discriminate. intros E.
    apply andb_true_iff in E as [E E3]. apply andb_true_iff in E as [_ Hv].
    destruct (flatText_inv _ Hv) as [Hne Ej].
    unfold fieldsOf, parsedOf. simpl Sprintf_v.
    rewrite parseParts_SET by (destruct (Fields v); [congruence|discriminate]).
    destruct (0 <? ttl).
    + apply andb_true_iff in E3 as [_ E3].
      destruct (time.ParseDuration (time.Duration_String ttl)) as [d|] eqn:P;
        [|discriminate].
      apply Z.eqb_eq in E3. subst d.
      rewrite length_app. simpl length.
      replace (length (Fields v) + 1 - 1)%nat with (length (Fields v)) by lia.
      rewrite nth_middle, P, take_app_length, Ej.
      destruct (Nat.ltb_spec 1 (length (Fields v) + 1)); [reflexivity|].
      destruct (Fields v); [congruence|simpl in *; lia].
    + rewrite app_nil_r, Ej. simpl in E3.
      destruct (Nat.ltb_spec 1 (length (Fields v))); [|reflexivity].
      destruct (Nat.ltb_spec (length (Fields v)) 2); [lia|]. simpl in E3.
      destruct (time.ParseDuration _); [discriminate|reflexivity].
  - intros _. unfold fieldsOf, parsedOf, parseParts.
    change (String.eqb (ToUpper "DELETE") "SET") with false.
    change (String.eqb (ToUpper "DELETE") "DELETE") with true. reflexivity.
Qed.

(** *** Replay does not depend on the clock or on the log it runs under *)

Lemma sameItems_refl m : sameItems m m.
Proof. intros key. unfold sameEntry. destruct (m !! key); [split; tauto|exact I]. Qed.

Lemma sameItems_sym m1 m2 : sameItems m1 m2 -> sameItems m2 m1.
Proof.
  intros E key. specialize (E key). unfold sameEntry in *.
  destruct (m1 !! key), (m2 !! key); try tauto.
  destruct E as [E1 E2]. split; [congruence|tauto].
Qed.

Lemma sameItems_trans m1 m2 m3 : sameItems m1 m2 -> sameItems m2 m3 -> sameItems m1 m3.
Proof.
  intros E F key. specialize (E key). specialize (F key). unfold sameEntry in *.
  destruct (m1 !! key), (m2 !! key), (m3 !! key); try tauto.
  destruct E as [E1 E2], F as [F1 F2]. split; [congruence|tauto].
Qed.

Lemma sameItems_insert m1 m2 key value e1 e2 :
  sameItems m1 m2 -> (e1 = None <-> e2 = None) ->
  sameItems (<[key := mkItem value e1]> m1) (<[key := mkItem value e2]> m2).
Proof.
  intros E He k. destruct (decide (key = k)) as [->|Hne].
  - rewrite !lookup_insert_eq. simpl. split; [reflexivity|exact He].
  - rewrite !lookup_insert_ne by exact Hne. apply E.
Qed.

Lemma sameItems_delete m1 m2 key :
  sameItems m1 m2 -> sameItems (delete key m1) (delete key m2).
Proof.
  intros E k. destruct (decide (key = k)) as [->|Hne].
  - rewrite !lookup_delete_eq. exact I.
  - rewrite !lookup_delete_ne by exact Hne. apply E.
Qed.

Lemma sameItems_Set key value ttl1 ttl2 now1 now2 s1 s2 :
  (0 <? ttl1) = (0 <? ttl2) ->
  sameItems (items s1) (items s2) ->
  sameItems (items (Set_ key value ttl1 now1 s1)) (items (Set_ key value ttl2 now2 s2)).
Proof.
  intros Ht E. rewrite !items_Set, Ht. apply sameItems_insert; [exact E|].
  destruct (0 <? ttl2); split; congruence.
Qed.

Lemma sameItems_Delete key s1 s2 :
  sameItems (items s1) (items s2) ->
  sameItems (items (Delete key s1)) (items (Delete key s2)).
Proof. intros E. rewrite !items_Delete. apply sameItems_delete. exact E. Qed.

Lemma recordCommand_loading parts s : loading s -> recordCommand parts s = s.
Proof.
  unfold loading, recordCommand. destruct s as [m [[f l]|]]; simpl; [|reflexivity].
  intros ->. unfold Write. simpl. destruct f; reflexivity.
Qed.

Lemma aof_Set_loading key value ttl now s :
  loading s -> aof (Set_ key value ttl now s) = aof s.
Proof.
  intros L. unfold Set_. rewrite recordCommand_loading; [reflexivity|exact L].
Qed.

Lemma aof_Delete_loading key s : loading s -> aof (Delete key s) = aof s.
Proof.
  intros L. unfold Delete. rewrite recordCommand_loading; [reflexivity|exact L].
Qed.

Lemma handler_related clock1 clock2 command st1 st2 :
  related st1 st2 ->
  match handler clock1 command st1, handler clock2 command st2 with
  | Ok st1', Ok st2' =>
      related st1' st2' /\ aof (fst st1') = aof (fst st1) /\ aof (fst st2') = aof (fst st2)
  | Err e1, Err e2 => e1 = e2
  | _, _ => False
  end.
Proof.
  destruct st1 as [s1 n1], st2 as [s2 n2]. intros (L1 & L2 & E). simpl in L1, L2, E.
  rewrite !handler_parseParts. destruct (parseParts command (Fields command)).
  - unfold related, loading. simpl.
    rewrite !aof_Set_loading by assumption. repeat split; try assumption.
    apply sameItems_Set; [reflexivity|exact E].
  - unfold related, loading. simpl.
    rewrite !aof_Delete_loading by assumption. repeat split; try assumption.
    apply sameItems_Delete. exact E.
  - unfold related. simpl. auto.
  - reflexivity.
Qed.

Lemma loadLines_related clock1 clock2 lines : forall n st1 st2,
  related st1 st2 ->
  match loadLines (handler clock1) lines n st1, loadLines (handler clock2) lines n st2 with
  | Ok st1', Ok st2' =>
      related st1' st2' /\ aof (fst st1') = aof (fst st1) /\ aof (fst st2') = aof (fst st2)
  | Err e1, Err e2 => e1 = e2
  | _, _ => False
  end.
Proof.
  induction lines as [|text rest IH]; intros n st1 st2 R; simpl loadLines;
    [repeat split; solve [apply R | reflexivity]|].
  destruct (String.eqb (TrimSpace text) ""); [apply IH; exact R|].
  pose proof (handler_related clock1 clock2 (TrimSpace text) st1 st2 R) as Hh.
  destruct (handler clock1 (TrimSpace text) st1) as [st1'|e1],
           (handler clock2 (TrimSpace text) st2) as [st2'|e2]; try contradiction.
  - destruct Hh as (R' & A1 & A2). specialize (IH (S n) st1' st2' R').
    destruct (loadLines (handler clock1) rest (S n) st1'),
             (loadLines (handler clock2) rest (S n) st2'); try contradiction; [|exact IH].
    destruct IH as (R'' & B1 & B2). repeat split; try apply R''; congruence.
  - congruence.
Qed.

Lemma loadLines_app {S : Type} (h : string -> S -> result S) l1 l2 : forall n st,
  loadLines h (l1 ++ l2) n st
  = match loadLines h l1 n st with
    | Ok st' => loadLines h l2 (n + length l1) st'
    | Err err => Err err
    end.
Proof.
  induction l1 as [|text rest IH]; intros n st.
  - simpl. rewrite Nat.add_0_r. reflexivity.
  - rewrite <- app_comm_cons. simpl loadLines.
    simpl length.
    replace (n + Datatypes.S (length rest))%nat with (Datatypes.S n + length rest)%nat
      by lia.
    destruct (String.eqb (TrimSpace text) ""); [apply IH|].
    destruct (h (TrimSpace text) st); [apply IH|reflexivity].
Qed.

(** *** The log of a session replays to the state of the session *)

Lemma violatesGrammar_parseParts command :
  logfile.violatesGrammar command
  = match parseParts command (Fields command) with
    | PError _ => true
    | _ => false
    end.
Proof.
  unfold logfile.violatesGrammar, parseParts.
  destruct (Fields command) as [|w ws]; [reflexivity|].
  destruct (String.eqb (ToUpper w) "SET").
  - destruct (length (w :: ws) <? 3)%nat; [reflexivity|].
    destruct (3 <? length (w :: ws))%nat; [|reflexivity].
    destruct (time.ParseDuration _); reflexivity.
  - destruct (String.eqb (ToUpper w) "DELETE"); [|reflexivity].
    destruct (negb _); reflexivity.
Qed.

Lemma fieldsOf_nonempty c : replayable c = true -> fieldsOf c <> [].
Proof. destruct c; simpl; discriminate. Qed.

Lemma line_facts c :
  replayable c = true ->
  let line := Join (fieldsOf c) " " in
  plain line = true /\ TrimSpace line = line /\ line <> ""
  /\ parseParts line (Fields line) = parsedOf c
  /\ logfile.violatesGrammar line = false.
Proof.
  intros Hc line. pose proof (fieldsOf_fields c Hc) as Hf.
  assert (F : Fields line = fieldsOf c) by (apply Fields_Join; exact Hf).
  assert (T : TrimSpace line = line) by (apply TrimSpace_Join; exact Hf).
  assert (P : parseParts line (Fields line) = parsedOf c).
  { rewrite F. apply parseParts_fieldsOf. exact Hc. }
  split; [apply plain_Join; exact Hf|]. split; [exact T|]. split; [|split; [exact P|]].
  - intros E. rewrite E in T. apply TrimSpace_empty_iff in T.
    rewrite E in F. rewrite F in T. exact (fieldsOf_nonempty c Hc T).
  - rewrite violatesGrammar_parseParts, P. destruct c; reflexivity.
Qed.

Lemma replay_line clock c now s st n :
  replayable c = true ->
  sameItems (items (fst st)) (items s) ->
  exists st',
    loadLines (handler clock) [Join (fieldsOf c) " "] n st = Ok st'
    /\ sameItems (items (fst st')) (items (step c now s)).
Proof.
  intros Hc E. destruct (line_facts c Hc) as (_ & T & Hne & P & _).
  simpl loadLines. rewrite T. apply String.eqb_neq in Hne. rewrite Hne.
  destruct st as [s' m]. rewrite handler_parseParts, P.
  destruct c as [k v ttl|k|]; simpl in Hc; [| |discriminate].
  - destruct v as [|v| |]; try discriminate. simpl parsedOf. eexists. split; [reflexivity|].
    simpl fst. unfold step. apply sameItems_Set; [|exact E].
    destruct (0 <? ttl) eqn:Q; [exact Q|reflexivity].
  - simpl parsedOf. eexists. split; [reflexivity|].
    simpl fst. unfold step. apply sameItems_Delete. exact E.
Qed.

(** [New] with a file name: the integrity check, then the replay of every
    line (the check has seen them all). *)
Lemma New_with_log aofFilename content clock :
  aofFilename <> "" ->
  New aofFilename content clock
  = match checkAOFIntegrity content with
    | Some err => Err (ErrInitAOF (ErrIntegrity err))
    | None =>
        match loadLines (handler clock) (ScanLines content) 0
                (setLoading true
                   (mkStore (items (mkStore ∅ None))
                      (Some (mkAOF (Some content) false)), 0%nat)) with
        | Err e => Err (ErrLoadAOF e)
        | Ok st' => Ok (fst (setLoading false st'))
        end
    end.
Proof.
  intros Hname. apply String.eqb_neq in Hname.
  unfold New, persistence.New, Load. rewrite Hname. simpl negb. cbv iota.
  destruct (checkAOFIntegrity content) eqn:I; [reflexivity|].
  destruct (checkAOFIntegrity_None _ I) as [F _]. rewrite (Scan_fits _ F).
  destruct (loadLines _ _ _ _) as [st'|e]; [|reflexivity].
  destruct (setLoading false st'); reflexivity.
Qed.

Lemma consistent_New aofFilename content clock s :
  aofFilename <> "" -> endsLF content = true ->
  New aofFilename content clock = Ok s -> consistent s.
Proof.
  intros Hname Hlf. rewrite (New_with_log _ _ _ Hname).
  destruct (checkAOFIntegrity content) eqn:I0; [discriminate|].
  destruct (checkAOFIntegrity_None _ I0) as [_ I].
  set (st0 := setLoading true (mkStore (items (mkStore ∅ None))
                                 (Some (mkAOF (Some content) false)), 0%nat)).
  assert (R0 : related st0 st0).
  { split; [reflexivity|]. split; [reflexivity|]. apply sameItems_refl. }
  pose proof (loadLines_related clock clock (ScanLines content) 0%nat st0 st0 R0) as Hl.
  destruct (loadLines (handler clock) (ScanLines content) 0 st0) as [[s' n']|e] eqn:L;
    [|discriminate].
  destruct Hl as (_ & A & _). simpl in A.
  unfold setLoading. simpl fst in A. rewrite A. simpl file. intros E. inversion E; subst s.
  exists content. split; [reflexivity|]. split; [exact Hlf|]. split; [exact I|].
  exists clock, st0, (s', n'). split; [reflexivity|]. split; [reflexivity|].
  split; [exact L|]. apply sameItems_refl.
Qed.

Lemma consistent_step c now s :
  replayable c = true -> consistent s -> consistent (step c now s).
Proof.
  intros Hc (content & A & Hlf & I & clock & st0 & st & L0 & E0 & L & E).
  destruct (line_facts c Hc) as (Pl & T & Hne & P & V).
  set (line := Join (fieldsOf c) " ") in *.
  exists (content +:+ line +:+ String LF ""). split; [apply step_appends; assumption|].
  split; [apply endsLF_app_line|].
  rewrite !(ScanLines_app_line _ _ Hlf Pl).
  split.
  - rewrite (checkLines_app _ _ _ I), (checkLines_cons_ok _ _ _ V). reflexivity.
  - exists clock, st0. rewrite loadLines_app, L.
    destruct (replay_line clock c now s st (0 + length (ScanLines content))%nat Hc E)
      as (st' & L' & E').
    exists st'. repeat split; assumption.
Qed.

Lemma consistent_run cs : forall s,
  Forall (fun c => replayable (fst c) = true) cs -> consistent s ->
  consistent (run cs s).
Proof.
  induction cs as [|[c now] cs IH]; intros s Hcs Hs; [exact Hs|].
  inversion Hcs; subst. simpl. apply IH; [assumption|].
  apply consistent_step; assumption.
Qed.

Lemma consistent_reopen aofFilename clock s :
  aofFilename <> "" -> consistent s -> fitsScanner (logOf s) = true ->
  exists s', New aofFilename (logOf s) clock = Ok s' /\ sameItems (items s') (items s).
Proof.
  intros Hname (content & A & Hlf & I & clock0 & st0 & st & L0 & E0 & L & E).
  unfold logOf. rewrite A. simpl default. intros F.
  rewrite (New_with_log _ _ _ Hname), (checkAOFIntegrity_fits _ F), I.
  set (st1 := setLoading true (mkStore (items (mkStore ∅ None))
                                 (Some (mkAOF (Some content) false)), 0%nat)).
  assert (R : related st0 st1).
  { split; [exact L0|]. split; [reflexivity|]. rewrite E0. apply sameItems_refl. }
  pose proof (loadLines_related clock0 clock (ScanLines content) 0%nat st0 st1 R) as Hl.
  rewrite L in Hl.
  destruct (loadLines (handler clock) (ScanLines content) 0 st1) as [[s' n']|e];
    [|contradiction].
  destruct Hl as ((_ & _ & E') & _ & A'). simpl in A', E'.
  unfold setLoading. rewrite A'. simpl file. eexists. split; [reflexivity|].
  simpl items. apply sameItems_trans with (items (fst st)); [|exact E].
  apply sameItems_sym. exact E'.
Qed.

Lemma sameItems_Get m1 a1 m2 a2 key t :
  sameItems m1 m2 ->
  (forall item, m2 !! key = Some item -> Expiration item = None) ->
  Get key t (mkStore m1 a1) = Get key t (mkStore m2 a2)
  /\ store.Exists key t (mkStore m1 a1) = store.Exists key t (mkStore m2 a2).
Proof.
  intros E Hk. specialize (E key). unfold Get, store.Exists, sameEntry in *. simpl.
  destruct (m1 !! key) as [x|], (m2 !! key) as [y|]; try contradiction; [|auto].
  destruct E as [Ev Ee]. pose proof (Hk y eq_refl) as Hy.
  pose proof (proj2 Ee Hy) as Hx. unfold expired. rewrite Hx, Hy, Ev. auto.
Qed.

Lemma sameItems_Get_live m1 a1 m2 a2 key t :
  sameItems m1 m2 ->
  (forall item, m1 !! key = Some item -> expired t item = false) ->
  (forall item, m2 !! key = Some item -> expired t item = false) ->
  Get key t (mkStore m1 a1) = Get key t (mkStore m2 a2)
  /\ store.Exists key t (mkStore m1 a1) = store.Exists key t (mkStore m2 a2).
Proof.
  intros E H1 H2. specialize (E key). unfold Get, store.Exists, sameEntry in *. simpl.
  destruct (m1 !! key) as [x|], (m2 !! key) as [y|]; try contradiction; [|auto].
  destruct E as [Ev _]. rewrite (H1 x eq_refl), (H2 y eq_refl), Ev. auto.
Qed.

(** C2 (amended). Take a store constructed with persistence over a log of
    whole lines, and any sequence of replayable [Set]/[Delete] calls on it
    (keys that are one field; values that are flat text and cannot be
    mistaken for a value followed by a TTL; TTLs that print and parse back)
    that leaves a log of ASCII bytes whose lines are shorter than 64 KiB.
    Constructing a new store over the log the session leaves succeeds, and
    its map agrees with the map before closing: the same keys, the same
    values, and an expiration exactly where there was one (its instant is
    counted from the replay).  [Get] and [Exists] answer the same, at every
    instant, for every key that is absent or stored without expiration, and
    for every key at the instants at which its entry has expired in neither
    store. *)
Theorem reopen_reconstructs_session aofFilename content clock s0 calls clock' :
  aofFilename <> "" ->
  endsLF content = true ->
  New aofFilename content clock = Ok s0 ->
  Forall (fun c => replayable (fst c) = true) calls ->
  isASCII (logOf (run calls s0)) = true ->
  fitsScanner (logOf (run calls s0)) = true ->
  exists s',
    New aofFilename (logOf (run calls s0)) clock' = Ok s'
    /\ sameItems (items s') (items (run calls s0))
    /\ (forall key t,
         (forall item, items (run calls s0) !! key = Some item ->
                       Expiration item = None) ->
         Get key t s' = Get key t (run calls s0)
         /\ store.Exists key t s' = store.Exists key t (run calls s0))
    /\ (forall key t,
         (forall item, items s' !! key = Some item -> expired t item = false) ->
         (forall item, items (run calls s0) !! key = Some item ->
                       expired t item = false) ->
         Get key t s' = Get key t (run calls s0)
         /\ store.Exists key t s' = store.Exists key t (run calls s0)).
Proof.
  intros Hname Hlf HNew Hcalls _ F.
  destruct (consistent_reopen aofFilename clock' (run calls s0) Hname) as (s' & N & E);
    [|exact F|].
  { apply consistent_run; [exact Hcalls|].
    exact (consistent_New _ _ _ _ Hname Hlf HNew). }
  exists s'. split; [exact N|]. split; [exact E|].
  destruct s' as [m1 a1], (run calls s0) as [m2 a2]. split.
  - intros key t Hk. apply sameItems_Get; assumption.
  - intros key t H1 H2. apply sameItems_Get_live; assumption.
Qed.

End ReplayFacts.

(** ** Further properties of [store.go] *)

Section StoreAlgebra.

Context `{time.Pkg}.

Import store session.

Lemma Get_items s1 s2 key t : items s1 = items s2 -> Get key t s1 = Get key t s2.
Proof. intros E. unfold Get. rewrite E. reflexivity. Qed.

Lemma Exists_items s1 s2 key t :
  items s1 = items s2 -> store.Exists key t s1 = store.Exists key t s2.
Proof. intros E. unfold store.Exists. rewrite E. reflexivity. Qed.

(** X1. [Exists] answers what [Get] reports as found, and [Get] returns the
    nil value whenever it reports the key as not found. *)
Theorem Exists_agrees_with_Get key t s :
  store.Exists key t s = snd (Get key t s)
  /\ (snd (Get key t s) = false -> fst (Get key t s) = None).
Proof.
  unfold store.Exists, Get. destruct (items s !! key) as [item|]; simpl.
  - destruct (expired t item); simpl; split; try reflexivity; discriminate.
  - split; reflexivity.
Qed.

Lemma Get_Set_same key value ttl now s t :
  Get key t (Set_ key value ttl now s)
  = if (0 <? ttl) && (now + ttl <? t) then (None, false) else (Some value, true).
Proof.
  unfold Get. rewrite items_Set, lookup_insert_eq. unfold expired, time.After. simpl.
  destruct (0 <? ttl); simpl; [|reflexivity].
  destruct (now + ttl <? t); reflexivity.
Qed.

(** X2. The last [Set] of a key wins: after two [Set]s of the same key the
    map is the one the second [Set] alone would give, and [Get] returns the
    second value, under the TTL of the second call only. *)
Theorem Set_overwrites key v1 ttl1 now1 v2 ttl2 now2 s t :
  items (Set_ key v2 ttl2 now2 (Set_ key v1 ttl1 now1 s))
  = items (Set_ key v2 ttl2 now2 s)
  /\ Get key t (Set_ key v2 ttl2 now2 (Set_ key v1 ttl1 now1 s))
     = if (0 <? ttl2) && (now2 + ttl2 <? t) then (None, false) else (Some v2, true).
Proof.
  split; [|apply Get_Set_same].
  rewrite !items_Set. apply insert_insert_eq.
Qed.

(** X3. [Set] and [Delete] of a key leave every other key as it was: [Get]
    and [Exists] of another key answer the same before and after. *)
Theorem writes_leave_other_keys key other value ttl now s t :
  key <> other ->
  Get other t (Set_ key value ttl now s) = Get other t s
  /\ store.Exists other t (Set_ key value ttl now s) = store.Exists other t s
  /\ Get other t (Delete key s) = Get other t s
  /\ store.Exists other t (Delete key s) = store.Exists other t s.
Proof.
  intros Hne. unfold Get, store.Exists.
  rewrite items_Set, items_Delete, lookup_insert_ne, lookup_delete_ne by exact Hne.
  repeat split; reflexivity.
Qed.

(** X4. After [Delete] the key is absent for [Get] and [Exists] at every
    instant, and a [Set] followed by a [Delete] of the same key leaves the
    map as the [Delete] alone would. *)
Theorem Delete_removes key value ttl now s t :
  Get key t (Delete key s) = (None, false)
  /\ store.Exists key t (Delete key s) = false
  /\ items (Delete key (Set_ key value ttl now s)) = items (Delete key s).
Proof.
  unfold Get, store.Exists. rewrite !items_Delete, lookup_delete_eq.
  split; [reflexivity|]. split; [reflexivity|].
  rewrite items_Set. apply delete_insert_eq.
Qed.

Lemma expired_mono t t' item : t <= t' -> expired t item = true -> expired t' item = true.
Proof.
  unfold expired, time.After. destruct (Expiration item) as [e|]; [|discriminate].
  intros Ht E. apply Z.ltb_lt in E. apply Z.ltb_lt. lia.
Qed.

(** X5. A sweep is invisible to readers: [Get] and [Exists] at an instant [t]
    answer the same whether or not [DeleteExpired] has run at an earlier (or
    the same) instant. *)
Theorem DeleteExpired_invisible key t' t s :
  t' <= t ->
  Get key t (DeleteExpired t' s) = Get key t s
  /\ store.Exists key t (DeleteExpired t' s) = store.Exists key t s.
Proof.
  intros Ht. unfold Get, store.Exists. rewrite items_DeleteExpired.
  destruct (items s !! key) as [item|]; [|split; reflexivity].
  destruct (expired t' item) eqn:E; [|split; reflexivity].
  rewrite (expired_mono _ _ _ Ht E). split; reflexivity.
Qed.

(** X6. Sweeps compose: two sweeps, in either order, leave the map that one
    sweep at the later instant leaves. *)
Theorem DeleteExpired_twice t1 t2 s :
  t1 <= t2 ->
  items (DeleteExpired t2 (DeleteExpired t1 s)) = items (DeleteExpired t2 s)
  /\ items (DeleteExpired t1 (DeleteExpired t2 s)) = items (DeleteExpired t2 s).
Proof.
  intros Ht. split; apply map_eq; intros key; rewrite !items_DeleteExpired;
    destruct (items s !! key) as [item|]; try reflexivity.
  - destruct (expired t1 item) eqn:E1.
    + rewrite (expired_mono _ _ _ Ht E1). reflexivity.
    + reflexivity.
  - destruct (expired t2 item) eqn:E2; [reflexivity|].
    destruct (expired t1 item) eqn:E1; [|reflexivity].
    rewrite (expired_mono _ _ _ Ht E1) in E2. discriminate.
Qed.

(** X7. Expiry is final: a key that [Get] does not find at an instant is not
    found at any later instant either, as long as the store is not written. *)
Theorem Get_not_found_later key t t' s :
  t <= t' -> snd (Get key t s) = false -> snd (Get key t' s) = false.
Proof.
  intros Ht. unfold Get. destruct (items s !! key) as [item|]; [|reflexivity].
  destruct (expired t item) eqn:E; [|discriminate].
  rewrite (expired_mono _ _ _ Ht E). reflexivity.
Qed.

(** X8. After a sweep at [t] the keys left in the map are exactly the keys
    [Get] finds at [t]: no expired entry is left behind and no live entry is
    removed. *)
Theorem DeleteExpired_leaves_live_keys key t s :
  is_Some (items (DeleteExpired t s) !! key) <-> snd (Get key t s) = true.
Proof.
  rewrite items_DeleteExpired. unfold Get.
  destruct (items s !! key) as [item|]; simpl.
  - destruct (expired t item); simpl; split; intros E; try discriminate; eauto.
    destruct E as [x E]. discriminate.
  - split; intros E; [destruct E as [x E]|]; discriminate.
Qed.

Lemma logOf_recordCommand parts s :
  exists suffix, logOf (recordCommand parts s) = logOf s +:+ suffix.
Proof.
  unfold recordCommand, logOf. destruct s as [m [[f l]|]]; simpl;
    [|exists ""; reflexivity].
  unfold persistence.Write. simpl. destruct f as [content|]; [|exists ""; reflexivity].
  destruct l; simpl; [exists ""; symmetry; apply sapp_nil_r|].
  eexists. reflexivity.
Qed.

Lemma logOf_step c now s : exists suffix, logOf (step c now s) = logOf s +:+ suffix.
Proof.
  destruct c as [k v ttl|k|]; unfold step.
  - unfold Set_. apply (logOf_recordCommand _ (mkStore _ (aof s))).
  - unfold Delete. apply (logOf_recordCommand _ (mkStore _ (aof s))).
  - exists "". unfold logOf, DeleteExpired. simpl. symmetry. apply sapp_nil_r.
Qed.

(** X9. The log is append-only: whatever calls are made on a store, the log
    after them starts with the log before them. *)
Theorem log_is_append_only cs : forall s,
  exists suffix, logOf (run cs s) = logOf s +:+ suffix.
Proof.
  induction cs as [|[c now] cs IH]; intros s; simpl.
  - exists "". symmetry. apply sapp_nil_r.
  - destruct (IH (step c now s)) as [x Hx]. destruct (logOf_step c now s) as [y Hy].
    exists (y +:+ x). rewrite Hx, Hy. apply sapp_assoc.
Qed.

Lemma items_step c now s1 s2 :
  items s1 = items s2 -> items (step c now s1) = items (step c now s2).
Proof.
  intros E. destruct c as [k v ttl|k|]; unfold step.
  - rewrite !items_Set, E. reflexivity.
  - rewrite !items_Delete, E. reflexivity.
  - unfold DeleteExpired. simpl. rewrite E. reflexivity.
Qed.

(** X10. The map does not depend on persistence: the same calls on two stores
    with the same map give the same map, whatever the state of their logs
    (absent, loading or live). *)
Theorem map_independent_of_log cs : forall s1 s2,
  items s1 = items s2 -> items (run cs s1) = items (run cs s2).
Proof.
  induction cs as [|[c now] cs IH]; intros s1 s2 E; simpl; [exact E|].
  apply IH. apply items_step. exact E.
Qed.

End StoreAlgebra.

(** ** Further properties of construction and of the integrity check *)

Section ConstructionFacts.

Context `{time.Pkg}.

Import strings persistence store session logfile.

(** X11. Constructing a store does not touch the log file: the store that
    [New] returns holds the log with the content it was given, open and not
    loading; replay has re-appended nothing. *)
Theorem New_keeps_log aofFilename content clock s :
  aofFilename <> "" ->
  New aofFilename content clock = Ok s ->
  aof s = Some (mkAOF (Some content) false) /\ logOf s = content.
Proof.
  intros Hname. rewrite (New_with_log _ _ _ Hname).
  destruct (checkAOFIntegrity content) eqn:I; [discriminate|].
  set (st0 := setLoading true (mkStore (items (mkStore ∅ None))
                                 (Some (mkAOF (Some content) false)), 0%nat)).
  assert (R0 : related st0 st0).
  { split; [reflexivity|]. split; [reflexivity|]. apply sameItems_refl. }
  pose proof (loadLines_related clock clock (ScanLines content) 0%nat st0 st0 R0) as Hl.
  destruct (loadLines (handler clock) (ScanLines content) 0 st0) as [[s' n']|e] eqn:L;
    [|discriminate].
  destruct Hl as (_ & A & _). simpl in A.
  unfold setLoading. simpl fst in A. rewrite A. simpl file. intros E. inversion E; subst s.
  split; reflexivity.
Qed.

(** A value of 64 KiB or more is stored, but the line that [Set] logs for
    it is one the scanner cannot hold: the next construction over the log
    fails, and so does [Load] on the log alone. *)
Lemma long_line_is_not_read key v :
  isField key = true -> isField v = true -> tooLong v = true ->
  noLF (Join ["SET"; key; v] " ") = true
  /\ violatesGrammar (Join ["SET"; key; v] " ") = false
  /\ checkAOFIntegrity (Join ["SET"; key; v] " " +:+ String LF "")
     = Some (ErrScanning ErrTooLong).
Proof.
  intros Hk Hv Ht.
  assert (Hf : Forall (fun t => isField t = true) ["SET"; key; v])
    by (repeat constructor; assumption).
  assert (Hl : noLF (Join ["SET"; key; v] " ") = true)
    by (apply plain_noLF, plain_Join; exact Hf).
  split; [exact Hl|]. split.
  - unfold violatesGrammar. rewrite (Fields_Join _ Hf). reflexivity.
  - unfold checkAOFIntegrity, Scan. rewrite (rawLines_line _ Hl).
    assert (Hj : tooLong (Join ["SET"; key; v] " ") = true).
    { rewrite !Join_cons2. change (Join [v] " ") with v.
      repeat apply tooLong_app. exact Ht. }
    rewrite (scanTokens_long _ _ Hj). reflexivity.
Qed.

Lemma long_value_breaks_reopen aofFilename key v now t clock :
  aofFilename <> "" ->
  isField key = true -> isField v = true -> tooLong v = true ->
  replayable (CallSet key (VString v) 0) = true
  /\ Get key t (Set_ key (VString v) 0 now (mkStore ∅ (Some (mkAOF (Some "") false))))
     = (Some (VString v), true)
  /\ New aofFilename
       (logOf (Set_ key (VString v) 0 now (mkStore ∅ (Some (mkAOF (Some "") false)))))
       clock
     = Err (ErrInitAOF (ErrIntegrity (ErrScanning ErrTooLong))).
Proof.
  intros Hname Hk Hv Ht.
  destruct (long_line_is_not_read key v Hk Hv Ht) as (_ & _ & I).
  split; [|split].
  - unfold replayable, flatText. rewrite Hk, (Fields_field _ Hv). simpl Join.
    rewrite String.eqb_refl. reflexivity.
  - rewrite Get_Set_same. reflexivity.
  - rewrite (Set_appends key (VString v) 0 now
               (mkStore ∅ (Some (mkAOF (Some "") false))) "" eq_refl).
    change (0 <? 0) with false. cbv iota. rewrite app_nil_r, sapp_nil_l.
    simpl Sprintf_v. rewrite (New_with_log _ _ _ Hname), I. reflexivity.
Qed.

Lemma Load_rejects_long_line filename key v clock st :
  filename <> "" ->
  isField key = true -> isField v = true -> tooLong v = true ->
  Load setLoading filename (Join ["SET"; key; v] " " +:+ String LF "") (handler clock) st
  = Err (ErrIntegrityBeforeLoad (ErrScanning ErrTooLong)).
Proof.
  intros Hname Hk Hv Ht. apply String.eqb_neq in Hname.
  destruct (long_line_is_not_read key v Hk Hv Ht) as (_ & _ & I).
  unfold Load. rewrite Hname, I. reflexivity.
Qed.

(** X12. With a file name and a log of ASCII bytes, [New] returns a store
    exactly when every line of the log is shorter than 64 KiB and none
    violates the command grammar. *)
Theorem New_succeeds_iff_log_intact aofFilename content clock :
  aofFilename <> "" ->
  isASCII content = true ->
  (exists s, New aofFilename content clock = Ok s)
  <-> fitsScanner content = true
      /\ Forall (fun l => violatesGrammar l = false) (ScanLines content).
Proof.
  intros Hname _. rewrite (New_with_log _ _ _ Hname). split.
  - intros [s E]. destruct (checkAOFIntegrity content) eqn:I; [discriminate|].
    destruct (checkAOFIntegrity_None _ I) as [F I']. split; [exact F|].
    exact (checkLines_None_inv _ _ I').
  - intros [F Hl]. rewrite (checkAOFIntegrity_fits _ F), (checkLines_ok _ _ Hl).
    match goal with
    | |- context [loadLines ?h ?l ?n ?st] =>
        destruct (loadLines_applyAll clock l n st Hl) as (st' & _ & E)
    end.
    rewrite E. eexists. reflexivity.
Qed.

Lemma checkLines_cons_bad_line text rest n :
  violatesGrammar text = true ->
  exists err,
    checkLines (text :: rest) n = Some err
    /\ statements.lineOfError err = Some (S n).
Proof.
  intros Hv. simpl checkLines. unfold violatesGrammar in Hv.
  destruct (String.eqb_spec (TrimSpace text) "") as [E|E].
  { apply TrimSpace_empty_iff in E. rewrite E in Hv. discriminate. }
  rewrite Fields_TrimSpace.
  destruct (Fields text) as [|w ws] eqn:F; [discriminate|].
  simpl hd. destruct ws as [|x ws]; simpl in *; [eexists; split; reflexivity|].
  destruct (String.eqb (ToUpper w) "SET"); [rewrite Hv; eexists; split; reflexivity|].
  destruct (String.eqb (ToUpper w) "DELETE");
    [rewrite Hv; eexists; split; reflexivity|eexists; split; reflexivity].
Qed.

(** X13. When the integrity check fails on a log of ASCII bytes whose lines
    are shorter than 64 KiB, the error carries the number of the first line
    (counted from 1) that violates the grammar: that line violates it and no
    line before it does. *)
Theorem integrity_error_is_first_violation content err :
  isASCII content = true ->
  fitsScanner content = true ->
  checkAOFIntegrity content = Some err ->
  exists k text,
    statements.lineOfError err = Some (S k)
    /\ ScanLines content !! k = Some text
    /\ violatesGrammar text = true
    /\ Forall (fun l => violatesGrammar l = false) (take k (ScanLines content)).
Proof.
  intros _ F E. rewrite (checkAOFIntegrity_fits _ F) in E.
  assert (G : forall lines n,
            checkLines lines n = Some err ->
            exists k text,
              statements.lineOfError err = Some (S (n + k))
              /\ lines !! k = Some text
              /\ violatesGrammar text = true
              /\ Forall (fun l => violatesGrammar l = false) (take k lines)).
  { induction lines as [|text rest IH]; intros n E'; [discriminate|].
    destruct (violatesGrammar text) eqn:Hv.
    - destruct (checkLines_cons_bad_line text rest n Hv) as (err' & E'' & L).
      rewrite E' in E''. inversion E''; subst err'.
      exists 0%nat, text. rewrite Nat.add_0_r. repeat split; try assumption. constructor.
    - rewrite (checkLines_cons_ok _ _ _ Hv) in E'.
      destruct (IH _ E') as (k & t & L & Hk & Ht & Hpre).
      exists (S k), t. replace (S (n + S k)) with (S (S n + k)) by lia.
      repeat split; try assumption. simpl. constructor; assumption. }
  exact (G _ _ E).
Qed.

(** X14. Replay and the wire read a command alike: whenever the replay
    handler accepts a command line, the store it leaves is the store
    [handleCommand] leaves for the same text at the same instant. *)
Theorem handler_agrees_with_handleCommand clock command s n s' n' :
  handler clock command (s, n) = Ok (s', n') ->
  s' = snd (server.handleCommand command (clock n) s).
Proof.
  unfold handler, server.handleCommand.
  destruct (Fields command) as [|w ws].
  { simpl. intros E. inversion E. reflexivity. }
  simpl hd. simpl (length (w :: ws) =? 0)%nat. cbv iota.
  destruct (String.eqb (ToUpper w) "SET").
  - destruct (length (w :: ws) <? 3)%nat; [discriminate|].
    destruct (3 <? length (w :: ws))%nat.
    + destruct (time.ParseDuration _); intros E; inversion E; reflexivity.
    + intros E. inversion E. reflexivity.
  - destruct (String.eqb_spec (ToUpper w) "DELETE") as [D|D]; [|discriminate].
    rewrite D. change (String.eqb "DELETE" "GET") with false. cbv iota.
    destruct (negb (length (w :: ws) =? 2)%nat); [discriminate|].
    intros E. inversion E. reflexivity.
Qed.

End ConstructionFacts.

(** ** Further properties of [handleCommand] *)

Section WireFacts.

Context `{time.Pkg}.

Import strings persistence store session server.

(** X15. Only a command answered "OK" can change the store: whenever the
    reply is anything else (a value, "NIL", "1", "0" or an error), the store
    is left as it was. *)
Theorem handleCommand_changes_only_on_OK cmd now s :
  fst (handleCommand cmd now s) <> "OK" -> snd (handleCommand cmd now s) = s.
Proof.
  unfold handleCommand. destruct (length (Fields cmd) =? 0)%nat; [reflexivity|].
  destruct (String.eqb (ToUpper (hd "" (Fields cmd))) "SET").
  { destruct (length (Fields cmd) <? 3)%nat; [reflexivity|].
    destruct (3 <? length (Fields cmd))%nat;
      [destruct (time.ParseDuration _)|]; simpl; congruence. }
  destruct (String.eqb (ToUpper (hd "" (Fields cmd))) "GET").
  { destruct (negb _); [reflexivity|].
    destruct (Get _ now s) as [v e]. destruct (negb e); reflexivity. }
  destruct (String.eqb (ToUpper (hd "" (Fields cmd))) "DELETE").
  { destruct (negb _); [reflexivity|]. simpl. congruence. }
  destruct (String.eqb (ToUpper (hd "" (Fields cmd))) "EXISTS"); [|reflexivity].
  destruct (negb _); [reflexivity|]. destruct (store.Exists _ now s); reflexivity.
Qed.

Lemma handleCommand_Fields cmd1 cmd2 now s :
  Fields cmd1 = Fields cmd2 -> handleCommand cmd1 now s = handleCommand cmd2 now s.
Proof. intros E. unfold handleCommand. rewrite E. reflexivity. Qed.

(** X16. [handleCommand] looks at the fields of the command only, and at the
    command word without regard to case: two commands of ASCII bytes whose
    first words agree in upper case and whose remaining fields are the same
    get the same reply and leave the same store. *)
Theorem handleCommand_ignores_case_and_spacing cmd1 cmd2 w1 w2 rest now s :
  isASCII cmd1 = true -> isASCII cmd2 = true ->
  Fields cmd1 = w1 :: rest -> Fields cmd2 = w2 :: rest ->
  ToUpper w1 = ToUpper w2 ->
  handleCommand cmd1 now s = handleCommand cmd2 now s.
Proof.
  intros _ _ F1 F2 U. unfold handleCommand. rewrite F1, F2. simpl hd. rewrite U.
  destruct rest as [|a rest]; [reflexivity|].
  destruct rest as [|b rest]; [reflexivity|]. reflexivity.
Qed.

Lemma handleCommand_GET cmd word key now s :
  Fields cmd = [word; key] -> ToUpper word = "GET" ->
  fst (handleCommand cmd now s)
  = match Get key now s with
    | (_, false) => "NIL"
    | (Some v, true) => Sprintf_v v
    | (None, true) => "<nil>"
    end.
Proof.
  intros F U. unfold handleCommand. rewrite F. simpl. rewrite U. simpl.
  destruct (Get key now s) as [[v|] [|]]; reflexivity.
Qed.

Lemma handleCommand_SET cmd parts now s :
  Fields cmd = parts -> ToUpper (hd "" parts) = "SET" -> (3 <= length parts)%nat ->
  handleCommand cmd now s
  = ("OK",
     if (3 <? length parts)%nat then
       match time.ParseDuration (nth (length parts - 1) parts "") with
       | Some d =>
           Set_ (nth 1 parts "")
             (VString (Join (drop 2 (take (length parts - 1) parts)) " ")) d now s
       | None => Set_ (nth 1 parts "") (VString (Join (drop 2 parts) " ")) 0 now s
       end
     else Set_ (nth 1 parts "") (VString (Join (drop 2 parts) " ")) 0 now s).
Proof.
  intros F U L. unfold handleCommand. rewrite F, U.
  destruct (Nat.eqb_spec (length parts) 0); [lia|].
  destruct (Nat.ltb_spec (length parts) 3); [lia|]. simpl.
  destruct (3 <? length parts)%nat; [|reflexivity].
  destruct (time.ParseDuration _); reflexivity.
Qed.

(** X17. A wire SET of four or more tokens whose last token parses as a
    duration [d] stores the tokens between the key and the last one, joined
    by single spaces.  A later GET of the key is answered with that value if
    [d <= 0] (no expiration) or up to the instant [now + d], and with "NIL"
    after it.  Both commands are of ASCII bytes. *)
Theorem SET_with_ttl_then_GET set get parts g d now t s :
  isASCII set = true -> isASCII get = true ->
  Fields set = parts -> ToUpper (hd "" parts) = "SET" -> (4 <= length parts)%nat ->
  time.ParseDuration (nth (length parts - 1) parts "") = Some d ->
  Fields get = [g; nth 1 parts ""] -> ToUpper g = "GET" ->
  fst (handleCommand set now s) = "OK"
  /\ fst (handleCommand get t (snd (handleCommand set now s)))
     = (if (0 <? d) && (now + d <? t) then "NIL"
        else Join (drop 2 (take (length parts - 1) parts)) " ")
  /\ statements.singleSpaced (drop 2 (take (length parts - 1) parts))
       (Join (drop 2 (take (length parts - 1) parts)) " ").
Proof.
  intros _ _ F U L P G UG.
  rewrite (handleCommand_SET set parts now s F U) by lia.
  destruct (Nat.ltb_spec 3 (length parts)); [|lia]. rewrite P. simpl fst. simpl snd.
  split; [reflexivity|]. split.
  - rewrite (handleCommand_GET get g _ t _ G UG), Get_Set_same.
    destruct ((0 <? d) && (now + d <? t)); reflexivity.
  - apply singleSpaced_Join, Forall_drop, Forall_take. rewrite <- F.
    apply Fields_are_fields.
Qed.

(** X18. A wire SET that sets no TTL (exactly three tokens, whatever the
    third, or a last token that does not parse as a duration) followed by a
    GET of the key, at any instant, both of ASCII bytes: the reply is the
    tokens after the key, joined by single spaces. *)
Theorem SET_then_GET set get parts g now t s :
  isASCII set = true -> isASCII get = true ->
  Fields set = parts -> ToUpper (hd "" parts) = "SET" -> (3 <= length parts)%nat ->
  length parts = 3%nat \/ time.ParseDuration (nth (length parts - 1) parts "") = None ->
  Fields get = [g; nth 1 parts ""] -> ToUpper g = "GET" ->
  fst (handleCommand get t (snd (handleCommand set now s))) = Join (drop 2 parts) " "
  /\ statements.singleSpaced (drop 2 parts) (Join (drop 2 parts) " ").
Proof.
  intros _ _ F U L P G UG.
  split; [|apply singleSpaced_Join, Forall_drop; rewrite <- F; apply Fields_are_fields].
  rewrite (handleCommand_SET set parts now s F U L).
  assert (E : (if (3 <? length parts)%nat then
                 match time.ParseDuration (nth (length parts - 1) parts "") with
                 | Some d =>
                     Set_ (nth 1 parts "")
                       (VString (Join (drop 2 (take (length parts - 1) parts)) " "))
                       d now s
                 | None => Set_ (nth 1 parts "") (VString (Join (drop 2 parts) " ")) 0 now s
                 end
               else Set_ (nth 1 parts "") (VString (Join (drop 2 parts) " ")) 0 now s)
              = Set_ (nth 1 parts "") (VString (Join (drop 2 parts) " ")) 0 now s).
  { destruct P as [P|P]; [rewrite P; reflexivity|].
    rewrite P. destruct (3 <? length parts)%nat; reflexivity. }
  simpl snd. rewrite E, (handleCommand_GET get g _ t _ G UG), Get_Set_same. reflexivity.
Qed.

Lemma nth_of_fields (parts : list string) i :
  Forall (fun t => isField t = true) parts -> (i < length parts)%nat ->
  isField (nth i parts "") = true.
Proof.
  intros Hf. revert i. induction Hf as [|x l Hx Hl IH]; intros i Hi; simpl in Hi; [lia|].
  destruct i; [exact Hx|]. simpl. apply IH. lia.
Qed.

Lemma flatText_Join fs :
  fs <> [] -> Forall (fun t => isField t = true) fs -> flatText (Join fs " ") = true.
Proof.
  intros Hne Hf. unfold flatText. rewrite (Fields_Join _ Hf).
  destruct fs; [congruence|]. apply String.eqb_refl.
Qed.

Lemma handleCommand_noTrailingDuration_call cmd now s :
  statements.noTrailingDuration cmd = true ->
  snd (handleCommand cmd now s) = s
  \/ exists c, replayable c = true /\ snd (handleCommand cmd now s) = step c now s.
Proof.
  intros Hfree. unfold statements.noTrailingDuration in Hfree.
  pose proof (Fields_are_fields cmd) as Hf.
  unfold handleCommand. destruct (Fields cmd) as [|w ws] eqn:F; [left; reflexivity|].
  simpl (length (w :: ws) =? 0)%nat. cbv iota. simpl hd in *.
  destruct (String.eqb (ToUpper w) "SET") eqn:U.
  - destruct ws as [|k ws]; [left; reflexivity|].
    destruct ws as [|f rest]; [left; reflexivity|].
    change (length (w :: k :: f :: rest) <? 3)%nat with false. cbv iota.
    inversion Hf as [|? ? _ Hf1]; subst. inversion Hf1 as [|? ? Hk Hfs]; subst.
    assert (Hcall : replayable (CallSet k (VString (Join (f :: rest) " ")) 0) = true).
    { pose proof (flatText_Join (f :: rest) ltac:(discriminate) Hfs) as Hflat.
      pose proof (Fields_Join _ Hfs) as HF.
      unfold replayable. rewrite Hk, Hflat, HF. change (0 <? 0) with false.
      cbv iota. simpl andb.
      simpl in Hfree. destruct rest as [|r rest]; [reflexivity|].
      simpl in Hfree. simpl length. rewrite Nat.sub_0_r.
      change (S (length rest) <? 1)%nat with false in *. simpl orb.
      change (nth (S (length rest)) (f :: r :: rest) "")
        with (nth (length rest) (r :: rest) "").
      exact Hfree. }
    right. exists (CallSet k (VString (Join (f :: rest) " ")) 0).
    split; [exact Hcall|].
    simpl in Hfree. destruct rest as [|r rest]; [reflexivity|].
    change (3 <? length (w :: k :: f :: r :: rest))%nat with true. cbv iota.
    simpl in Hfree.
    replace (length (w :: k :: f :: r :: rest) - 1)%nat with (S (S (S (length rest))))
      by (simpl; lia).
    change (nth (S (S (S (length rest)))) (w :: k :: f :: r :: rest) "")
      with (nth (length rest) (r :: rest) "").
    destruct (time.ParseDuration (nth (length rest) (r :: rest) "")) eqn:P;
      [|reflexivity].
    exfalso. simpl in P. rewrite P in Hfree. discriminate.
  - destruct (String.eqb (ToUpper w) "GET").
    { left. destruct (negb (length (w :: ws) =? 2)%nat); [reflexivity|].
      destruct (Get _ now s) as [v e]. destruct (negb e); reflexivity. }
    destruct (String.eqb (ToUpper w) "DELETE").
    { destruct ws as [|k ws]; [left; reflexivity|].
      destruct ws as [|x ws]; [|left; reflexivity].
      right. exists (CallDelete k). split; [|reflexivity].
      simpl. inversion Hf as [|? ? _ Hf1]; subst. inversion Hf1; subst. assumption. }
    left. destruct (String.eqb (ToUpper w) "EXISTS"); [|reflexivity].
    destruct (negb (length (w :: ws) =? 2)%nat); [reflexivity|].
    destruct (store.Exists _ now s); reflexivity.
Qed.

Lemma consistent_serve cmds : forall s,
  Forall (fun c => statements.noTrailingDuration (fst c) = true) cmds -> consistent s ->
  consistent (statements.serve cmds s).
Proof.
  induction cmds as [|[cmd now] cmds IH]; intros s Hc Hs; [exact Hs|].
  inversion Hc as [|? ? Hfree Hrest]; subst. simpl in Hfree. simpl statements.serve.
  apply IH; [exact Hrest|].
  destruct (handleCommand_noTrailingDuration_call cmd now s Hfree) as [E|(c & Hcall & E)];
    rewrite E; [exact Hs|].
  apply consistent_step; assumption.
Qed.

(** X19. A server session in which no trailing token is read as a duration
    survives a restart.  Take a store constructed over a log of whole lines
    of ASCII bytes and any sequence of wire commands of ASCII bytes, none of
    which is a SET of more than three tokens whose last token parses as a
    duration (positive or not), that leaves a log whose lines are shorter
    than 64 KiB: constructing a new store over the log the session leaves
    succeeds, and its map agrees with the map of the session (the same keys
    and values; entries loaded with a TTL keep one). *)
Theorem wire_session_survives_restart aofFilename content clock s0 cmds clock' :
  aofFilename <> "" ->
  endsLF content = true ->
  isASCII content = true ->
  New aofFilename content clock = Ok s0 ->
  Forall (fun c => isASCII (fst c) = true) cmds ->
  Forall (fun c => statements.noTrailingDuration (fst c) = true) cmds ->
  fitsScanner (logOf (statements.serve cmds s0)) = true ->
  exists s',
    New aofFilename (logOf (statements.serve cmds s0)) clock' = Ok s'
    /\ sameItems (items s') (items (statements.serve cmds s0)).
Proof.
  intros Hname Hlf _ HNew _ Hcmds F. apply consistent_reopen; [exact Hname| |exact F].
  apply consistent_serve; [exact Hcmds|].
  exact (consistent_New _ _ _ _ Hname Hlf HNew).
Qed.

End WireFacts.

(** ** Properties of the draft store and of the draft [handleCommand] *)

Section DraftFacts.

Context `{time.Pkg}.

Import strings session logfile.

Lemma draft_items_recordCommand parts s :
  draft.items (draft.recordCommand parts s) = draft.items s.
Proof.
  unfold draft.recordCommand. destruct (draft.isLoading s); [reflexivity|].
  destruct (draft.persister s); reflexivity.
Qed.

Lemma draft_items_Set key value ttl now s :
  draft.items (draft.Set_ key value ttl now s)
  = <[key := store.mkItem value (if 0 <? ttl then Some (now + ttl) else None)]>
      (draft.items s).
Proof. unfold draft.Set_. rewrite draft_items_recordCommand. reflexivity. Qed.

Lemma draft_items_Delete key s :
  draft.items (draft.Delete key s) = delete key (draft.items s).
Proof.
  unfold draft.Delete. destruct (draft.items s !! key) eqn:E.
  - rewrite draft_items_recordCommand. reflexivity.
  - symmetry. apply delete_id. exact E.
Qed.

(** X20. In the draft, [Delete] records only a removal that happened: on a
    live store with a log, [Delete] of a key that has an entry appends the
    line [DELETE key], and [Delete] of a key without entry leaves the whole
    store, map and log, as it was. *)
Theorem draft_Delete_logs_only_removals key s content :
  draft.persister s = Some (draft.mkPersister (Some content)) ->
  draft.isLoading s = false ->
  draft.logOf (draft.Delete key s)
  = match draft.items s !! key with
    | Some _ => content +:+ Join ["DELETE"; key] " " +:+ String LF ""
    | None => content
    end
  /\ (draft.items s !! key = None -> draft.Delete key s = s).
Proof.
  intros P L. unfold draft.Delete, draft.logOf.
  destruct (draft.items s !! key).
  - unfold draft.recordCommand. simpl. rewrite L, P. simpl. split; [reflexivity|discriminate].
  - rewrite P. split; reflexivity.
Qed.

Lemma draft_loadLines_cons clock line rest s n :
  draft.loadLines clock (line :: rest) (s, n)
  = match parseParts line (Fields line) with
    | PSet key value ttl =>
        draft.loadLines clock rest
          (draft.Set_ key (store.VString value) ttl (clock n) s, S n)
    | PDelete key => draft.loadLines clock rest (draft.Delete key s, n)
    | PNothing => draft.loadLines clock rest (s, n)
    | PError _ => draft.loadLines clock rest (s, n)
    end.
Proof.
  simpl draft.loadLines. destruct (String.eqb_spec line "") as [->|_]; [reflexivity|].
  unfold parseParts. destruct (Fields line) as [|w ws]; [reflexivity|].
  simpl hd. simpl (length (w :: ws) =? 0)%nat. cbv iota.
  destruct (String.eqb (ToUpper w) "SET").
  - destruct (length (w :: ws) <? 3)%nat; [reflexivity|].
    destruct (3 <? length (w :: ws))%nat; [|reflexivity].
    destruct (time.ParseDuration _); reflexivity.
  - destruct (String.eqb (ToUpper w) "DELETE"); [|reflexivity].
    destruct (negb (length (w :: ws) =? 2)%nat); reflexivity.
Qed.

(** X21. The draft loader skips what it cannot read: loading a list of lines
    of ASCII bytes gives the same store (and reads the clock as often) as
    loading the list without the lines that violate the command grammar. *)
Theorem draft_loader_skips_violations clock lines :
  Forall (fun l => isASCII l = true) lines ->
  forall st,
    draft.loadLines clock lines st
    = draft.loadLines clock
        (List.filter (fun l => negb (violatesGrammar l)) lines) st.
Proof.
  intros _. induction lines as [|line rest IH]; intros [s n]; [reflexivity|].
  simpl List.filter. rewrite violatesGrammar_parseParts.
  destruct (parseParts line (Fields line)) eqn:P; simpl negb; cbv iota;
    rewrite !draft_loadLines_cons, ?P; apply IH.
Qed.

Lemma parseParts_command c1 c2 parts :
  match parseParts c1 parts with
  | PError _ => True
  | r => parseParts c2 parts = r
  end.
Proof.
  unfold parseParts. destruct parts as [|w ws]; [reflexivity|].
  destruct (String.eqb (ToUpper w) "SET").
  - destruct (length (w :: ws) <? 3)%nat; [exact I|].
    destruct (3 <? length (w :: ws))%nat; [|reflexivity].
    destruct (time.ParseDuration _); reflexivity.
  - destruct (String.eqb (ToUpper w) "DELETE"); [|exact I].
    destruct (negb (length (w :: ws) =? 2)%nat); [exact I|reflexivity].
Qed.

Lemma store_loadLines_cons {S : Type} (h : string -> S -> result S) text rest ln st :
  persistence.loadLines h (text :: rest) ln st
  = if String.eqb (TrimSpace text) "" then persistence.loadLines h rest (Datatypes.S ln) st
    else match h (TrimSpace text) st with
         | Err err => Err (ErrProcessing (Datatypes.S ln) err)
         | Ok st' => persistence.loadLines h rest (Datatypes.S ln) st'
         end.
Proof. reflexivity. Qed.

Lemma loaders_agree clock lines : forall ln n s1 s2 s1' n1,
  store.items s1 = draft.items s2 ->
  persistence.loadLines (store.handler clock) lines ln (s1, n) = Ok (s1', n1) ->
  store.items s1' = draft.items (fst (draft.loadLines clock lines (s2, n)))
  /\ n1 = snd (draft.loadLines clock lines (s2, n)).
Proof.
  induction lines as [|text rest IH]; intros ln n s1 s2 s1' n1 E L.
  - simpl in *. inversion L; subst. split; [exact E|reflexivity].
  - rewrite store_loadLines_cons in L. rewrite draft_loadLines_cons. revert L.
    destruct (String.eqb_spec (TrimSpace text) "") as [T|T]; intros L.
    + apply TrimSpace_empty_iff in T. rewrite T. simpl parseParts.
      exact (IH _ _ _ _ _ _ E L).
    + rewrite handler_parseParts, Fields_TrimSpace in L.
      pose proof (parseParts_command (TrimSpace text) text (Fields text)) as Hc.
      destruct (parseParts (TrimSpace text) (Fields text)) eqn:P; try discriminate;
        rewrite Hc.
      * apply (IH _ _ _ _ _ _) with (2 := L).
        rewrite items_Set, draft_items_Set, E. reflexivity.
      * apply (IH _ _ _ _ _ _) with (2 := L).
        rewrite items_Delete, draft_items_Delete, E. reflexivity.
      * exact (IH _ _ _ _ _ _ E L).
Qed.

(** X22. On a log that [store.New] accepts, the draft and [store.go] build
    the same map: whenever [store.New] returns a store, the draft [New] over
    the same file, with the same readings of the clock, holds the same
    entries. *)
Theorem draft_New_agrees_with_New aofFilename content clock s :
  store.New aofFilename content clock = Ok s ->
  draft.items (draft.New aofFilename content clock) = store.items s.
Proof.
  destruct (String.eqb_spec aofFilename "") as [->|Hname].
  { unfold store.New, draft.New. simpl. intros E. inversion E. reflexivity. }
  rewrite (New_with_log _ _ _ Hname).
  destruct (persistence.checkAOFIntegrity content); [discriminate|].
  unfold draft.New, draft.loadFromAOF.
  rewrite (proj2 (String.eqb_neq _ _) Hname). simpl negb. cbv iota.
  simpl store.setLoading.
  match goal with
  | |- context [persistence.loadLines ?h ?l ?ln (?s1, ?n)] =>
      destruct (persistence.loadLines h l ln (s1, n)) as [[s1' n1]|e] eqn:L;
        [|discriminate]
  end.
  intros E.
  match type of L with
  | persistence.loadLines _ _ _ (?s1, _) = _ =>
      destruct (loaders_agree clock _ _ _ s1
                  (draft.mkStore ∅ (Some (draft.mkPersister (Some content))) true)
                  _ _ eq_refl L) as [I _]
  end.
  transitivity (store.items s1'); [symmetry; exact I|].
  unfold store.setLoading in E. destruct (store.aof s1'); inversion E; reflexivity.
Qed.

(** X23. The draft [handleCommand] and the one of [server.go] agree on every
    command of ASCII bytes that is not a SET, on a SET of at most three
    tokens, and on a SET of four tokens whose fourth parses as a duration:
    same reply, same store. *)
Theorem draft_handleCommand_agrees cmd parts now s :
  isASCII cmd = true ->
  Fields cmd = parts ->
  ToUpper (hd "" parts) <> "SET"
  \/ (length parts <= 3)%nat
  \/ (length parts = 4%nat /\ time.ParseDuration (nth 3 parts "") <> None) ->
  draftserver.handleCommand cmd now s = server.handleCommand cmd now s.
Proof.
  intros _ F Hc. unfold draftserver.handleCommand, server.handleCommand. rewrite F.
  destruct (length parts =? 0)%nat; [reflexivity|].
  destruct (String.eqb_spec (ToUpper (hd "" parts)) "SET") as [U|U]; [|reflexivity].
  destruct Hc as [Hc|[Hc|[Hc P]]]; [contradiction| |].
  - destruct parts as [|w [|k [|v [|x rest]]]]; try reflexivity. simpl in Hc. lia.
  - destruct parts as [|w [|k [|v [|x [|y rest]]]]]; try discriminate. simpl in *.
    destruct (time.ParseDuration x); [reflexivity|congruence].
Qed.

End DraftFacts.

(** ** Properties of [handleConnection] and of the client *)

Section ConnectionFacts.

Context `{time.Pkg}.

Import strings store session.

Lemma requests_cons c rest :
  connection.requests (String c rest)
  = if isLF c then String c "" :: connection.requests rest
    else match connection.requests rest with
         | l :: ls => String c l :: ls
         | [] => []
         end.
Proof. reflexivity. Qed.

Lemma requests_nonempty a :
  endsLF a = true -> a <> "" -> connection.requests a <> [].
Proof.
  induction a as [|c a IH]; [congruence|]. intros E _. rewrite requests_cons.
  destruct (isLF c) eqn:Hc; [discriminate|].
  destruct a as [|d a]; [simpl in E; congruence|].
  assert (E' : endsLF (String d a) = true) by exact E.
  specialize (IH E' ltac:(discriminate)).
  destruct (connection.requests (String d a)); [congruence|discriminate].
Qed.

Lemma requests_app a b :
  endsLF a = true ->
  connection.requests (a +:+ b) = connection.requests a ++ connection.requests b.
Proof.
  induction a as [|c a IH]; [reflexivity|]. intros E. rewrite sapp_cons.
  rewrite (requests_cons c (a +:+ b)), (requests_cons c a).
  destruct a as [|d a].
  - simpl in E. rewrite E, sapp_nil_l. reflexivity.
  - assert (E' : endsLF (String d a) = true) by exact E.
    rewrite (IH E'). destruct (isLF c); [reflexivity|].
    pose proof (requests_nonempty _ E' ltac:(discriminate)) as Hne.
    destruct (connection.requests (String d a)); [congruence|reflexivity].
Qed.

Lemma requests_noLF t : noLF t = true -> connection.requests t = [].
Proof.
  induction t as [|c t IH]; [reflexivity|]. simpl noLF. intros E.
  apply andb_true_iff in E as [E1 E2]. rewrite requests_cons, (IH E2).
  destruct (isLF c); [discriminate|reflexivity].
Qed.

Lemma requests_line l :
  noLF l = true -> connection.requests (l +:+ String LF "") = [l +:+ String LF ""].
Proof.
  induction l as [|c l IH]; [reflexivity|]. simpl noLF. intros E.
  apply andb_true_iff in E as [E1 E2]. rewrite sapp_cons, requests_cons, (IH E2).
  destruct (isLF c); [discriminate|reflexivity].
Qed.

Lemma serveLines_shift clock lines : forall k n s,
  connection.serveLines clock lines (k + n) s
  = connection.serveLines (fun i => clock (k + i)%nat) lines n s.
Proof.
  induction lines as [|cmd rest IH]; intros k n s; [reflexivity|]. simpl.
  destruct (server.handleCommand (TrimSpace cmd) (clock (k + n)%nat) s) as [r s1].
  replace (S (k + n)) with (k + S n)%nat by lia. rewrite IH. reflexivity.
Qed.

Lemma serveLines_app clock l1 l2 : forall n s,
  connection.serveLines clock (l1 ++ l2) n s
  = let '(o1, s1) := connection.serveLines clock l1 n s in
    let '(o2, s2) := connection.serveLines clock l2 (length l1 + n) s1 in
    (o1 +:+ o2, s2).
Proof.
  induction l1 as [|cmd rest IH]; intros n s.
  - simpl. destruct (connection.serveLines clock l2 n s). reflexivity.
  - simpl. destruct (server.handleCommand (TrimSpace cmd) (clock n) s) as [r s1].
    rewrite IH. destruct (connection.serveLines clock rest (S n) s1) as [o1 s2].
    replace (length rest + S n)%nat with (S (length rest + n)) by lia.
    destruct (connection.serveLines clock l2 (S (length rest + n)) s2) as [o2 s3].
    rewrite !sapp_assoc. reflexivity.
Qed.

(** X24. Serving a connection is serving its input piece by piece: when the
    input is cut after a line feed, the output is the output for the first
    piece followed by the output for the second piece served from the store
    the first piece left, and the final store is the same. *)
Theorem handleConnection_in_pieces clock a b s :
  endsLF a = true ->
  connection.handleConnection clock (a +:+ b) s
  = let '(o1, s1) := connection.handleConnection clock a s in
    let '(o2, s2) :=
      connection.handleConnection
        (fun i => clock (length (connection.requests a) + i)%nat) b s1 in
    (o1 +:+ o2, s2).
Proof.
  intros E. unfold connection.handleConnection.
  rewrite (requests_app _ _ E), serveLines_app.
  destruct (connection.serveLines clock (connection.requests a) 0 s) as [o1 s1].
  rewrite serveLines_shift. reflexivity.
Qed.

(** X25. A command that is not terminated by a line feed when the input ends
    is never executed: bytes after the last line feed change neither the
    output nor the store. *)
Theorem handleConnection_drops_unterminated clock a tail s :
  endsLF a = true -> noLF tail = true ->
  connection.handleConnection clock (a +:+ tail) s
  = connection.handleConnection clock a s.
Proof.
  intros E T. unfold connection.handleConnection.
  rewrite (requests_app _ _ E), (requests_noLF _ T), app_nil_r. reflexivity.
Qed.

Lemma trimRight_app_LF a : trimRight (a +:+ String LF "") = trimRight a.
Proof.
  induction a as [|c a IH]; [reflexivity|]. rewrite sapp_cons. simpl. rewrite IH.
  reflexivity.
Qed.

Lemma TrimSpace_app_LF v : TrimSpace (v +:+ String LF "") = TrimSpace v.
Proof.
  unfold TrimSpace. induction v as [|c v IH]; [reflexivity|].
  rewrite sapp_cons. simpl trimLeft. destruct (isSpace c); [exact IH|].
  rewrite <- sapp_cons. apply trimRight_app_LF.
Qed.

Lemma Fields_app_LF v : Fields (v +:+ String LF "") = Fields v.
Proof. rewrite <- Fields_TrimSpace, TrimSpace_app_LF. apply Fields_TrimSpace. Qed.

Lemma readString_line l rest :
  noLF l = true ->
  client.readString (l +:+ String LF "" +:+ rest) = (l +:+ String LF "", rest).
Proof.
  induction l as [|c l IH]; [reflexivity|]. simpl noLF. intros E.
  apply andb_true_iff in E as [E1 E2].
  rewrite (sapp_cons c l (String LF "" +:+ rest)), (sapp_cons c l (String LF "")).
  change (client.readString (String c (l +:+ String LF "" +:+ rest)))
    with (if isLF c then (String c "", l +:+ String LF "" +:+ rest)
          else let '(line, remaining) :=
                 client.readString (l +:+ String LF "" +:+ rest) in
               (String c line, remaining)).
  destruct (isLF c); [discriminate|]. rewrite (IH E2). reflexivity.
Qed.

(** One exchange on a connection in step (nothing unread), for a command
    without line feed whose reply has none either. *)
Lemma executeCommand_in_step clock cmd c :
  client.reader c = "" -> noLF cmd = true ->
  noLF (fst (server.handleCommand cmd (clock (client.handled c)) (client.peer c))) = true ->
  client.executeCommand clock cmd c
  = (TrimSpace (fst (server.handleCommand cmd (clock (client.handled c)) (client.peer c))),
     client.mkClient
       (snd (server.handleCommand cmd (clock (client.handled c)) (client.peer c)))
       (client.handled c + 1) "").
Proof.
  intros R Hc Hr. unfold client.executeCommand. rewrite (requests_line _ Hc), R.
  simpl connection.serveLines.
  rewrite (handleCommand_Fields (TrimSpace (cmd +:+ String LF "")) cmd)
    by (rewrite Fields_TrimSpace; apply Fields_app_LF).
  destruct (server.handleCommand cmd (clock (client.handled c)) (client.peer c))
    as [r s1]. simpl fst in *. simpl snd.
  rewrite sapp_nil_l. rewrite (readString_line r "" Hr), TrimSpace_app_LF. reflexivity.
Qed.

Lemma handleCommand_parsed cmd now s :
  match parseParts cmd (Fields cmd) with
  | PSet key value ttl =>
      server.handleCommand cmd now s = ("OK", Set_ key (VString value) ttl now s)
  | PDelete key => server.handleCommand cmd now s = ("OK", Delete key s)
  | _ => True
  end.
Proof.
  unfold parseParts, server.handleCommand.
  destruct (Fields cmd) as [|w ws]; [exact I|].
  simpl hd. simpl (length (w :: ws) =? 0)%nat. cbv iota.
  destruct (String.eqb (ToUpper w) "SET").
  - destruct (length (w :: ws) <? 3)%nat; [exact I|].
    destruct (3 <? length (w :: ws))%nat; [|reflexivity].
    destruct (time.ParseDuration _); reflexivity.
  - destruct (String.eqb_spec (ToUpper w) "DELETE") as [D|D]; [|exact I].
    rewrite D. change (String.eqb "DELETE" "GET") with false. cbv iota.
    destruct (negb (length (w :: ws) =? 2)%nat); [exact I|reflexivity].
Qed.

Lemma handleCommand_EXISTS cmd word key now s :
  Fields cmd = [word; key] -> ToUpper word = "EXISTS" ->
  fst (server.handleCommand cmd now s) = if snd (Get key now s) then "1" else "0".
Proof.
  intros F U. unfold server.handleCommand. rewrite F. simpl. rewrite U. simpl.
  unfold store.Exists, Get. destruct (items s !! key) as [item|]; [|reflexivity].
  destruct (expired now item); reflexivity.
Qed.

Lemma command_fields word key :
  isField word = true -> isField key = true ->
  Fields (word +:+ " " +:+ key) = [word; key]
  /\ noLF (word +:+ " " +:+ key) = true.
Proof.
  intros Hw Hk.
  assert (Hf : Forall (fun t => isField t = true) [word; key]) by (repeat constructor; assumption).
  change (word +:+ " " +:+ key) with (Join [word; key] " ").
  split; [apply Fields_Join; exact Hf|apply plain_noLF, plain_Join; exact Hf].
Qed.

(** X26. Round trip through the client.  On a connection in step, [Set] of a
    key that is one field and a value in flat text, both of ASCII bytes,
    without TTL (the value not ending in a field that parses as a duration
    when it has several), returns no error and leaves the connection in
    step; the [Get] of the key that follows returns the value, except that
    the value "NIL" is returned as the empty string. *)
Theorem client_Set_then_Get clock key value ttl c :
  client.reader c = "" ->
  isASCII key = true -> isASCII value = true ->
  ttl <= 0 ->
  session.replayable (session.CallSet key (VString value) ttl) = true ->
  fst (client.Set_ clock key value ttl c) = None
  /\ client.reader (snd (client.Set_ clock key value ttl c)) = ""
  /\ fst (client.Get clock key (snd (client.Set_ clock key value ttl c)))
     = if String.eqb value "NIL" then "" else value.
Proof.
  intros R _ _ Httl Hcall.
  destruct (line_facts _ Hcall) as (Pl & T & _ & P & _).
  assert (Hfields : isField key = true /\ flatText value = true).
  { simpl in Hcall. apply andb_true_iff in Hcall as [Hc _].
    apply andb_true_iff in Hc. exact Hc. }
  destruct Hfields as [Hk Hv].
  assert (Z0 : (0 <? ttl) = false) by (apply Z.ltb_ge; exact Httl).
  assert (L : "SET " +:+ key +:+ " " +:+ value
              = Join (session.fieldsOf (session.CallSet key (VString value) ttl)) " ").
  { unfold session.fieldsOf. rewrite Z0. simpl Sprintf_v.
    rewrite <- (Join_parts_fields key value [] Hv) by eauto. reflexivity. }
  unfold session.parsedOf in P. rewrite Z0 in P. simpl Sprintf_v in P.
  set (cmd := "SET " +:+ key +:+ " " +:+ value) in *.
  rewrite <- L in Pl, T, P.
  pose proof (handleCommand_parsed cmd (clock (client.handled c)) (client.peer c)) as HS.
  rewrite P in HS.
  assert (E1 : client.executeCommand clock cmd c
               = ("OK", client.mkClient
                          (Set_ key (VString value) 0 (clock (client.handled c))
                             (client.peer c))
                          (client.handled c + 1) "")).
  { rewrite (executeCommand_in_step clock cmd c R (plain_noLF _ Pl));
      rewrite HS; reflexivity. }
  assert (E2 : client.Set_ clock key value ttl c
               = (None, client.mkClient
                          (Set_ key (VString value) 0 (clock (client.handled c))
                             (client.peer c))
                          (client.handled c + 1) "")).
  { unfold client.Set_. rewrite Z0. fold cmd. rewrite E1. reflexivity. }
  rewrite E2. simpl fst. simpl snd. split; [reflexivity|]. split; [reflexivity|].
  destruct (command_fields "GET" key eq_refl Hk) as [FG NG].
  change ("GET" +:+ " " +:+ key) with ("GET " +:+ key) in FG, NG.
  destruct (flatText_inv _ Hv) as [Hne Ej].
  assert (Pv : plain value = true)
    by (rewrite <- Ej; apply plain_Join, Fields_are_fields).
  assert (Tv : TrimSpace value = value).
  { rewrite <- Ej. apply TrimSpace_Join, Fields_are_fields. }
  set (c1 := client.mkClient _ _ _).
  assert (G : fst (server.handleCommand ("GET " +:+ key) (clock (client.handled c1))
                     (client.peer c1)) = value).
  { rewrite (handleCommand_GET _ "GET" key _ _ FG eq_refl).
    unfold c1. simpl client.peer. rewrite Get_Set_same. reflexivity. }
  unfold client.Get.
  rewrite (executeCommand_in_step clock ("GET " +:+ key) c1 eq_refl NG)
    by (rewrite G; apply plain_noLF; exact Pv).
  rewrite G, Tv. destruct (String.eqb value "NIL"); reflexivity.
Qed.

(** X27. What the client reports for a key the server does not find.  On a
    connection in step and for a key that is one field of ASCII bytes: [Get]
    returns the empty string, [Exists] returns false, and [Delete] returns no
    error. *)
Theorem client_on_missing_key clock key c :
  client.reader c = "" ->
  isASCII key = true ->
  isField key = true ->
  snd (Get key (clock (client.handled c)) (client.peer c)) = false ->
  fst (client.Get clock key c) = ""
  /\ fst (client.Exists clock key c) = false
  /\ fst (client.Delete clock key c) = None.
Proof.
  intros R _ Hk Hg.
  destruct (command_fields "GET" key eq_refl Hk) as [FG NG].
  destruct (command_fields "EXISTS" key eq_refl Hk) as [FE NE].
  destruct (command_fields "DELETE" key eq_refl Hk) as [FD ND].
  change ("GET" +:+ " " +:+ key) with ("GET " +:+ key) in FG, NG.
  change ("EXISTS" +:+ " " +:+ key) with ("EXISTS " +:+ key) in FE, NE.
  change ("DELETE" +:+ " " +:+ key) with ("DELETE " +:+ key) in FD, ND.
  assert (G : fst (server.handleCommand ("GET " +:+ key) (clock (client.handled c))
                     (client.peer c)) = "NIL").
  { rewrite (handleCommand_GET _ "GET" key _ _ FG eq_refl).
    destruct (Get key _ _) as [[v|] e]; simpl in Hg; rewrite Hg; reflexivity. }
  assert (E : fst (server.handleCommand ("EXISTS " +:+ key) (clock (client.handled c))
                     (client.peer c)) = "0").
  { rewrite (handleCommand_EXISTS _ "EXISTS" key _ _ FE eq_refl), Hg. reflexivity. }
  assert (D : fst (server.handleCommand ("DELETE " +:+ key) (clock (client.handled c))
                     (client.peer c)) = "OK").
  { pose proof (handleCommand_parsed ("DELETE " +:+ key) (clock (client.handled c))
                  (client.peer c)) as HD.
    rewrite FD in HD. simpl in HD. rewrite HD. reflexivity. }
  unfold client.Get, client.Exists, client.Delete.
  rewrite (executeCommand_in_step clock _ c R NG) by (rewrite G; reflexivity).
  rewrite (executeCommand_in_step clock _ c R NE) by (rewrite E; reflexivity).
  rewrite (executeCommand_in_step clock _ c R ND) by (rewrite D; reflexivity).
  rewrite G, E, D. repeat split; reflexivity.
Qed.

End ConnectionFacts.

(** ** The code on concrete inputs, with Go's [time] package *)

#[local] Existing Instance time.gotime.

Import strings persistence store session server logfile.

(** C1, counterexample.  (a) After [Set("k", "v", 5)] at instant 0 the key is
    logically absent at instant 10 ([Get] finds nothing), yet [Delete("k")]
    changes the map: it removes the entry that is still stored.  (b) On a
    freshly constructed store with persistence, [Delete] of a key that has no
    entry appends the line [DELETE k] to the log. *)
Lemma Delete_absent_key_counterexample :
  (Get "k" 10 (Set_ "k" (VString "v") 5 0 (mkStore ∅ None)) = (None, false)
   /\ items (Set_ "k" (VString "v") 5 0 (mkStore ∅ None)) !! "k"
      = Some (mkItem (VString "v") (Some 5))
   /\ items (Delete "k" (Set_ "k" (VString "v") 5 0 (mkStore ∅ None))) !! "k" = None)
  /\ (New "aof.log" "" (fun _ => 0) = Ok (mkStore ∅ (Some (mkAOF (Some "") false)))
      /\ Get "k" 10 (mkStore ∅ (Some (mkAOF (Some "") false))) = (None, false)
      /\ logOf (mkStore ∅ (Some (mkAOF (Some "") false))) = ""
      /\ logOf (Delete "k" (mkStore ∅ (Some (mkAOF (Some "") false))))
         = "DELETE k" +:+ newline).
Proof. vm_compute. repeat split; reflexivity. Qed.

Lemma Delete_absent_keeps_map_and_Set_is_logged_witness :
  items (mkStore ∅ (Some (mkAOF (Some "") false))) !! "k" = None
  /\ aof (mkStore ∅ (Some (mkAOF (Some "") false))) = Some (mkAOF (Some "") false)
  /\ items (Delete "k" (mkStore ∅ (Some (mkAOF (Some "") false))))
     = items (mkStore ∅ (Some (mkAOF (Some "") false)))
  /\ logOf (Set_ "k" (VString "v") 0 7 (mkStore ∅ (Some (mkAOF (Some "") false))))
     = "" +:+ Join (["SET"; "k"; Sprintf_v (VString "v")]
                    ++ (if 0 <? 0 then [time.Duration_String 0] else [])) " "
       +:+ String LF "".
Proof.
  split; [reflexivity|]. split; [reflexivity|].
  apply (Delete_absent_keeps_map_and_Set_is_logged "k" (VString "v") 0 7
           (mkStore ∅ (Some (mkAOF (Some "") false))) ""); reflexivity.
Defined.

(** C2, counterexample.  On a freshly constructed store with persistence:
    (a) after [Set("k", "", 0)] the key is present, but the log holds the line
    [SET k ] and constructing a store over it fails; (b) after
    [Set("k", "a  b", 0)] (two spaces) the store constructed over the log
    holds the value [a b] (one space) for the key; (c) after
    [Set("k", "v", 5)] at instant 10 the key has expired at instant 50, but
    the store constructed over the log at instant 100 counts the TTL from
    there and finds the key at instant 50: the expiration of an entry is not
    reconstructed, only that it has one; (d) after [Set("k", v, 0)] with a
    value [v] of 65536 bytes [x] the key is present, but the line logged for
    it is longer than the scanner's buffer and constructing a store over the
    log fails. *)
Lemma reopen_counterexample :
  New "aof.log" "" (fun _ => 0) = Ok (mkStore ∅ (Some (mkAOF (Some "") false)))
  /\ (Get "k" 2 (run [(CallSet "k" (VString "") 0, 1)]
                   (mkStore ∅ (Some (mkAOF (Some "") false))))
      = (Some (VString ""), true)
      /\ New "aof.log"
           (logOf (run [(CallSet "k" (VString "") 0, 1)]
                     (mkStore ∅ (Some (mkAOF (Some "") false)))))
           (fun _ => 0)
         = Err (ErrInitAOF (ErrIntegrity (ErrInvalidSetAt 1 "SET k"))))
  /\ (Get "k" 2 (run [(CallSet "k" (VString "a  b") 0, 1)]
                   (mkStore ∅ (Some (mkAOF (Some "") false))))
      = (Some (VString "a  b"), true)
      /\ exists s',
           New "aof.log"
             (logOf (run [(CallSet "k" (VString "a  b") 0, 1)]
                       (mkStore ∅ (Some (mkAOF (Some "") false)))))
             (fun _ => 0)
           = Ok s'
           /\ Get "k" 2 s' = (Some (VString "a b"), true))
  /\ (Get "k" 50 (run [(CallSet "k" (VString "v") 5, 10)]
                    (mkStore ∅ (Some (mkAOF (Some "") false))))
      = (None, false)
      /\ exists s',
           New "aof.log"
             (logOf (run [(CallSet "k" (VString "v") 5, 10)]
                       (mkStore ∅ (Some (mkAOF (Some "") false)))))
             (fun _ => 100)
           = Ok s'
           /\ items s' !! "k" = Some (mkItem (VString "v") (Some 105))
           /\ Get "k" 50 s' = (Some (VString "v"), true))
  /\ (replayable (CallSet "k" (VString (statements.bytes "x" (N.to_nat 65536))) 0) = true
      /\ Get "k" 2 (run [(CallSet "k" (VString (statements.bytes "x" (N.to_nat 65536))) 0, 1)]
                      (mkStore ∅ (Some (mkAOF (Some "") false))))
         = (Some (VString (statements.bytes "x" (N.to_nat 65536))), true)
      /\ New "aof.log"
           (logOf (run [(CallSet "k" (VString (statements.bytes "x" (N.to_nat 65536))) 0, 1)]
                     (mkStore ∅ (Some (mkAOF (Some "") false)))))
           (fun _ => 0)
         = Err (ErrInitAOF (ErrIntegrity (ErrScanning ErrTooLong)))).
Proof.
  split; [reflexivity|]. split; [split; vm_compute; reflexivity|]. split; [|split].
  - split; [vm_compute; reflexivity|].
    eexists. split; [vm_compute; reflexivity|]. vm_compute. reflexivity.
  - split; [vm_compute; reflexivity|].
    eexists. split; [vm_compute; reflexivity|]. split; vm_compute; reflexivity.
  - assert (N : "aof.log" <> "") by discriminate.
    assert (Hn : N.to_nat 65536 <> 0%nat) by lia.
    assert (Hv : isField (statements.bytes "x" (N.to_nat 65536)) = true)
      by (apply isField_bytes; [reflexivity|exact Hn]).
    assert (Ht : tooLong (statements.bytes "x" (N.to_nat 65536)) = true)
      by (unfold tooLong; rewrite length_bytes, N2Nat.id; reflexivity).
    exact (long_value_breaks_reopen "aof.log" "k" (statements.bytes "x" (N.to_nat 65536))
             1 2 (fun _ => 0) N eq_refl Hv Ht).
Qed.

Lemma reopen_reconstructs_session_witness :
  "aof.log" <> ""
  /\ endsLF "" = true
  /\ New "aof.log" "" (fun _ => 0) = Ok (mkStore ∅ (Some (mkAOF (Some "") false)))
  /\ Forall (fun c => replayable (fst c) = true)
       [(CallSet "a" (VString "hello world") 0, 10);
        (CallSet "b" (VString "x") 5000000000, 20);
        (CallDelete "a", 30)]
  /\ logOf (run [(CallSet "a" (VString "hello world") 0, 10);
                 (CallSet "b" (VString "x") 5000000000, 20);
                 (CallDelete "a", 30)]
              (mkStore ∅ (Some (mkAOF (Some "") false))))
     = "SET a hello world" +:+ newline +:+ "SET b x 5s" +:+ newline
       +:+ "DELETE a" +:+ newline
  /\ isASCII (logOf (run [(CallSet "a" (VString "hello world") 0, 10);
                          (CallSet "b" (VString "x") 5000000000, 20);
                          (CallDelete "a", 30)]
                       (mkStore ∅ (Some (mkAOF (Some "") false))))) = true
  /\ fitsScanner (logOf (run [(CallSet "a" (VString "hello world") 0, 10);
                              (CallSet "b" (VString "x") 5000000000, 20);
                              (CallDelete "a", 30)]
                           (mkStore ∅ (Some (mkAOF (Some "") false))))) = true
  /\ exists s',
       New "aof.log"
         (logOf (run [(CallSet "a" (VString "hello world") 0, 10);
                      (CallSet "b" (VString "x") 5000000000, 20);
                      (CallDelete "a", 30)]
                   (mkStore ∅ (Some (mkAOF (Some "") false)))))
         (fun _ => 100)
       = Ok s'
       /\ sameItems (items s')
            (items (run [(CallSet "a" (VString "hello world") 0, 10);
                         (CallSet "b" (VString "x") 5000000000, 20);
                         (CallDelete "a", 30)]
                      (mkStore ∅ (Some (mkAOF (Some "") false)))))
       /\ (forall key t,
            (forall item,
               items (run [(CallSet "a" (VString "hello world") 0, 10);
                              (CallSet "b" (VString "x") 5000000000, 20);
                              (CallDelete "a", 30)]
                           (mkStore ∅ (Some (mkAOF (Some "") false)))) !! key = Some item ->
               Expiration item = None) ->
            Get key t s'
            = Get key t (run [(CallSet "a" (VString "hello world") 0, 10);
                              (CallSet "b" (VString "x") 5000000000, 20);
                              (CallDelete "a", 30)]
                           (mkStore ∅ (Some (mkAOF (Some "") false))))
            /\ store.Exists key t s'
               = store.Exists key t
                   (run [(CallSet "a" (VString "hello world") 0, 10);
                              (CallSet "b" (VString "x") 5000000000, 20);
                              (CallDelete "a", 30)]
                           (mkStore ∅ (Some (mkAOF (Some "") false)))))
       /\ (forall key t,
            (forall item, items s' !! key = Some item -> expired t item = false) ->
            (forall item,
               items (run [(CallSet "a" (VString "hello world") 0, 10);
                              (CallSet "b" (VString "x") 5000000000, 20);
                              (CallDelete "a", 30)]
                           (mkStore ∅ (Some (mkAOF (Some "") false)))) !! key = Some item ->
               expired t item = false) ->
            Get key t s'
            = Get key t (run [(CallSet "a" (VString "hello world") 0, 10);
                              (CallSet "b" (VString "x") 5000000000, 20);
                              (CallDelete "a", 30)]
                           (mkStore ∅ (Some (mkAOF (Some "") false))))
            /\ store.Exists key t s'
               = store.Exists key t
                   (run [(CallSet "a" (VString "hello world") 0, 10);
                              (CallSet "b" (VString "x") 5000000000, 20);
                              (CallDelete "a", 30)]
                           (mkStore ∅ (Some (mkAOF (Some "") false))))).
Proof.
  assert (N : "aof.log" <> "") by discriminate.
  assert (C : Forall (fun c => replayable (fst c) = true)
                [(CallSet "a" (VString "hello world") 0, 10);
                 (CallSet "b" (VString "x") 5000000000, 20);
                 (CallDelete "a", 30)])
    by (repeat constructor).
  split; [exact N|]. split; [reflexivity|]. split; [reflexivity|]. split; [exact C|].
  split; [reflexivity|]. split; [reflexivity|]. split; [reflexivity|].
  exact (reopen_reconstructs_session "aof.log" "" (fun _ => 0)
           (mkStore ∅ (Some (mkAOF (Some "") false))) _ (fun _ => 100)
           N eq_refl eq_refl C eq_refl eq_refl).
Defined.

(** C3, counterexample.  (a) The log [BOGUS x / SET a 1]: [Load] returns an
    error (the unknown command of line 1 fails the integrity check that
    [Load] runs first), and so does the construction of the store; the
    well-formed line 2 is not applied.  (b) The log of the one line
    [SET k v], with a value [v] of 65536 bytes [x]: the line does not violate
    the grammar, yet [Load] returns an error, that of the scanner. *)
Lemma Load_malformed_line_counterexample :
  Load setLoading "aof.log" ("BOGUS x" +:+ newline +:+ "SET a 1" +:+ newline)
    (handler (fun _ => 0))
    (mkStore ∅ (Some (mkAOF (Some ("BOGUS x" +:+ newline +:+ "SET a 1" +:+ newline))
                        false)), 0%nat)
  = Err (ErrIntegrityBeforeLoad (ErrUnknownAt 1 "BOGUS"))
  /\ New "aof.log" ("BOGUS x" +:+ newline +:+ "SET a 1" +:+ newline) (fun _ => 0)
     = Err (ErrInitAOF (ErrIntegrity (ErrUnknownAt 1 "BOGUS")))
  /\ violatesGrammar ("SET k " +:+ (statements.bytes "x" (N.to_nat 65536))) = false
  /\ Load setLoading "aof.log"
       (("SET k " +:+ (statements.bytes "x" (N.to_nat 65536))) +:+ newline)
       (handler (fun _ => 0)) (mkStore ∅ (Some (mkAOF (Some "") false)), 0%nat)
     = Err (ErrIntegrityBeforeLoad (ErrScanning ErrTooLong)).
Proof.
  split; [vm_compute; reflexivity|]. split; [vm_compute; reflexivity|].
  assert (N : "aof.log" <> "") by discriminate.
  assert (Hn : N.to_nat 65536 <> 0%nat) by lia.
  assert (Hv : isField (statements.bytes "x" (N.to_nat 65536)) = true)
    by (apply isField_bytes; [reflexivity|exact Hn]).
  assert (Ht : tooLong (statements.bytes "x" (N.to_nat 65536)) = true)
    by (unfold tooLong; rewrite length_bytes, N2Nat.id; reflexivity).
  split.
  - exact (proj1 (proj2 (long_line_is_not_read "k" (statements.bytes "x" (N.to_nat 65536))
                           eq_refl Hv Ht))).
  - exact (Load_rejects_long_line "aof.log" "k" (statements.bytes "x" (N.to_nat 65536))
             (fun _ => 0) (mkStore ∅ (Some (mkAOF (Some "") false)), 0%nat)
             N eq_refl Hv Ht).
Qed.

Lemma Load_applies_all_or_rejects_witness :
  "aof.log" <> ""
  /\ (isASCII ("  " +:+ newline +:+ "SET a 1" +:+ newline +:+ "delete b" +:+ newline) = true
      /\ fitsScanner ("  " +:+ newline +:+ "SET a 1" +:+ newline +:+ "delete b" +:+ newline) = true
      /\ Forall (fun l => violatesGrammar l = false)
           (ScanLines ("  " +:+ newline +:+ "SET a 1" +:+ newline +:+ "delete b" +:+ newline))
      /\ commands
           (ScanLines ("  " +:+ newline +:+ "SET a 1" +:+ newline +:+ "delete b" +:+ newline))
         = ["SET a 1"; "delete b"]
      /\ exists st',
           applyAll (handler (fun _ => 0))
             (commands
                (ScanLines
                   ("  " +:+ newline +:+ "SET a 1" +:+ newline +:+ "delete b" +:+ newline)))
             (setLoading true (mkStore ∅ (Some (mkAOF (Some "") false)), 0%nat)) = Ok st'
           /\ Load setLoading "aof.log"
                ("  " +:+ newline +:+ "SET a 1" +:+ newline +:+ "delete b" +:+ newline)
                (handler (fun _ => 0)) (mkStore ∅ (Some (mkAOF (Some "") false)), 0%nat)
              = Ok (setLoading false st'))
  /\ (isASCII ("SET a 1" +:+ newline +:+ "BOGUS x" +:+ newline) = true
      /\ List.Exists (fun l => violatesGrammar l = true)
           (ScanLines ("SET a 1" +:+ newline +:+ "BOGUS x" +:+ newline))
      /\ exists err,
           Load setLoading "aof.log" ("SET a 1" +:+ newline +:+ "BOGUS x" +:+ newline)
             (handler (fun _ => 0)) (mkStore ∅ (Some (mkAOF (Some "") false)), 0%nat)
           = Err (ErrIntegrityBeforeLoad err)).
Proof.
  assert (N : "aof.log" <> "") by discriminate.
  assert (F : Forall (fun l => violatesGrammar l = false)
                (ScanLines ("  " +:+ newline +:+ "SET a 1" +:+ newline +:+ "delete b" +:+ newline)))
    by (repeat constructor).
  assert (E : List.Exists (fun l => violatesGrammar l = true)
                (ScanLines ("SET a 1" +:+ newline +:+ "BOGUS x" +:+ newline)))
    by (apply Exists_cons_tl, Exists_cons_hd; reflexivity).
  split; [exact N|]. split.
  - split; [reflexivity|]. split; [reflexivity|]. split; [exact F|].
    split; [reflexivity|].
    exact (proj1 (Load_applies_all_or_rejects "aof.log"
                    ("  " +:+ newline +:+ "SET a 1" +:+ newline +:+ "delete b" +:+ newline)
                    (fun _ => 0) (mkStore ∅ (Some (mkAOF (Some "") false)), 0%nat)
                    N eq_refl) eq_refl F).
  - split; [reflexivity|]. split; [exact E|].
    exact (proj2 (Load_applies_all_or_rejects "aof.log"
                    ("SET a 1" +:+ newline +:+ "BOGUS x" +:+ newline) (fun _ => 0)
                    (mkStore ∅ (Some (mkAOF (Some "") false)), 0%nat) N eq_refl) E).
Defined.

Lemma New_rejects_grammar_violation_witness :
  "aof.log" <> ""
  /\ isASCII ("SET a 1" +:+ newline +:+ "DELETE" +:+ newline) = true
  /\ List.Exists (fun l => violatesGrammar l = true)
       (ScanLines ("SET a 1" +:+ newline +:+ "DELETE" +:+ newline))
  /\ exists err,
       persistence.New "aof.log" ("SET a 1" +:+ newline +:+ "DELETE" +:+ newline)
       = Err (ErrIntegrity err)
       /\ store.New "aof.log" ("SET a 1" +:+ newline +:+ "DELETE" +:+ newline)
            (fun _ => 0)
          = Err (ErrInitAOF (ErrIntegrity err)).
Proof.
  assert (N : "aof.log" <> "") by discriminate.
  assert (E : List.Exists (fun l => violatesGrammar l = true)
                (ScanLines ("SET a 1" +:+ newline +:+ "DELETE" +:+ newline)))
    by (apply Exists_cons_tl, Exists_cons_hd; reflexivity).
  split; [exact N|]. split; [reflexivity|]. split; [exact E|].
  exact (New_rejects_grammar_violation "aof.log"
           ("SET a 1" +:+ newline +:+ "DELETE" +:+ newline) (fun _ => 0)
           N eq_refl E).
Defined.

(** C5, counterexample.  [Set("b", "x", 50)] at instant 100: at the instant
    [100 + 50] itself [Get("b")] still returns [("x", true)]. *)
Lemma Get_at_expiration_instant_counterexample :
  0 < 50
  /\ Get "b" (100 + 50) (Set_ "b" (VString "x") 50 100 (mkStore ∅ None))
     = (Some (VString "x"), true).
Proof. split; [reflexivity|]. vm_compute. reflexivity. Qed.

Lemma Get_after_Set_with_ttl_witness :
  0 < 50
  /\ (150 <= 100 + 50 ->
      Get "b" 150 (Set_ "b" (VString "x") 50 100 (mkStore ∅ None))
      = (Some (VString "x"), true))
  /\ (100 + 50 < 150 ->
      Get "b" 150 (Set_ "b" (VString "x") 50 100 (mkStore ∅ None)) = (None, false)).
Proof.
  assert (P : 0 < 50) by reflexivity.
  split; [exact P|].
  exact (Get_after_Set_with_ttl "b" (VString "x") 50 100 (mkStore ∅ None) 150 P).
Defined.

(** C6, counterexample.  An entry whose expiration is the instant 5 is still
    in the map after [DeleteExpired] has run at the instant 5. *)
Lemma DeleteExpired_at_expiration_instant_counterexample :
  items (Set_ "k" (VString "v") 5 0 (mkStore ∅ None)) !! "k"
  = Some (mkItem (VString "v") (Some 5))
  /\ 5 <= 5
  /\ items (DeleteExpired 5 (Set_ "k" (VString "v") 5 0 (mkStore ∅ None))) !! "k"
     = Some (mkItem (VString "v") (Some 5)).
Proof. split; [vm_compute; reflexivity|]. split; [lia|]. vm_compute. reflexivity. Qed.

Lemma Set_without_ttl_is_permanent_witness :
  0 <= 0
  /\ Forall (fun c => writes "k" (fst c) = false)
       [(CallSet "other" (VString "w") 5, 1); (CallDeleteExpired, 1000);
        (CallDelete "x", 2000)]
  /\ (let s' := run [(CallSet "other" (VString "w") 5, 1); (CallDeleteExpired, 1000);
                     (CallDelete "x", 2000)]
                  (Set_ "k" (VString "v") 0 0 (mkStore ∅ None)) in
      items s' !! "k" = Some (mkItem (VString "v") None)
      /\ Get "k" 3000 s' = (Some (VString "v"), true)
      /\ items (DeleteExpired 3000 s') !! "k" = Some (mkItem (VString "v") None)
      /\ Get "k" 3000 (Delete "k" s') = (None, false)).
Proof.
  assert (P : 0 <= 0) by lia.
  assert (C : Forall (fun c => writes "k" (fst c) = false)
                [(CallSet "other" (VString "w") 5, 1); (CallDeleteExpired, 1000);
                 (CallDelete "x", 2000)])
    by (repeat constructor).
  split; [exact P|]. split; [exact C|].
  exact (Set_without_ttl_is_permanent "k" (VString "v") 0 0 (mkStore ∅ None) _ 3000 P C).
Defined.

Lemma SET_unparsable_trailing_token_is_value_witness :
  isASCII "SET greeting hello world" = true
  /\ Fields "SET greeting hello world" = ["SET"; "greeting"; "hello"; "world"]
  /\ ToUpper (hd "" ["SET"; "greeting"; "hello"; "world"]) = "SET"
  /\ (3 <= length ["SET"; "greeting"; "hello"; "world"])%nat
  /\ time.ParseDuration (nth (length ["SET"; "greeting"; "hello"; "world"] - 1)
                           ["SET"; "greeting"; "hello"; "world"] "") = None
  /\ handleCommand "SET greeting hello world" 0 (mkStore ∅ None)
     = ("OK", Set_ "greeting" (VString "hello world") 0 0 (mkStore ∅ None))
  /\ items (snd (handleCommand "SET greeting hello world" 0 (mkStore ∅ None)))
       !! "greeting"
     = Some (mkItem (VString "hello world") None)
  /\ statements.singleSpaced ["hello"; "world"] "hello world".
Proof.
  assert (L : (3 <= length ["SET"; "greeting"; "hello"; "world"])%nat) by (simpl; lia).
  split; [reflexivity|]. split; [reflexivity|]. split; [reflexivity|]. split; [exact L|].
  split; [reflexivity|].
  exact (SET_unparsable_trailing_token_is_value "SET greeting hello world"
           ["SET"; "greeting"; "hello"; "world"] 0 (mkStore ∅ None)
           eq_refl eq_refl eq_refl L eq_refl).
Defined.

(** *** Instances of the further properties *)

Lemma Exists_agrees_with_Get_witness :
  snd (Get "k" 10 (Set_ "k" (VString "v") 5 0 (mkStore ∅ None))) = false
  /\ store.Exists "k" 10 (Set_ "k" (VString "v") 5 0 (mkStore ∅ None)) = false
  /\ fst (Get "k" 10 (Set_ "k" (VString "v") 5 0 (mkStore ∅ None))) = None.
Proof.
  assert (G : snd (Get "k" 10 (Set_ "k" (VString "v") 5 0 (mkStore ∅ None))) = false)
    by (vm_compute; reflexivity).
  split; [exact G|]. split.
  - exact (eq_trans
             (proj1 (Exists_agrees_with_Get "k" 10
                       (Set_ "k" (VString "v") 5 0 (mkStore ∅ None)))) G).
  - exact (proj2 (Exists_agrees_with_Get "k" 10
                    (Set_ "k" (VString "v") 5 0 (mkStore ∅ None))) G).
Defined.

Lemma writes_leave_other_keys_witness :
  "a" <> "b"
  /\ (Get "b" 5 (Set_ "a" (VString "v") 0 1 (mkStore ∅ None)) = Get "b" 5 (mkStore ∅ None)
      /\ store.Exists "b" 5 (Set_ "a" (VString "v") 0 1 (mkStore ∅ None))
         = store.Exists "b" 5 (mkStore ∅ None)
      /\ Get "b" 5 (Delete "a" (mkStore ∅ None)) = Get "b" 5 (mkStore ∅ None)
      /\ store.Exists "b" 5 (Delete "a" (mkStore ∅ None))
         = store.Exists "b" 5 (mkStore ∅ None)).
Proof.
  assert (N : "a" <> "b") by discriminate. split; [exact N|].
  exact (writes_leave_other_keys "a" "b" (VString "v") 0 1 (mkStore ∅ None) 5 N).
Defined.

Lemma DeleteExpired_invisible_witness :
  3 <= 5
  /\ (Get "k" 5 (DeleteExpired 3 (Set_ "k" (VString "v") 1 0 (mkStore ∅ None)))
      = Get "k" 5 (Set_ "k" (VString "v") 1 0 (mkStore ∅ None))
      /\ store.Exists "k" 5 (DeleteExpired 3 (Set_ "k" (VString "v") 1 0 (mkStore ∅ None)))
         = store.Exists "k" 5 (Set_ "k" (VString "v") 1 0 (mkStore ∅ None))).
Proof.
  assert (P : 3 <= 5) by lia. split; [exact P|].
  exact (DeleteExpired_invisible "k" 3 5 (Set_ "k" (VString "v") 1 0 (mkStore ∅ None)) P).
Defined.

Lemma DeleteExpired_twice_witness :
  3 <= 5
  /\ (items (DeleteExpired 5 (DeleteExpired 3 (Set_ "k" (VString "v") 1 0 (mkStore ∅ None))))
      = items (DeleteExpired 5 (Set_ "k" (VString "v") 1 0 (mkStore ∅ None)))
      /\ items (DeleteExpired 3 (DeleteExpired 5 (Set_ "k" (VString "v") 1 0 (mkStore ∅ None))))
         = items (DeleteExpired 5 (Set_ "k" (VString "v") 1 0 (mkStore ∅ None)))).
Proof.
  assert (P : 3 <= 5) by lia. split; [exact P|].
  exact (DeleteExpired_twice 3 5 (Set_ "k" (VString "v") 1 0 (mkStore ∅ None)) P).
Defined.

Lemma Get_not_found_later_witness :
  3 <= 5
  /\ snd (Get "k" 3 (Set_ "k" (VString "v") 1 0 (mkStore ∅ None))) = false
  /\ snd (Get "k" 5 (Set_ "k" (VString "v") 1 0 (mkStore ∅ None))) = false.
Proof.
  assert (P : 3 <= 5) by lia.
  assert (G : snd (Get "k" 3 (Set_ "k" (VString "v") 1 0 (mkStore ∅ None))) = false)
    by (vm_compute; reflexivity).
  split; [exact P|]. split; [exact G|].
  exact (Get_not_found_later "k" 3 5 (Set_ "k" (VString "v") 1 0 (mkStore ∅ None)) P G).
Defined.

Lemma map_independent_of_log_witness :
  items (mkStore ∅ None) = items (mkStore ∅ (Some (mkAOF (Some "") false)))
  /\ items (run [(CallSet "a" (VString "v") 0, 1)] (mkStore ∅ None))
     = items (run [(CallSet "a" (VString "v") 0, 1)]
                (mkStore ∅ (Some (mkAOF (Some "") false)))).
Proof.
  split; [reflexivity|].
  exact (map_independent_of_log [(CallSet "a" (VString "v") 0, 1)]
           (mkStore ∅ None) (mkStore ∅ (Some (mkAOF (Some "") false))) eq_refl).
Defined.

Lemma New_keeps_log_witness :
  "aof.log" <> ""
  /\ New "aof.log" ("SET a 1" +:+ newline) (fun _ => 0)
     = Ok (mkStore (<["a" := mkItem (VString "1") None]> ∅)
             (Some (mkAOF (Some ("SET a 1" +:+ newline)) false)))
  /\ (aof (mkStore (<["a" := mkItem (VString "1") None]> ∅)
             (Some (mkAOF (Some ("SET a 1" +:+ newline)) false)))
      = Some (mkAOF (Some ("SET a 1" +:+ newline)) false)
      /\ logOf (mkStore (<["a" := mkItem (VString "1") None]> ∅)
                  (Some (mkAOF (Some ("SET a 1" +:+ newline)) false)))
         = "SET a 1" +:+ newline).
Proof.
  assert (N : "aof.log" <> "") by discriminate.
  assert (E : New "aof.log" ("SET a 1" +:+ newline) (fun _ => 0)
              = Ok (mkStore (<["a" := mkItem (VString "1") None]> ∅)
                      (Some (mkAOF (Some ("SET a 1" +:+ newline)) false))))
    by (vm_compute; reflexivity).
  split; [exact N|]. split; [exact E|].
  exact (New_keeps_log "aof.log" ("SET a 1" +:+ newline) (fun _ => 0) _ N E).
Defined.

Lemma New_succeeds_iff_log_intact_witness :
  "aof.log" <> ""
  /\ isASCII ("SET a 1" +:+ newline +:+ "delete b" +:+ newline) = true
  /\ fitsScanner ("SET a 1" +:+ newline +:+ "delete b" +:+ newline) = true
  /\ Forall (fun l => violatesGrammar l = false)
       (ScanLines ("SET a 1" +:+ newline +:+ "delete b" +:+ newline))
  /\ exists s,
       New "aof.log" ("SET a 1" +:+ newline +:+ "delete b" +:+ newline) (fun _ => 0)
       = Ok s.
Proof.
  assert (N : "aof.log" <> "") by discriminate.
  assert (F : Forall (fun l => violatesGrammar l = false)
                (ScanLines ("SET a 1" +:+ newline +:+ "delete b" +:+ newline)))
    by (repeat constructor).
  split; [exact N|]. split; [reflexivity|]. split; [reflexivity|]. split; [exact F|].
  exact (proj2 (New_succeeds_iff_log_intact "aof.log"
                  ("SET a 1" +:+ newline +:+ "delete b" +:+ newline) (fun _ => 0)
                  N eq_refl) (conj eq_refl F)).
Defined.

Lemma integrity_error_is_first_violation_witness :
  isASCII ("SET a 1" +:+ newline +:+ "BOGUS" +:+ newline) = true
  /\ fitsScanner ("SET a 1" +:+ newline +:+ "BOGUS" +:+ newline) = true
  /\ checkAOFIntegrity ("SET a 1" +:+ newline +:+ "BOGUS" +:+ newline)
     = Some (ErrInvalidFormatAt 2 "BOGUS")
  /\ exists k text,
       statements.lineOfError (ErrInvalidFormatAt 2 "BOGUS") = Some (S k)
       /\ ScanLines ("SET a 1" +:+ newline +:+ "BOGUS" +:+ newline) !! k = Some text
       /\ violatesGrammar text = true
       /\ Forall (fun l => violatesGrammar l = false)
            (take k (ScanLines ("SET a 1" +:+ newline +:+ "BOGUS" +:+ newline))).
Proof.
  assert (E : checkAOFIntegrity ("SET a 1" +:+ newline +:+ "BOGUS" +:+ newline)
              = Some (ErrInvalidFormatAt 2 "BOGUS")) by reflexivity.
  split; [reflexivity|]. split; [reflexivity|]. split; [exact E|].
  exact (integrity_error_is_first_violation
           ("SET a 1" +:+ newline +:+ "BOGUS" +:+ newline) _ eq_refl eq_refl E).
Defined.

Lemma handler_agrees_with_handleCommand_witness :
  handler (fun _ => 0) "SET a 1" (mkStore ∅ None, 0%nat)
  = Ok (Set_ "a" (VString "1") 0 0 (mkStore ∅ None), 1%nat)
  /\ Set_ "a" (VString "1") 0 0 (mkStore ∅ None)
     = snd (handleCommand "SET a 1" ((fun _ : nat => 0) 0%nat) (mkStore ∅ None)).
Proof.
  assert (E : handler (fun _ => 0) "SET a 1" (mkStore ∅ None, 0%nat)
              = Ok (Set_ "a" (VString "1") 0 0 (mkStore ∅ None), 1%nat)) by reflexivity.
  split; [exact E|].
  exact (handler_agrees_with_handleCommand (fun _ => 0) "SET a 1" _ _ _ _ E).
Defined.

Lemma handleCommand_changes_only_on_OK_witness :
  fst (handleCommand "GET a" 0 (mkStore ∅ None)) <> "OK"
  /\ snd (handleCommand "GET a" 0 (mkStore ∅ None)) = mkStore ∅ None.
Proof.
  assert (N : fst (handleCommand "GET a" 0 (mkStore ∅ None)) <> "OK")
    by (vm_compute; discriminate).
  split; [exact N|].
  exact (handleCommand_changes_only_on_OK "GET a" 0 (mkStore ∅ None) N).
Defined.

Lemma handleCommand_ignores_case_and_spacing_witness :
  isASCII "set  a   b" = true
  /\ isASCII "SET a b" = true
  /\ Fields "set  a   b" = ["set"; "a"; "b"]
  /\ Fields "SET a b" = ["SET"; "a"; "b"]
  /\ ToUpper "set" = ToUpper "SET"
  /\ handleCommand "set  a   b" 0 (mkStore ∅ None)
     = handleCommand "SET a b" 0 (mkStore ∅ None).
Proof.
  split; [reflexivity|]. split; [reflexivity|].
  split; [reflexivity|]. split; [reflexivity|]. split; [reflexivity|].
  exact (handleCommand_ignores_case_and_spacing "set  a   b" "SET a b" "set" "SET"
           ["a"; "b"] 0 (mkStore ∅ None) eq_refl eq_refl eq_refl eq_refl eq_refl).
Defined.

Lemma SET_with_ttl_then_GET_witness :
  isASCII "SET k hello world 5s" = true
  /\ isASCII "GET k" = true
  /\ Fields "SET k hello world 5s" = ["SET"; "k"; "hello"; "world"; "5s"]
  /\ ToUpper (hd "" ["SET"; "k"; "hello"; "world"; "5s"]) = "SET"
  /\ (4 <= length ["SET"; "k"; "hello"; "world"; "5s"])%nat
  /\ time.ParseDuration (nth (length ["SET"; "k"; "hello"; "world"; "5s"] - 1)
                           ["SET"; "k"; "hello"; "world"; "5s"] "") = Some 5000000000
  /\ Fields "GET k" = ["GET"; nth 1 ["SET"; "k"; "hello"; "world"; "5s"] ""]
  /\ ToUpper "GET" = "GET"
  /\ (fst (handleCommand "SET k hello world 5s" 0 (mkStore ∅ None)) = "OK"
      /\ fst (handleCommand "GET k" 1
                (snd (handleCommand "SET k hello world 5s" 0 (mkStore ∅ None))))
         = "hello world"
      /\ statements.singleSpaced ["hello"; "world"] "hello world").
Proof.
  assert (L : (4 <= length ["SET"; "k"; "hello"; "world"; "5s"])%nat) by (simpl; lia).
  split; [reflexivity|]. split; [reflexivity|].
  split; [reflexivity|]. split; [reflexivity|]. split; [exact L|].
  split; [reflexivity|]. split; [reflexivity|]. split; [reflexivity|].
  exact (SET_with_ttl_then_GET "SET k hello world 5s" "GET k"
           ["SET"; "k"; "hello"; "world"; "5s"] "GET" 5000000000 0 1 (mkStore ∅ None)
           eq_refl eq_refl eq_refl eq_refl L eq_refl eq_refl eq_refl).
Defined.

Lemma SET_then_GET_witness :
  isASCII "SET k hello world" = true
  /\ isASCII "GET k" = true
  /\ Fields "SET k hello world" = ["SET"; "k"; "hello"; "world"]
  /\ ToUpper (hd "" ["SET"; "k"; "hello"; "world"]) = "SET"
  /\ (3 <= length ["SET"; "k"; "hello"; "world"])%nat
  /\ (length ["SET"; "k"; "hello"; "world"] = 3%nat
      \/ time.ParseDuration (nth (length ["SET"; "k"; "hello"; "world"] - 1)
                               ["SET"; "k"; "hello"; "world"] "") = None)
  /\ Fields "GET k" = ["GET"; nth 1 ["SET"; "k"; "hello"; "world"] ""]
  /\ ToUpper "GET" = "GET"
  /\ fst (handleCommand "GET k" 1000000000000
            (snd (handleCommand "SET k hello world" 0 (mkStore ∅ None))))
     = "hello world"
  /\ statements.singleSpaced ["hello"; "world"] "hello world".
Proof.
  assert (L : (3 <= length ["SET"; "k"; "hello"; "world"])%nat) by (simpl; lia).
  assert (D : length ["SET"; "k"; "hello"; "world"] = 3%nat
              \/ time.ParseDuration (nth (length ["SET"; "k"; "hello"; "world"] - 1)
                                       ["SET"; "k"; "hello"; "world"] "") = None)
    by (right; reflexivity).
  split; [reflexivity|]. split; [reflexivity|].
  split; [reflexivity|]. split; [reflexivity|]. split; [exact L|]. split; [exact D|].
  split; [reflexivity|]. split; [reflexivity|].
  exact (SET_then_GET "SET k hello world" "GET k" ["SET"; "k"; "hello"; "world"] "GET" 0
           1000000000000 (mkStore ∅ None) eq_refl eq_refl eq_refl eq_refl L D
           eq_refl eq_refl).
Defined.

Lemma wire_session_survives_restart_witness :
  "aof.log" <> ""
  /\ endsLF "" = true
  /\ isASCII "" = true
  /\ New "aof.log" "" (fun _ => 0) = Ok (mkStore ∅ (Some (mkAOF (Some "") false)))
  /\ Forall (fun c => isASCII (fst c) = true)
       [("SET a hello world", 10); ("GET a", 11); ("SET b 5s", 12); ("DELETE a", 13)]
  /\ Forall (fun c => statements.noTrailingDuration (fst c) = true)
       [("SET a hello world", 10); ("GET a", 11); ("SET b 5s", 12); ("DELETE a", 13)]
  /\ logOf (statements.serve
              [("SET a hello world", 10); ("GET a", 11); ("SET b 5s", 12); ("DELETE a", 13)]
              (mkStore ∅ (Some (mkAOF (Some "") false))))
     = "SET a hello world" +:+ newline +:+ "SET b 5s" +:+ newline
       +:+ "DELETE a" +:+ newline
  /\ fitsScanner
       (logOf (statements.serve
                 [("SET a hello world", 10); ("GET a", 11); ("SET b 5s", 12); ("DELETE a", 13)]
                 (mkStore ∅ (Some (mkAOF (Some "") false))))) = true
  /\ exists s',
       New "aof.log"
         (logOf (statements.serve
                   [("SET a hello world", 10); ("GET a", 11); ("SET b 5s", 12); ("DELETE a", 13)]
                   (mkStore ∅ (Some (mkAOF (Some "") false)))))
         (fun _ => 100)
       = Ok s'
       /\ sameItems (items s')
            (items (statements.serve
                      [("SET a hello world", 10); ("GET a", 11); ("SET b 5s", 12); ("DELETE a", 13)]
                      (mkStore ∅ (Some (mkAOF (Some "") false))))).
Proof.
  assert (N : "aof.log" <> "") by discriminate.
  assert (A : Forall (fun c => isASCII (fst c) = true)
                [("SET a hello world", 10); ("GET a", 11); ("SET b 5s", 12); ("DELETE a", 13)])
    by (repeat constructor).
  assert (C : Forall (fun c => statements.noTrailingDuration (fst c) = true)
                [("SET a hello world", 10); ("GET a", 11); ("SET b 5s", 12); ("DELETE a", 13)])
    by (repeat constructor).
  split; [exact N|]. split; [reflexivity|]. split; [reflexivity|]. split; [reflexivity|].
  split; [exact A|]. split; [exact C|]. split; [reflexivity|]. split; [reflexivity|].
  exact (wire_session_survives_restart "aof.log" "" (fun _ => 0)
           (mkStore ∅ (Some (mkAOF (Some "") false))) _ (fun _ => 100)
           N eq_refl eq_refl eq_refl A C eq_refl).
Defined.

Lemma draft_Delete_logs_only_removals_witness :
  draft.persister (draft.mkStore ∅ (Some (draft.mkPersister (Some ""))) false)
  = Some (draft.mkPersister (Some ""))
  /\ draft.isLoading (draft.mkStore ∅ (Some (draft.mkPersister (Some ""))) false) = false
  /\ (draft.logOf (draft.Delete "k"
                     (draft.mkStore ∅ (Some (draft.mkPersister (Some ""))) false))
      = match draft.items (draft.mkStore ∅ (Some (draft.mkPersister (Some ""))) false)
              !! "k" with
        | Some _ => "" +:+ Join ["DELETE"; "k"] " " +:+ String LF ""
        | None => ""
        end
      /\ (draft.items (draft.mkStore ∅ (Some (draft.mkPersister (Some ""))) false) !! "k"
          = None ->
          draft.Delete "k" (draft.mkStore ∅ (Some (draft.mkPersister (Some ""))) false)
          = draft.mkStore ∅ (Some (draft.mkPersister (Some ""))) false)).
Proof.
  split; [reflexivity|]. split; [reflexivity|].
  exact (draft_Delete_logs_only_removals "k"
           (draft.mkStore ∅ (Some (draft.mkPersister (Some ""))) false) ""
           eq_refl eq_refl).
Defined.

Lemma draft_loader_skips_violations_witness :
  Forall (fun l => isASCII l = true) ["SET a 1"; "BOGUS x"; "DELETE"; "SET b 2"]
  /\ List.filter (fun l => negb (violatesGrammar l)) ["SET a 1"; "BOGUS x"; "DELETE"; "SET b 2"]
     = ["SET a 1"; "SET b 2"]
  /\ draft.loadLines (fun _ => 0) ["SET a 1"; "BOGUS x"; "DELETE"; "SET b 2"]
       (draft.mkStore ∅ (Some (draft.mkPersister (Some ""))) true, 0%nat)
     = draft.loadLines (fun _ => 0) ["SET a 1"; "SET b 2"]
         (draft.mkStore ∅ (Some (draft.mkPersister (Some ""))) true, 0%nat).
Proof.
  assert (A : Forall (fun l => isASCII l = true) ["SET a 1"; "BOGUS x"; "DELETE"; "SET b 2"])
    by (repeat constructor).
  split; [exact A|]. split; [reflexivity|].
  exact (draft_loader_skips_violations (fun _ => 0) ["SET a 1"; "BOGUS x"; "DELETE"; "SET b 2"] A
           (draft.mkStore ∅ (Some (draft.mkPersister (Some ""))) true, 0%nat)).
Defined.

Lemma draft_New_agrees_with_New_witness :
  store.New "aof.log" ("SET a 1" +:+ newline) (fun _ => 0)
  = Ok (mkStore (<["a" := mkItem (VString "1") None]> ∅)
          (Some (mkAOF (Some ("SET a 1" +:+ newline)) false)))
  /\ draft.items (draft.New "aof.log" ("SET a 1" +:+ newline) (fun _ => 0))
     = items (mkStore (<["a" := mkItem (VString "1") None]> ∅)
                (Some (mkAOF (Some ("SET a 1" +:+ newline)) false))).
Proof.
  assert (E : store.New "aof.log" ("SET a 1" +:+ newline) (fun _ => 0)
              = Ok (mkStore (<["a" := mkItem (VString "1") None]> ∅)
                      (Some (mkAOF (Some ("SET a 1" +:+ newline)) false))))
    by (vm_compute; reflexivity).
  split; [exact E|].
  exact (draft_New_agrees_with_New "aof.log" ("SET a 1" +:+ newline) (fun _ => 0) _ E).
Defined.

Lemma draft_handleCommand_agrees_witness :
  isASCII "SET k v 5s" = true
  /\ Fields "SET k v 5s" = ["SET"; "k"; "v"; "5s"]
  /\ (ToUpper (hd "" ["SET"; "k"; "v"; "5s"]) <> "SET"
      \/ (length ["SET"; "k"; "v"; "5s"] <= 3)%nat
      \/ (length ["SET"; "k"; "v"; "5s"] = 4%nat
          /\ time.ParseDuration (nth 3 ["SET"; "k"; "v"; "5s"] "") <> None))
  /\ draftserver.handleCommand "SET k v 5s" 0 (mkStore ∅ None)
     = handleCommand "SET k v 5s" 0 (mkStore ∅ None).
Proof.
  assert (D : ToUpper (hd "" ["SET"; "k"; "v"; "5s"]) <> "SET"
              \/ (length ["SET"; "k"; "v"; "5s"] <= 3)%nat
              \/ (length ["SET"; "k"; "v"; "5s"] = 4%nat
                  /\ time.ParseDuration (nth 3 ["SET"; "k"; "v"; "5s"] "") <> None))
    by (right; right; split; [reflexivity|vm_compute; discriminate]).
  split; [reflexivity|]. split; [reflexivity|]. split; [exact D|].
  exact (draft_handleCommand_agrees "SET k v 5s" ["SET"; "k"; "v"; "5s"] 0
           (mkStore ∅ None) eq_refl eq_refl D).
Defined.

Lemma handleConnection_in_pieces_witness :
  endsLF ("SET a 1" +:+ newline) = true
  /\ connection.handleConnection (fun _ => 0)
       (("SET a 1" +:+ newline) +:+ ("GET a" +:+ newline)) (mkStore ∅ None)
     = (let '(o1, s1) :=
          connection.handleConnection (fun _ => 0) ("SET a 1" +:+ newline)
            (mkStore ∅ None) in
        let '(o2, s2) :=
          connection.handleConnection
            (fun i => (fun _ : nat => 0)
                        (length (connection.requests ("SET a 1" +:+ newline)) + i)%nat)
            ("GET a" +:+ newline) s1 in
        (o1 +:+ o2, s2)).
Proof.
  split; [reflexivity|].
  exact (handleConnection_in_pieces (fun _ => 0) ("SET a 1" +:+ newline)
           ("GET a" +:+ newline) (mkStore ∅ None) eq_refl).
Defined.

Lemma handleConnection_drops_unterminated_witness :
  endsLF ("SET a 1" +:+ newline) = true
  /\ noLF "DELETE a" = true
  /\ connection.handleConnection (fun _ => 0) (("SET a 1" +:+ newline) +:+ "DELETE a")
       (mkStore ∅ None)
     = connection.handleConnection (fun _ => 0) ("SET a 1" +:+ newline) (mkStore ∅ None).
Proof.
  split; [reflexivity|]. split; [reflexivity|].
  exact (handleConnection_drops_unterminated (fun _ => 0) ("SET a 1" +:+ newline)
           "DELETE a" (mkStore ∅ None) eq_refl eq_refl).
Defined.

Lemma client_Set_then_Get_witness :
  client.reader (client.mkClient (mkStore ∅ None) 0 "") = ""
  /\ isASCII "k" = true
  /\ isASCII "hello world" = true
  /\ 0 <= 0
  /\ replayable (CallSet "k" (VString "hello world") 0) = true
  /\ (fst (client.Set_ (fun _ => 0) "k" "hello world" 0
             (client.mkClient (mkStore ∅ None) 0 "")) = None
      /\ client.reader (snd (client.Set_ (fun _ => 0) "k" "hello world" 0
                               (client.mkClient (mkStore ∅ None) 0 ""))) = ""
      /\ fst (client.Get (fun _ => 0) "k"
                (snd (client.Set_ (fun _ => 0) "k" "hello world" 0
                        (client.mkClient (mkStore ∅ None) 0 ""))))
         = "hello world").
Proof.
  assert (P : 0 <= 0) by lia.
  split; [reflexivity|]. split; [reflexivity|]. split; [reflexivity|].
  split; [exact P|]. split; [reflexivity|].
  exact (client_Set_then_Get (fun _ => 0) "k" "hello world" 0
           (client.mkClient (mkStore ∅ None) 0 "") eq_refl eq_refl eq_refl P eq_refl).
Defined.

Lemma client_on_missing_key_witness :
  client.reader (client.mkClient (mkStore ∅ None) 0 "") = ""
  /\ isASCII "k" = true
  /\ isField "k" = true
  /\ snd (Get "k" ((fun _ : nat => 0) (client.handled (client.mkClient (mkStore ∅ None) 0 "")))
            (client.peer (client.mkClient (mkStore ∅ None) 0 ""))) = false
  /\ (fst (client.Get (fun _ => 0) "k" (client.mkClient (mkStore ∅ None) 0 "")) = ""
      /\ fst (client.Exists (fun _ => 0) "k" (client.mkClient (mkStore ∅ None) 0 "")) = false
      /\ fst (client.Delete (fun _ => 0) "k" (client.mkClient (mkStore ∅ None) 0 "")) = None).
Proof.
  split; [reflexivity|]. split; [reflexivity|]. split; [reflexivity|].
  split; [reflexivity|].
  exact (client_on_missing_key (fun _ => 0) "k" (client.mkClient (mkStore ∅ None) 0 "")
           eq_refl eq_refl eq_refl eq_refl).
Defined.
